(** * next-tetris: the board / piece rules of the four Tetris components

    The repository holds four React components that each carry their own copy
    of the rules:

    - the DOM build            (first component of [tetris-2d.tsx]),
    - the canvas build with hold, kicks and hard drop
                               (second component of [tetris-2d.tsx]),
    - the flat 3D-rendered build ([tetris-3d.tsx]),
    - the volumetric build     ([tetris-3d-crazy-3d.tsx]).

    The pure helpers ([isValidMove], [mergePieceToBoard], [clearLines], ...)
    are embedded as functions; the event handlers are embedded as programs
    that read the state captured by the closure of the current render and
    queue state updates. *)

From Stdlib Require Import ZArith List Lia Bool String.
From Equations Require Import Equations.
Import ListNotations.
Open Scope Z_scope.

(** ** JavaScript values, arrays and thrown errors *)

(** What an array slot of a shape or of a board can hold: a number, or
    [undefined] (also what reading a hole or reading past the end gives). *)
Inductive value : Type :=
| Num (n : Z)
| Undefined.

(** JavaScript truthiness of a slot ([if (v)]). *)
Definition truthy (v : value) : bool :=
  match v with
  | Num n => negb (n =? 0)
  | Undefined => false
  end.

(** [v !== 0]. *)
Definition isNonZero (v : value) : bool :=
  match v with
  | Num n => negb (n =? 0)
  | Undefined => true
  end.

(** [arr[i]] for an integer [i]: [None] stands for [undefined], which is what
    a negative index or an index past the end reads. *)
Definition index {A : Type} (arr : list A) (i : Z) : option A :=
  if i <? 0 then None else nth_error arr (Z.to_nat i).

(** [row[i]] where the slots are values. *)
Definition cellAt (row : list value) (i : Z) : value :=
  match index row i with
  | Some v => v
  | None => Undefined
  end.

(** [!p] for a state slot that holds an object or [null]. *)
Definition isNull {A : Type} (p : option A) : bool :=
  match p with
  | Some _ => false
  | None => true
  end.

(** [arr.length]. *)
Definition len {A : Type} (arr : list A) : Z := Z.of_nat (List.length arr).

(** Result of running a piece of code: a value, a thrown [TypeError]
    (a property read or written on [undefined]), or a loop that was cut
    off by the fuel of the model. *)
Inductive outcome (A : Type) : Type :=
| Done (a : A)
| TypeError
| OutOfFuel.
Arguments Done {A} a.
Arguments TypeError {A}.
Arguments OutOfFuel {A}.

Definition obind {A B : Type} (m : outcome A) (k : A -> outcome B) : outcome B :=
  match m with
  | Done a => k a
  | TypeError => TypeError
  | OutOfFuel => OutOfFuel
  end.

Declare Scope outcome_scope.
Delimit Scope outcome_scope with outcome.
Notation "'let?' x ':=' m 'in' k" := (obind m (fun x => k))
  (at level 10, x name, m at level 100, k at level 200) : outcome_scope.
Open Scope outcome_scope.

(** ** Constants shared by the components *)

Definition BOARD_WIDTH : Z := 10.
Definition BOARD_HEIGHT : Z := 20.
Definition BOARD_DEPTH : Z := 10.
Definition SPEED_INCREMENT : Z := 50.
Definition LEVEL_THRESHOLD : Z := 1000.

Definition Row : Type := list value.

(** [Array(BOARD_WIDTH).fill(0)]. *)
Definition emptyRow : Row := repeat (Num 0) (Z.to_nat BOARD_WIDTH).

(** ** The two-dimensional rules (DOM, canvas and flat 3D builds) *)

Module Grid.

Definition Board : Type := list Row.

Record Position : Type := mkPosition { px : Z; py : Z }.

(** A piece; the colour is a number in the DOM build and a string in the
    others, so it is a parameter. *)
Record Piece (C : Type) : Type := mkPiece {
  shape : list Row;
  position : Position;
  color : C
}.
Arguments mkPiece {C} shape position color.
Arguments shape {C} p.
Arguments position {C} p.
Arguments color {C} p.

Definition withPosition {C} (p : Piece C) (pos : Position) : Piece C :=
  mkPiece (shape p) pos (color p).

Definition withShape {C} (p : Piece C) (s : list Row) : Piece C :=
  mkPiece s (position p) (color p).

(** [{ ...piece, position: { ...piece.position, y: y } }]. *)
Definition withY {C} (p : Piece C) (y : Z) : Piece C :=
  withPosition p (mkPosition (px (position p)) y).

(** [{ ...piece, position: { ...piece.position, x: x } }]. *)
Definition withX {C} (p : Piece C) (x : Z) : Piece C :=
  withPosition p (mkPosition x (py (position p))).

(** [Array.from({ length: BOARD_HEIGHT }, () => Array(BOARD_WIDTH).fill(0))]. *)
Definition emptyBoard : Board := repeat emptyRow (Z.to_nat BOARD_HEIGHT).

(** The condition of the [if] inside [isValidMove]:
    [newX < 0 || newX >= BOARD_WIDTH || newY >= BOARD_HEIGHT ||
     (newY >= 0 && board[newY][newX])].
    [board[newY]] being [undefined] makes the second subscript throw. *)
Definition collides (board : Board) (newX newY : Z) : outcome bool :=
  if (newX <? 0) || (newX >=? BOARD_WIDTH) || (newY >=? BOARD_HEIGHT) then Done true
  else if newY >=? 0 then
    match index board newY with
    | None => TypeError
    | Some r => Done (truthy (cellAt r newX))
    end
  else Done false.

(** The inner [for (x ...)] loop of [isValidMove] over the slots of one shape
    row, from column [x] on; [Done false] is the early [return false]. *)
Fixpoint scanRow (board : Board) (pos : Position) (y : Z) (row : Row) (x : Z)
  : outcome bool :=
  match row with
  | [] => Done true
  | v :: rest =>
      if truthy v then
        let newX := px pos + x in
        let newY := py pos + y in
        let? hit := collides board newX newY in
        if hit then Done false else scanRow board pos y rest (x + 1)
      else scanRow board pos y rest (x + 1)
  end.

(** The outer [for (y ...)] loop, from shape row [y] on. *)
Fixpoint scanRows (board : Board) (pos : Position) (rows : list Row) (y : Z)
  : outcome bool :=
  match rows with
  | [] => Done true
  | row :: rest =>
      let? ok := scanRow board pos y row 0 in
      if ok then scanRows board pos rest (y + 1) else Done false
  end.

Definition isValidMove {C} (piece : Piece C) (board : Board) : outcome bool :=
  scanRows board (position piece) (shape piece) 0.

(** [newBoard[r][c] = v] on the slots of row [r]: a negative [c] only adds
    a property and leaves the slots alone, a [c] past the end extends the
    array (the slots in between read [undefined]). *)
Definition writeSlot (row : Row) (c : Z) (v : value) : Row :=
  if c <? 0 then row
  else
    let n := Z.to_nat c in
    if (n <? List.length row)%nat
    then firstn n row ++ v :: skipn (S n) row
    else row ++ repeat Undefined (n - List.length row) ++ [v].

(** [newBoard[r][c] = v]; [newBoard[r]] being [undefined] throws. *)
Definition writeCell (board : Board) (r c : Z) (v : value) : outcome Board :=
  match index board r with
  | None => TypeError
  | Some row =>
      Done (firstn (Z.to_nat r) board ++ writeSlot row c v
              :: skipn (S (Z.to_nat r)) board)
  end.

(** [row.forEach((value, x) => { if (value) newBoard[...][...] = id })],
    from column [x] on. *)
Fixpoint mergeRow (id : value) (pos : Position) (y : Z) (row : Row) (x : Z)
  (newBoard : Board) : outcome Board :=
  match row with
  | [] => Done newBoard
  | v :: rest =>
      if truthy v then
        let? nb := writeCell newBoard (py pos + y) (px pos + x) id in
        mergeRow id pos y rest (x + 1) nb
      else mergeRow id pos y rest (x + 1) newBoard
  end.

(** [piece.shape.forEach((row, y) => ...)], from shape row [y] on. *)
Fixpoint mergeRows (id : value) (pos : Position) (rows : list Row) (y : Z)
  (newBoard : Board) : outcome Board :=
  match rows with
  | [] => Done newBoard
  | row :: rest =>
      let? nb := mergeRow id pos y row 0 newBoard in
      mergeRows id pos rest (y + 1) nb
  end.

(** [mergePieceToBoard]; [id] is the value the component writes into the
    cells ([piece.color] in the DOM build, the catalogue index plus one in the
    others).  [board.map(row => [...row])] copies the rows, which the model
    does by value. *)
Definition mergePieceToBoard {C} (id : Piece C -> value) (piece : Piece C)
  (board : Board) : outcome Board :=
  mergeRows (id piece) (position piece) (shape piece) 0 board.

(** [row.every(cell => cell !== 0)]. *)
Definition isFull (row : Row) : bool := forallb isNonZero row.

(** [board.filter(row => { if (row.every(...)) { linesCleared++; return false }
    return true })], with the counter the callback increments. *)
Fixpoint filterFull (board : Board) (linesCleared : Z) : Board * Z :=
  match board with
  | [] => ([], linesCleared)
  | row :: rest =>
      if isFull row then filterFull rest (linesCleared + 1)
      else
        let '(kept, n) := filterFull rest linesCleared in
        (row :: kept, n)
  end.

(** Rows missing from a board of [BOARD_HEIGHT] rows; what the padding loop
    of [clearLines] counts down. *)
Definition missingRows (newBoard : Board) : nat :=
  Z.to_nat (BOARD_HEIGHT - len newBoard).
Arguments missingRows : simpl never.

(** [while (newBoard.length < BOARD_HEIGHT) newBoard.unshift(emptyRow)]. *)
Equations? padTop (newBoard : Board) : Board
  by wf (missingRows newBoard) lt :=
  padTop newBoard with Z_lt_dec (len newBoard) BOARD_HEIGHT => {
    | left _ => padTop (emptyRow :: newBoard)
    | right _ => newBoard }.
Proof.
  unfold missingRows, len, BOARD_HEIGHT in *. rewrite length_cons. lia.
Qed.

Definition clearLines (board : Board) : Board * Z :=
  let '(newBoard, linesCleared) := filterFull board 0 in
  (padTop newBoard, linesCleared).

(** [arr.map((elt, index) => f elt index)], from index [i] on. *)
Fixpoint mapIndexed {A B : Type} (f : A -> Z -> B) (arr : list A) (i : Z)
  : list B :=
  match arr with
  | [] => []
  | a :: rest => f a i :: mapIndexed f rest (i + 1)
  end.

(** [piece.shape[0].map((_, index) =>
       piece.shape.map(row => row[index]).reverse())];
    an empty shape has no [shape[0]] to call [map] on. *)
Definition rotateShape (s : list Row) : outcome (list Row) :=
  match index s 0 with
  | None => TypeError
  | Some first =>
      Done (mapIndexed
              (fun _ idx => rev (map (fun row => cellAt row idx) s))
              first 0)
  end.

(** [Math.floor(BOARD_WIDTH / 2) - Math.floor(shape[0].length / 2)], the
    column a piece is spawned or restored at. *)
Definition spawnX (s : list Row) : outcome Z :=
  match index s 0 with
  | None => TypeError
  | Some first => Done (BOARD_WIDTH / 2 - len first / 2)
  end.

(** The seven catalogue shapes, in the order of [SHAPES]. *)
Definition shapeI : list Row := [[Num 1; Num 1; Num 1; Num 1]].
Definition shapeO : list Row := [[Num 1; Num 1]; [Num 1; Num 1]].
Definition shapeT : list Row := [[Num 1; Num 1; Num 1]; [Num 0; Num 1; Num 0]].
Definition shapeJ : list Row := [[Num 1; Num 1; Num 1]; [Num 1; Num 0; Num 0]].
Definition shapeL : list Row := [[Num 1; Num 1; Num 1]; [Num 0; Num 0; Num 1]].
Definition shapeS : list Row := [[Num 1; Num 1; Num 0]; [Num 0; Num 1; Num 1]].
Definition shapeZ : list Row := [[Num 0; Num 1; Num 1]; [Num 1; Num 1; Num 0]].

(** [createNewPiece] over a catalogue [shapes]; [r] is the value of
    [Math.floor(Math.random() * SHAPES.length)].  Destructuring
    [SHAPES[r]] when it is [undefined] throws. *)
Definition createNewPieceFrom {C} (shapes : list (list Row * C)) (r : Z)
  : outcome (Piece C) :=
  match index shapes r with
  | None => TypeError
  | Some (s, c) =>
      let? x := spawnX s in
      Done (mkPiece s (mkPosition x 0) c)
  end.

(** [SHAPES.findIndex(s => s.color === c)], scanning from index [i]. *)
Fixpoint findIndex (shapes : list (list Row * string)) (c : string) (i : Z) : Z :=
  match shapes with
  | [] => -1
  | (_, c') :: rest => if String.eqb c' c then i else findIndex rest c (i + 1)
  end.

(** The loop of [getDropPosition] (and of the flat build's [hardDrop]):
    [while (isValidMove({...piece, position: {..., y: dropY + 1}}, board))
       dropY++].  It need not end (a shape without cells is valid
    everywhere), so the model counts iterations down from [fuel]. *)
Fixpoint dropLoop {C} (fuel : nat) (piece : Piece C) (board : Board) (dropY : Z)
  : outcome Z :=
  match fuel with
  | O => OutOfFuel
  | S fuel' =>
      let? valid := isValidMove (withY piece (dropY + 1)) board in
      if valid then dropLoop fuel' piece board (dropY + 1) else Done dropY
  end.

End Grid.

(** ** Event handlers: reading a render's closure, queueing state updates

    A handler created by [useCallback] sees the state of the render it was
    created in (the snapshot [snap] its model takes as an argument) and
    queues updates with the [setX] functions.  A handler is therefore a
    program over the pending state [St]: [setX(v)] overwrites a field of the
    pending state, [setX(prev => f(prev))] applies [f] to the pending field.
    When the handler throws, the updates queued before the throw stay
    queued. *)

Definition update (St A : Type) : Type := St -> outcome A * St.

Definition ret {St A : Type} (a : A) : update St A := fun st => (Done a, st).

Definition bind {St A B : Type} (m : update St A) (k : A -> update St B)
  : update St B :=
  fun st =>
    match m st with
    | (Done a, st') => k a st'
    | (TypeError, st') => (TypeError, st')
    | (OutOfFuel, st') => (OutOfFuel, st')
    end.

(** A pure computation that may throw, run inside a handler. *)
Definition lift {St A : Type} (o : outcome A) : update St A := fun st => (o, st).

(** Queueing one update. *)
Definition queue {St : Type} (f : St -> St) : update St unit :=
  fun st => (Done tt, f st).

Declare Scope update_scope.
Delimit Scope update_scope with update.
Notation "x <- m ;; k" := (bind m (fun x => k))
  (at level 61, m at next level, right associativity) : update_scope.
Notation "m ;; k" := (bind m (fun _ => k))
  (at level 61, right associativity) : update_scope.

(** The state of the next render after a handler ran in the render whose
    state is [snap]. *)
Definition run {St : Type} (h : St -> update St unit) (snap : St) : St :=
  snd (h snap snap).

(** Whether the handler ran to its end, threw, or was cut off. *)
Definition result {St : Type} (h : St -> update St unit) (snap : St)
  : outcome unit :=
  fst (h snap snap).

(** ** The DOM build (first component of [tetris-2d.tsx]) *)

Module Dom.
Import Grid.
Open Scope update_scope.

Definition INITIAL_SPEED : Z := 500.

Definition SHAPES : list (list Row * Z) :=
  [ (shapeI, 1); (shapeO, 2); (shapeT, 3); (shapeJ, 4);
    (shapeL, 5); (shapeS, 6); (shapeZ, 7) ].

Record State : Type := mkState {
  board : Board;
  piece : option (Piece Z);
  nextPiece : option (Piece Z);
  score : Z;
  level : Z;
  gameOver : bool;
  speed : Z
}.

(** The values [useState] starts from. *)
Definition initialState : State :=
  mkState emptyBoard None None 0 1 false INITIAL_SPEED.

Definition setBoard (b : Board) : update State unit :=
  queue (fun st => mkState b (piece st) (nextPiece st) (score st) (level st)
                     (gameOver st) (speed st)).
Definition setPiece (p : option (Piece Z)) : update State unit :=
  queue (fun st => mkState (board st) p (nextPiece st) (score st) (level st)
                     (gameOver st) (speed st)).
Definition setNextPiece (p : option (Piece Z)) : update State unit :=
  queue (fun st => mkState (board st) (piece st) p (score st) (level st)
                     (gameOver st) (speed st)).
Definition setScore (n : Z) : update State unit :=
  queue (fun st => mkState (board st) (piece st) (nextPiece st) n (level st)
                     (gameOver st) (speed st)).
Definition setLevel (f : Z -> Z) : update State unit :=
  queue (fun st => mkState (board st) (piece st) (nextPiece st) (score st)
                     (f (level st)) (gameOver st) (speed st)).
Definition setGameOver (g : bool) : update State unit :=
  queue (fun st => mkState (board st) (piece st) (nextPiece st) (score st)
                     (level st) g (speed st)).
Definition setSpeed (f : Z -> Z) : update State unit :=
  queue (fun st => mkState (board st) (piece st) (nextPiece st) (score st)
                     (level st) (gameOver st) (f (speed st))).

Definition createNewPiece (r : Z) : outcome (Piece Z) :=
  createNewPieceFrom SHAPES r.

(** The DOM build writes [piece.color] into the board. *)
Definition cellId (p : Piece Z) : value := Num (color p).

(** [moveDown]; [r1] and [r2] are the random catalogue indices of the first
    and second [createNewPiece()] call it makes. *)
Definition moveDown (r1 r2 : Z) (snap : State) : update State unit :=
  match piece snap with
  | None => ret tt
  | Some p =>
      let newPiece := withY p (py (position p) + 1) in
      valid <- lift (isValidMove newPiece (board snap)) ;;
      if (valid : bool) then setPiece (Some newPiece)
      else
        newBoard <- lift (mergePieceToBoard cellId p (board snap)) ;;
        let '(clearedBoard, linesCleared) := clearLines newBoard in
        setBoard clearedBoard ;;
        let linesClearedScore := linesCleared * linesCleared * 100 in
        let newScore := score snap + linesClearedScore + 10 in
        setScore newScore ;;
        (if newScore >=? level snap * LEVEL_THRESHOLD
         then setLevel (fun prevLevel => prevLevel + 1) ;;
              setSpeed (fun prevSpeed => Z.max (prevSpeed - SPEED_INCREMENT) 100)
         else ret tt) ;;
        match nextPiece snap with
        | Some np =>
            setPiece (Some np) ;;
            fresh <- lift (createNewPiece r1) ;;
            setNextPiece (Some fresh)
        | None =>
            newPiece' <- lift (createNewPiece r1) ;;
            ok <- lift (isValidMove newPiece' clearedBoard) ;;
            if negb ok then setGameOver true
            else
              setPiece (Some newPiece') ;;
              fresh <- lift (createNewPiece r2) ;;
              setNextPiece (Some fresh)
        end
  end.

Inductive direction : Type := left | right.

Definition moveSideways (d : direction) (snap : State) : update State unit :=
  match piece snap with
  | None => ret tt
  | Some p =>
      let newPiece :=
        withX p (px (position p) + match d with left => -1 | right => 1 end) in
      valid <- lift (isValidMove newPiece (board snap)) ;;
      if (valid : bool) then setPiece (Some newPiece) else ret tt
  end.

Definition rotate (snap : State) : update State unit :=
  match piece snap with
  | None => ret tt
  | Some p =>
      newShape <- lift (rotateShape (shape p)) ;;
      let newPiece := withShape p newShape in
      valid <- lift (isValidMove newPiece (board snap)) ;;
      if (valid : bool) then setPiece (Some newPiece) else ret tt
  end.

(** The spawning [useEffect]: it installs a first piece without checking
    it. *)
Definition spawnEffect (r1 r2 : Z) (snap : State) : update State unit :=
  if isNull (piece snap) && negb (gameOver snap) then
    newPiece <- lift (createNewPiece r1) ;;
    setPiece (Some newPiece) ;;
    fresh <- lift (createNewPiece r2) ;;
    setNextPiece (Some fresh)
  else ret tt.

Inductive key : Type := ArrowLeft | ArrowRight | ArrowDown | ArrowUp | OtherKey.

(** [handleKeyPress]. *)
Definition handleKeyPress (k : key) (r1 r2 : Z) (snap : State)
  : update State unit :=
  if gameOver snap then ret tt
  else
    match k with
    | ArrowLeft => moveSideways left snap
    | ArrowRight => moveSideways right snap
    | ArrowDown => moveDown r1 r2 snap
    | ArrowUp => rotate snap
    | OtherKey => ret tt
    end.

(** The gravity interval: it only exists while the game is not over. *)
Definition gravityTick (r1 r2 : Z) (snap : State) : update State unit :=
  if gameOver snap then ret tt else moveDown r1 r2 snap.

(** The test [renderBoard] makes for the cell in column [x] of row [y]:
    [piece && y >= piece.position.y && y < piece.position.y + piece.shape.length
     && x >= piece.position.x && x < piece.position.x + piece.shape[0].length
     && piece.shape[y - piece.position.y][x - piece.position.x]].
    [piece.shape[0]] is only read once the row test has passed, so it
    exists. *)
Definition isActivePiece (p : option (Piece Z)) (x y : Z) : bool :=
  match p with
  | None => false
  | Some piece =>
      (y >=? py (position piece))
      && (y <? py (position piece) + len (shape piece))
      && (x >=? px (position piece))
      && match index (shape piece) 0 with
         | Some first => x <? px (position piece) + len first
         | None => false
         end
      && match index (shape piece) (y - py (position piece)) with
         | Some row => truthy (cellAt row (x - px (position piece)))
         | None => false
         end
  end.

(** The colour index [renderBoard] passes to [renderCell] for every cell:
    [board.map((row, y) => row.map((cell, x) =>
       renderCell(isActivePiece ? piece.color : cell, ...)))]. *)
Definition renderBoard (snap : State) : list (list value) :=
  mapIndexed
    (fun row y =>
       mapIndexed
         (fun cell x =>
            if isActivePiece (piece snap) x y
            then match piece snap with
                 | Some piece => Num (color piece)
                 | None => cell
                 end
            else cell)
         row 0)
    (board snap) 0.

(** What the browser and React deliver to the component: a key press, a tick
    of the gravity interval, or a run of the spawning effect, each with the
    random draws it may consume. *)
Inductive event : Type :=
| KeyDown (k : key) (r1 r2 : Z)
| Tick (r1 r2 : Z)
| Effect (r1 r2 : Z).

(** The state of the next render after one event. *)
Definition dispatch (e : event) (s : State) : State :=
  match e with
  | KeyDown k r1 r2 => run (handleKeyPress k r1 r2) s
  | Tick r1 r2 => run (gravityTick r1 r2) s
  | Effect r1 r2 => run (spawnEffect r1 r2) s
  end.

Fixpoint dispatchAll (es : list event) (s : State) : State :=
  match es with
  | [] => s
  | e :: rest => dispatchAll rest (dispatch e s)
  end.

(** The handler an event runs. *)
Definition handler (e : event) : State -> update State unit :=
  match e with
  | KeyDown k r1 r2 => handleKeyPress k r1 r2
  | Tick r1 r2 => gravityTick r1 r2
  | Effect r1 r2 => spawnEffect r1 r2
  end.

End Dom.

(** ** The canvas build with hold, kicks and hard drop
       (second component of [tetris-2d.tsx]) *)

Module Hold.
Import Grid.
Open Scope update_scope.
Open Scope string_scope.

Definition INITIAL_SPEED : Z := 500.

Definition SHAPES : list (list Row * string) :=
  [ (shapeI, "#00FFFF"); (shapeO, "#FFFF00"); (shapeT, "#800080");
    (shapeJ, "#0000FF"); (shapeL, "#FFA500"); (shapeS, "#00FF00");
    (shapeZ, "#FF0000") ].

Record State : Type := mkState {
  board : Board;
  piece : option (Piece string);
  nextPiece : option (Piece string);
  score : Z;
  level : Z;
  gameOver : bool;
  speed : Z;
  storedPiece : option (Piece string);
  canStore : bool;
  highScore : Z
}.

(** The values [useState] starts from; [stored] is the high score read from
    the browser's storage. *)
Definition initialState (stored : Z) : State :=
  mkState emptyBoard None None 0 1 false INITIAL_SPEED None true stored.

Definition setBoard (b : Board) : update State unit :=
  queue (fun st => mkState b (piece st) (nextPiece st) (score st) (level st)
                     (gameOver st) (speed st) (storedPiece st) (canStore st)
                     (highScore st)).
Definition setPiece (p : option (Piece string)) : update State unit :=
  queue (fun st => mkState (board st) p (nextPiece st) (score st) (level st)
                     (gameOver st) (speed st) (storedPiece st) (canStore st)
                     (highScore st)).
Definition setNextPiece (p : option (Piece string)) : update State unit :=
  queue (fun st => mkState (board st) (piece st) p (score st) (level st)
                     (gameOver st) (speed st) (storedPiece st) (canStore st)
                     (highScore st)).
Definition setScore (n : Z) : update State unit :=
  queue (fun st => mkState (board st) (piece st) (nextPiece st) n (level st)
                     (gameOver st) (speed st) (storedPiece st) (canStore st)
                     (highScore st)).
Definition setLevel (f : Z -> Z) : update State unit :=
  queue (fun st => mkState (board st) (piece st) (nextPiece st) (score st)
                     (f (level st)) (gameOver st) (speed st) (storedPiece st)
                     (canStore st) (highScore st)).
Definition setGameOver (g : bool) : update State unit :=
  queue (fun st => mkState (board st) (piece st) (nextPiece st) (score st)
                     (level st) g (speed st) (storedPiece st) (canStore st)
                     (highScore st)).
Definition setSpeed (f : Z -> Z) : update State unit :=
  queue (fun st => mkState (board st) (piece st) (nextPiece st) (score st)
                     (level st) (gameOver st) (f (speed st)) (storedPiece st)
                     (canStore st) (highScore st)).
Definition setStoredPiece (p : option (Piece string)) : update State unit :=
  queue (fun st => mkState (board st) (piece st) (nextPiece st) (score st)
                     (level st) (gameOver st) (speed st) p (canStore st)
                     (highScore st)).
Definition setCanStore (c : bool) : update State unit :=
  queue (fun st => mkState (board st) (piece st) (nextPiece st) (score st)
                     (level st) (gameOver st) (speed st) (storedPiece st) c
                     (highScore st)).
Definition setHighScore (n : Z) : update State unit :=
  queue (fun st => mkState (board st) (piece st) (nextPiece st) (score st)
                     (level st) (gameOver st) (speed st) (storedPiece st)
                     (canStore st) n).

Definition createNewPiece (r : Z) : outcome (Piece string) :=
  createNewPieceFrom SHAPES r.

(** [SHAPES.findIndex(s => s.color === piece.color) + 1]. *)
Definition cellId (p : Piece string) : value :=
  Num (findIndex SHAPES (color p) 0 + 1).

Definition getDropPosition (fuel : nat) (p : Piece string) (b : Board)
  : outcome Position :=
  let? dropY := dropLoop fuel p b (py (position p)) in
  Done (mkPosition (px (position p)) dropY).

(** The part [moveDown] and [hardDrop] share word for word, after the piece
    is merged and the lines are cleared: score, high score (the write to the
    browser's storage is left out), level and speed, and the promotion of the
    next piece. *)
Definition afterLock (r1 r2 : Z) (snap : State) (clearedBoard : Board)
  (newScore : Z) : update State unit :=
  setScore newScore ;;
  (if newScore >? highScore snap then setHighScore newScore else ret tt) ;;
  (if newScore >=? level snap * LEVEL_THRESHOLD
   then setLevel (fun prevLevel => prevLevel + 1) ;;
        setSpeed (fun prevSpeed => Z.max (prevSpeed - SPEED_INCREMENT) 100)
   else ret tt) ;;
  match nextPiece snap with
  | Some np =>
      ok <- lift (isValidMove np clearedBoard) ;;
      if negb ok then setGameOver true
      else
        setPiece (Some np) ;;
        fresh <- lift (createNewPiece r1) ;;
        setNextPiece (Some fresh) ;;
        setCanStore true
  | None =>
      newPiece <- lift (createNewPiece r1) ;;
      ok <- lift (isValidMove newPiece clearedBoard) ;;
      if negb ok then setGameOver true
      else
        setPiece (Some newPiece) ;;
        fresh <- lift (createNewPiece r2) ;;
        setNextPiece (Some fresh) ;;
        setCanStore true
  end.

Definition moveDown (r1 r2 : Z) (snap : State) : update State unit :=
  match piece snap with
  | None => ret tt
  | Some p =>
      let newPiece := withY p (py (position p) + 1) in
      valid <- lift (isValidMove newPiece (board snap)) ;;
      if (valid : bool) then setPiece (Some newPiece)
      else
        newBoard <- lift (mergePieceToBoard cellId p (board snap)) ;;
        let '(clearedBoard, linesCleared) := clearLines newBoard in
        setBoard clearedBoard ;;
        let linesClearedScore := linesCleared * linesCleared * 100 in
        let newScore := score snap + linesClearedScore + 10 in
        afterLock r1 r2 snap clearedBoard newScore
  end.

Inductive direction : Type := left | right.

Definition moveSideways (d : direction) (snap : State) : update State unit :=
  match piece snap with
  | None => ret tt
  | Some p =>
      let newPiece :=
        withX p (px (position p) + match d with left => -1 | right => 1 end) in
      valid <- lift (isValidMove newPiece (board snap)) ;;
      if (valid : bool) then setPiece (Some newPiece) else ret tt
  end.

(** The wall kicks, in the order of the source. *)
Definition kicks : list Position :=
  [ mkPosition 1 0; mkPosition (-1) 0; mkPosition 0 (-1);
    mkPosition 1 (-1); mkPosition (-1) (-1) ].

Definition kicked (newPiece : Piece string) (kick : Position) : Piece string :=
  withPosition newPiece
    (mkPosition (px (position newPiece) + px kick)
                (py (position newPiece) + py kick)).

(** [for (const kick of kicks) { ... if (isValidMove(kickedPiece, board))
    { setPiece(kickedPiece); return; } }]. *)
Fixpoint tryKicks (newPiece : Piece string) (b : Board) (ks : list Position)
  : update State unit :=
  match ks with
  | [] => ret tt
  | kick :: rest =>
      let kickedPiece := kicked newPiece kick in
      valid <- lift (isValidMove kickedPiece b) ;;
      if (valid : bool) then setPiece (Some kickedPiece)
      else tryKicks newPiece b rest
  end.

Definition rotate (snap : State) : update State unit :=
  match piece snap with
  | None => ret tt
  | Some p =>
      newShape <- lift (rotateShape (shape p)) ;;
      let newPiece := withShape p newShape in
      valid <- lift (isValidMove newPiece (board snap)) ;;
      if (valid : bool) then setPiece (Some newPiece)
      else tryKicks newPiece (board snap) kicks
  end.

(** [hardDrop]; [fuel] bounds the loop of [getDropPosition]. *)
Definition hardDrop (fuel : nat) (r1 r2 : Z) (snap : State) : update State unit :=
  match piece snap with
  | None => ret tt
  | Some p =>
      dropPosition <- lift (getDropPosition fuel p (board snap)) ;;
      let newPiece := withPosition p dropPosition in
      setPiece (Some newPiece) ;;
      newBoard <- lift (mergePieceToBoard cellId newPiece (board snap)) ;;
      let '(clearedBoard, linesCleared) := clearLines newBoard in
      setBoard clearedBoard ;;
      let linesClearedScore := linesCleared * linesCleared * 100 in
      let newScore :=
        score snap + linesClearedScore + 10
        + (py dropPosition - py (position p)) in
      afterLock r1 r2 snap clearedBoard newScore
  end.

Definition storePiece (r1 : Z) (snap : State) : update State unit :=
  if negb (canStore snap) || isNull (piece snap) then ret tt
  else
    match storedPiece snap with
    | Some sp =>
        x <- lift (spawnX (shape sp)) ;;
        let restoredPiece := withPosition sp (mkPosition x 0) in
        valid <- lift (isValidMove restoredPiece (board snap)) ;;
        if (valid : bool)
        then setStoredPiece (piece snap) ;; setPiece (Some restoredPiece)
        else ret tt
    | None =>
        setStoredPiece (piece snap) ;;
        match nextPiece snap with
        | Some np =>
            setPiece (Some np) ;;
            fresh <- lift (createNewPiece r1) ;;
            setNextPiece (Some fresh)
        | None =>
            fresh <- lift (createNewPiece r1) ;;
            setPiece (Some fresh)
        end
    end ;;
    setCanStore false.

(** The spawning [useEffect]. *)
Definition spawnEffect (r1 r2 : Z) (snap : State) : update State unit :=
  if isNull (piece snap) && negb (gameOver snap) then
    newPiece <- lift (createNewPiece r1) ;;
    ok <- lift (isValidMove newPiece (board snap)) ;;
    if negb ok then setGameOver true
    else
      setPiece (Some newPiece) ;;
      fresh <- lift (createNewPiece r2) ;;
      setNextPiece (Some fresh)
  else ret tt.

Inductive key : Type :=
| ArrowLeft | ArrowRight | ArrowDown | ArrowUp | KeyZ | KeyX | OtherKey.

(** [handleKeyPress]. *)
Definition handleKeyPress (k : key) (fuel : nat) (r1 r2 : Z) (snap : State)
  : update State unit :=
  if gameOver snap then ret tt
  else
    match k with
    | ArrowLeft => moveSideways left snap
    | ArrowRight => moveSideways right snap
    | ArrowDown => moveDown r1 r2 snap
    | ArrowUp => hardDrop fuel r1 r2 snap
    | KeyZ => rotate snap
    | KeyX => storePiece r1 snap
    | OtherKey => ret tt
    end.

(** The gravity interval: it only exists while the game is not over. *)
Definition gravityTick (r1 r2 : Z) (snap : State) : update State unit :=
  if gameOver snap then ret tt else moveDown r1 r2 snap.

(** What the browser and React deliver to the component: a key press, a tick
    of the gravity interval, or a run of the spawning effect, each with the
    random draws (and loop fuel) it may consume. *)
Inductive event : Type :=
| KeyDown (k : key) (fuel : nat) (r1 r2 : Z)
| Tick (r1 r2 : Z)
| Effect (r1 r2 : Z).

(** The state of the next render after one event. *)
Definition dispatch (e : event) (s : State) : State :=
  match e with
  | KeyDown k fuel r1 r2 => run (handleKeyPress k fuel r1 r2) s
  | Tick r1 r2 => run (gravityTick r1 r2) s
  | Effect r1 r2 => run (spawnEffect r1 r2) s
  end.

Fixpoint dispatchAll (es : list event) (s : State) : State :=
  match es with
  | [] => s
  | e :: rest => dispatchAll rest (dispatch e s)
  end.

End Hold.

(** ** The flat build rendered in 3D ([tetris-3d.tsx]) *)

Module Flat3D.
Import Grid.
Open Scope update_scope.
Open Scope string_scope.

Definition INITIAL_SPEED : Z := 500.

Definition SHAPES : list (list Row * string) :=
  [ (shapeI, "#00FFFF"); (shapeO, "#FFFF00"); (shapeT, "#800080");
    (shapeJ, "#0000FF"); (shapeL, "#FFA500"); (shapeS, "#00FF00");
    (shapeZ, "#FF0000") ].

Record State : Type := mkState {
  board : Board;
  piece : option (Piece string);
  nextPiece : option (Piece string);
  score : Z;
  level : Z;
  gameOver : bool;
  speed : Z
}.

Definition initialState : State :=
  mkState emptyBoard None None 0 1 false INITIAL_SPEED.

Definition setBoard (b : Board) : update State unit :=
  queue (fun st => mkState b (piece st) (nextPiece st) (score st) (level st)
                     (gameOver st) (speed st)).
Definition setPiece (p : option (Piece string)) : update State unit :=
  queue (fun st => mkState (board st) p (nextPiece st) (score st) (level st)
                     (gameOver st) (speed st)).
Definition setNextPiece (p : option (Piece string)) : update State unit :=
  queue (fun st => mkState (board st) (piece st) p (score st) (level st)
                     (gameOver st) (speed st)).
Definition setScore (n : Z) : update State unit :=
  queue (fun st => mkState (board st) (piece st) (nextPiece st) n (level st)
                     (gameOver st) (speed st)).
Definition setLevel (f : Z -> Z) : update State unit :=
  queue (fun st => mkState (board st) (piece st) (nextPiece st) (score st)
                     (f (level st)) (gameOver st) (speed st)).
Definition setGameOver (g : bool) : update State unit :=
  queue (fun st => mkState (board st) (piece st) (nextPiece st) (score st)
                     (level st) g (speed st)).
Definition setSpeed (f : Z -> Z) : update State unit :=
  queue (fun st => mkState (board st) (piece st) (nextPiece st) (score st)
                     (level st) (gameOver st) (f (speed st))).

Definition createNewPiece (r : Z) : outcome (Piece string) :=
  createNewPieceFrom SHAPES r.

(** [SHAPES.findIndex(s => s.color === piece.color) + 1]. *)
Definition cellId (p : Piece string) : value :=
  Num (findIndex SHAPES (color p) 0 + 1).

Definition moveDown (r1 r2 : Z) (snap : State) : update State unit :=
  match piece snap with
  | None => ret tt
  | Some p =>
      let newPiece := withY p (py (position p) + 1) in
      valid <- lift (isValidMove newPiece (board snap)) ;;
      if (valid : bool) then setPiece (Some newPiece)
      else
        newBoard <- lift (mergePieceToBoard cellId p (board snap)) ;;
        let '(clearedBoard, linesCleared) := clearLines newBoard in
        setBoard clearedBoard ;;
        let linesClearedScore := linesCleared * linesCleared * 100 in
        let newScore := score snap + linesClearedScore + 10 in
        setScore newScore ;;
        (if newScore >=? level snap * LEVEL_THRESHOLD
         then setLevel (fun prevLevel => prevLevel + 1) ;;
              setSpeed (fun prevSpeed => Z.max (prevSpeed - SPEED_INCREMENT) 100)
         else ret tt) ;;
        match nextPiece snap with
        | Some np =>
            ok <- lift (isValidMove np clearedBoard) ;;
            if negb ok then setGameOver true
            else
              setPiece (Some np) ;;
              fresh <- lift (createNewPiece r1) ;;
              setNextPiece (Some fresh)
        | None =>
            newPiece' <- lift (createNewPiece r1) ;;
            ok <- lift (isValidMove newPiece' clearedBoard) ;;
            if negb ok then setGameOver true
            else
              setPiece (Some newPiece') ;;
              fresh <- lift (createNewPiece r2) ;;
              setNextPiece (Some fresh)
        end
  end.

Definition rotate (snap : State) : update State unit :=
  match piece snap with
  | None => ret tt
  | Some p =>
      newShape <- lift (rotateShape (shape p)) ;;
      let newPiece := withShape p newShape in
      valid <- lift (isValidMove newPiece (board snap)) ;;
      if (valid : bool) then setPiece (Some newPiece) else ret tt
  end.

(** [hardDrop]: the drop row is computed and queued with [setPiece], and then
    [moveDown()] is called.  That [moveDown] is the callback of the same
    render, so it reads the same snapshot [snap] (the piece before the drop)
    and queues its own updates after the one of [hardDrop]. *)
Definition hardDrop (fuel : nat) (r1 r2 : Z) (snap : State) : update State unit :=
  match piece snap with
  | None => ret tt
  | Some p =>
      newY <- lift (dropLoop fuel p (board snap) (py (position p))) ;;
      setPiece (Some (withY p newY)) ;;
      moveDown r1 r2 snap
  end.

(** The spawning [useEffect]. *)
Definition spawnEffect (r1 r2 : Z) (snap : State) : update State unit :=
  if isNull (piece snap) && negb (gameOver snap) then
    newPiece <- lift (createNewPiece r1) ;;
    ok <- lift (isValidMove newPiece (board snap)) ;;
    if negb ok then setGameOver true
    else
      setPiece (Some newPiece) ;;
      fresh <- lift (createNewPiece r2) ;;
      setNextPiece (Some fresh)
  else ret tt.

Inductive direction : Type := left | right.

Definition moveSideways (d : direction) (snap : State) : update State unit :=
  match piece snap with
  | None => ret tt
  | Some p =>
      let newPiece :=
        withX p (px (position p) + match d with left => -1 | right => 1 end) in
      valid <- lift (isValidMove newPiece (board snap)) ;;
      if (valid : bool) then setPiece (Some newPiece) else ret tt
  end.

Inductive key : Type :=
| ArrowLeft | ArrowRight | ArrowDown | ArrowUp | Space | OtherKey.

(** [handleKeyPress]; the space key is the hard drop. *)
Definition handleKeyPress (k : key) (fuel : nat) (r1 r2 : Z) (snap : State)
  : update State unit :=
  if gameOver snap then ret tt
  else
    match k with
    | ArrowLeft => moveSideways left snap
    | ArrowRight => moveSideways right snap
    | ArrowDown => moveDown r1 r2 snap
    | ArrowUp => rotate snap
    | Space => hardDrop fuel r1 r2 snap
    | OtherKey => ret tt
    end.

(** The gravity interval: it only exists while the game is not over. *)
Definition gravityTick (r1 r2 : Z) (snap : State) : update State unit :=
  if gameOver snap then ret tt else moveDown r1 r2 snap.

End Flat3D.

(** ** The volumetric build ([tetris-3d-crazy-3d.tsx]) *)

Module Volumetric.

(** [board[z][y][x]]. *)
Definition Plane : Type := list Row.
Definition Board : Type := list Plane.

Record Position : Type := mkPosition { px : Z; py : Z; pz : Z }.

Record Piece : Type := mkPiece {
  shape : list (list Row);
  position : Position;
  color : string
}.

(** The condition of the [if] inside [isValidMove]; either subscript on
    [undefined] throws. *)
Definition collides (board : Board) (newX newY newZ : Z) : outcome bool :=
  if (newX <? 0) || (newX >=? BOARD_WIDTH) || (newY >=? BOARD_HEIGHT)
     || (newZ <? 0) || (newZ >=? BOARD_DEPTH)
  then Done true
  else if newY >=? 0 then
    match index board newZ with
    | None => TypeError
    | Some plane =>
        match index plane newY with
        | None => TypeError
        | Some r => Done (truthy (cellAt r newX))
        end
    end
  else Done false.

(** The [for (x ...)] loop, from column [x] on. *)
Fixpoint scanRow (board : Board) (pos : Position) (z y : Z) (row : Row) (x : Z)
  : outcome bool :=
  match row with
  | [] => Done true
  | v :: rest =>
      if truthy v then
        let newX := px pos + x in
        let newY := py pos + y in
        let newZ := pz pos + z in
        let? hit := collides board newX newY newZ in
        if hit then Done false else scanRow board pos z y rest (x + 1)
      else scanRow board pos z y rest (x + 1)
  end.

(** The [for (y ...)] loop, from row [y] of the shape plane on. *)
Fixpoint scanRows (board : Board) (pos : Position) (z : Z) (rows : list Row)
  (y : Z) : outcome bool :=
  match rows with
  | [] => Done true
  | row :: rest =>
      let? ok := scanRow board pos z y row 0 in
      if ok then scanRows board pos z rest (y + 1) else Done false
  end.

(** The [for (z ...)] loop, from shape plane [z] on. *)
Fixpoint scanPlanes (board : Board) (pos : Position) (planes : list (list Row))
  (z : Z) : outcome bool :=
  match planes with
  | [] => Done true
  | plane :: rest =>
      let? ok := scanRows board pos z plane 0 in
      if ok then scanPlanes board pos rest (z + 1) else Done false
  end.

Definition isValidMove (piece : Piece) (board : Board) : outcome bool :=
  scanPlanes board (position piece) (shape piece) 0.

(** [board.map(plane => plane.filter(row => ...))]: one counter for all the
    planes. *)
Fixpoint filterPlanes (board : Board) (linesCleared : Z) : Board * Z :=
  match board with
  | [] => ([], linesCleared)
  | plane :: rest =>
      let '(kept, n) := Grid.filterFull plane linesCleared in
      let '(rest', n') := filterPlanes rest n in
      (kept :: rest', n')
  end.

(** [newBoard.some(plane => plane.length < BOARD_HEIGHT)]. *)
Definition someShort (newBoard : Board) : bool :=
  existsb (fun plane => len plane <? BOARD_HEIGHT) newBoard.

(** Rows missing over all the planes; what the outer padding loop counts
    down. *)
Definition missingRows (newBoard : Board) : nat :=
  list_sum (map Grid.missingRows newBoard).
Arguments missingRows : simpl never.

(** [while (newBoard.some(...)) { newBoard.forEach(plane => { while
    (plane.length < BOARD_HEIGHT) plane.unshift(emptyRow) }) }]. *)
Equations? padPlanes (newBoard : Board) : Board
  by wf (missingRows newBoard) lt :=
  padPlanes newBoard with Bool.bool_dec (someShort newBoard) true => {
    | Specif.left _ => padPlanes (map Grid.padTop newBoard)
    | Specif.right _ => newBoard }.
Proof.
  assert (Hpad : forall p, Grid.missingRows (Grid.padTop p) = 0%nat).
  { clear. intro p. funelim (Grid.padTop p).
    - assumption.
    - unfold Grid.missingRows. lia. }
  assert (Hzero : forall b, missingRows (map Grid.padTop b) = 0%nat).
  { induction b as [|p b IH]; [reflexivity |].
    unfold missingRows in *. simpl. rewrite Hpad, IH. reflexivity. }
  rewrite Hzero. clear Hpad Hzero padPlanes.
  unfold someShort in e. apply existsb_exists in e.
  destruct e as [p [Hin Hshort]].
  apply Z.ltb_lt in Hshort.
  induction newBoard as [|q b IH]; [contradiction |].
  unfold missingRows in *. simpl.
  destruct Hin as [-> | Hin].
  - unfold Grid.missingRows at 1. lia.
  - specialize (IH Hin). lia.
Qed.

Definition clearLines (board : Board) : Board * Z :=
  let '(newBoard, linesCleared) := filterPlanes board 0 in
  (padPlanes newBoard, linesCleared).

Definition INITIAL_SPEED : Z := 1000.

(** The catalogue: the flat shapes, each in a single plane. *)
Definition SHAPES : list (list (list Row) * string) :=
  [ ([Grid.shapeI], "#00FFFF"%string); ([Grid.shapeO], "#FFFF00"%string);
    ([Grid.shapeT], "#800080"%string); ([Grid.shapeJ], "#0000FF"%string);
    ([Grid.shapeL], "#FFA500"%string); ([Grid.shapeS], "#00FF00"%string);
    ([Grid.shapeZ], "#FF0000"%string) ].

(** [createNewPiece]; [r] is the random catalogue index.  The column is
    centred on the width of the first row, the depth on the number of rows
    of the first plane ([shape[0].length]). *)
Definition createNewPiece (r : Z) : outcome Piece :=
  match index SHAPES r with
  | None => TypeError
  | Some (s, c) =>
      match index s 0 with
      | None => TypeError
      | Some plane0 =>
          match index plane0 0 with
          | None => TypeError
          | Some row0 =>
              Done (mkPiece s
                      (mkPosition (BOARD_WIDTH / 2 - len row0 / 2) 0
                                  (BOARD_DEPTH / 2 - len plane0 / 2))
                      c)
          end
      end
  end.

(** [SHAPES.findIndex(s => s.color === c)], scanning from index [i]. *)
Fixpoint findIndex (shapes : list (list (list Row) * string)) (c : string)
  (i : Z) : Z :=
  match shapes with
  | [] => -1
  | (_, c') :: rest => if String.eqb c' c then i else findIndex rest c (i + 1)
  end.

Definition cellId (p : Piece) : value :=
  Num (findIndex SHAPES (color p) 0 + 1).

(** [newBoard[z][y][x] = v]: either of the first two subscripts on
    [undefined] throws. *)
Definition writeCell (board : Board) (z y x : Z) (v : value) : outcome Board :=
  match index board z with
  | None => TypeError
  | Some plane =>
      let? plane' := Grid.writeCell plane y x v in
      Done (firstn (Z.to_nat z) board ++ plane' :: skipn (S (Z.to_nat z)) board)
  end.

Fixpoint mergeRow (id : value) (pos : Position) (z y : Z) (row : Row) (x : Z)
  (newBoard : Board) : outcome Board :=
  match row with
  | [] => Done newBoard
  | v :: rest =>
      if truthy v then
        let? nb :=
          writeCell newBoard (pz pos + z) (py pos + y) (px pos + x) id in
        mergeRow id pos z y rest (x + 1) nb
      else mergeRow id pos z y rest (x + 1) newBoard
  end.

Fixpoint mergeRows (id : value) (pos : Position) (z : Z) (rows : list Row)
  (y : Z) (newBoard : Board) : outcome Board :=
  match rows with
  | [] => Done newBoard
  | row :: rest =>
      let? nb := mergeRow id pos z y row 0 newBoard in
      mergeRows id pos z rest (y + 1) nb
  end.

Fixpoint mergePlanes (id : value) (pos : Position) (planes : list (list Row))
  (z : Z) (newBoard : Board) : outcome Board :=
  match planes with
  | [] => Done newBoard
  | plane :: rest =>
      let? nb := mergeRows id pos z plane 0 newBoard in
      mergePlanes id pos rest (z + 1) nb
  end.

Definition mergePieceToBoard (piece : Piece) (board : Board) : outcome Board :=
  mergePlanes (cellId piece) (position piece) (shape piece) 0 board.

Record State : Type := mkState {
  board : Board;
  piece : option Piece;
  nextPiece : option Piece;
  score : Z;
  level : Z;
  gameOver : bool;
  speed : Z
}.

(** [Array.from({ length: BOARD_DEPTH }, () => Array.from({ length:
    BOARD_HEIGHT }, () => Array(BOARD_WIDTH).fill(0)))]. *)
Definition emptyBoard : Board :=
  repeat Grid.emptyBoard (Z.to_nat BOARD_DEPTH).

Definition initialState : State :=
  mkState emptyBoard None None 0 1 false INITIAL_SPEED.

Definition setBoard (b : Board) : update State unit :=
  queue (fun st => mkState b (piece st) (nextPiece st) (score st) (level st)
                     (gameOver st) (speed st)).
Definition setPiece (p : option Piece) : update State unit :=
  queue (fun st => mkState (board st) p (nextPiece st) (score st) (level st)
                     (gameOver st) (speed st)).
Definition setNextPiece (p : option Piece) : update State unit :=
  queue (fun st => mkState (board st) (piece st) p (score st) (level st)
                     (gameOver st) (speed st)).
Definition setScore (n : Z) : update State unit :=
  queue (fun st => mkState (board st) (piece st) (nextPiece st) n (level st)
                     (gameOver st) (speed st)).
Definition setLevel (f : Z -> Z) : update State unit :=
  queue (fun st => mkState (board st) (piece st) (nextPiece st) (score st)
                     (f (level st)) (gameOver st) (speed st)).
Definition setGameOver (g : bool) : update State unit :=
  queue (fun st => mkState (board st) (piece st) (nextPiece st) (score st)
                     (level st) g (speed st)).
Definition setSpeed (f : Z -> Z) : update State unit :=
  queue (fun st => mkState (board st) (piece st) (nextPiece st) (score st)
                     (level st) (gameOver st) (f (speed st))).

Definition withPosition (p : Piece) (pos : Position) : Piece :=
  mkPiece (shape p) pos (color p).

Open Scope update_scope.

Definition moveDown (r1 r2 : Z) (snap : State) : update State unit :=
  match piece snap with
  | None => ret tt
  | Some p =>
      let newPiece :=
        withPosition p
          (mkPosition (px (position p)) (py (position p) + 1)
                      (pz (position p))) in
      valid <- lift (isValidMove newPiece (board snap)) ;;
      if (valid : bool) then setPiece (Some newPiece)
      else
        newBoard <- lift (mergePieceToBoard p (board snap)) ;;
        let '(clearedBoard, linesCleared) := clearLines newBoard in
        setBoard clearedBoard ;;
        let linesClearedScore := linesCleared * linesCleared * 100 in
        let newScore := score snap + linesClearedScore + 10 in
        setScore newScore ;;
        (if newScore >=? level snap * LEVEL_THRESHOLD
         then setLevel (fun prevLevel => prevLevel + 1) ;;
              setSpeed (fun prevSpeed => Z.max (prevSpeed - SPEED_INCREMENT) 100)
         else ret tt) ;;
        match nextPiece snap with
        | Some np =>
            ok <- lift (isValidMove np clearedBoard) ;;
            if negb ok then setGameOver true
            else
              setPiece (Some np) ;;
              fresh <- lift (createNewPiece r1) ;;
              setNextPiece (Some fresh)
        | None =>
            newPiece' <- lift (createNewPiece r1) ;;
            ok <- lift (isValidMove newPiece' clearedBoard) ;;
            if negb ok then setGameOver true
            else
              setPiece (Some newPiece') ;;
              fresh <- lift (createNewPiece r2) ;;
              setNextPiece (Some fresh)
        end
  end.

Inductive direction : Type := left | right.

Definition moveSideways (d : direction) (snap : State) : update State unit :=
  match piece snap with
  | None => ret tt
  | Some p =>
      let newPiece :=
        withPosition p
          (mkPosition
             (px (position p) + match d with left => -1 | right => 1 end)
             (py (position p)) (pz (position p))) in
      valid <- lift (isValidMove newPiece (board snap)) ;;
      if (valid : bool) then setPiece (Some newPiece) else ret tt
  end.

Inductive depthDirection : Type := forward | backward.

Definition moveDepth (d : depthDirection) (snap : State) : update State unit :=
  match piece snap with
  | None => ret tt
  | Some p =>
      let newPiece :=
        withPosition p
          (mkPosition (px (position p)) (py (position p))
             (pz (position p)
              + match d with forward => -1 | backward => 1 end)) in
      valid <- lift (isValidMove newPiece (board snap)) ;;
      if (valid : bool) then setPiece (Some newPiece) else ret tt
  end.

(** The spawning [useEffect]. *)
Definition spawnEffect (r1 r2 : Z) (snap : State) : update State unit :=
  if isNull (piece snap) && negb (gameOver snap) then
    newPiece <- lift (createNewPiece r1) ;;
    ok <- lift (isValidMove newPiece (board snap)) ;;
    if negb ok then setGameOver true
    else
      setPiece (Some newPiece) ;;
      fresh <- lift (createNewPiece r2) ;;
      setNextPiece (Some fresh)
  else ret tt.

End Volumetric.

(** ** Vocabulary of the statements *)

Module Spec.
Import Grid.

(** Sub-cell [(dx, dy)] of a shape is occupied. *)
Definition subCell (s : list Row) (dx dy : Z) : Prop :=
  exists row, index s dy = Some row /\ truthy (cellAt row dx) = true.

(** Board cell [(x, y)] holds a piece. *)
Definition occupied (b : Board) (x y : Z) : Prop :=
  exists row, index b y = Some row /\ truthy (cellAt row x) = true.

(** A board coordinate a sub-cell may not land on: outside the columns, at
    or below the floor, or - from row 0 down only - on an occupied cell. *)
Definition blocked (b : Board) (x y : Z) : Prop :=
  x < 0 \/ BOARD_WIDTH <= x \/ BOARD_HEIGHT <= y \/ (0 <= y /\ occupied b x y).

(** The same three notions for the volumetric build. *)
Definition subCell3 (s : list (list Row)) (dx dy dz : Z) : Prop :=
  exists plane, index s dz = Some plane /\ subCell plane dx dy.

Definition occupied3 (b : Volumetric.Board) (x y z : Z) : Prop :=
  exists plane, index b z = Some plane /\ occupied plane x y.

Definition blocked3 (b : Volumetric.Board) (x y z : Z) : Prop :=
  x < 0 \/ BOARD_WIDTH <= x \/ BOARD_HEIGHT <= y \/ z < 0 \/ BOARD_DEPTH <= z
  \/ (0 <= y /\ occupied3 b x y z).

(** A board of the volumetric build with all its planes and rows. *)
Definition wellFormed3 (b : Volumetric.Board) : Prop :=
  len b = BOARD_DEPTH /\ Forall (fun plane => len plane = BOARD_HEIGHT) b.

(** A row in which every cell is non-zero. *)
Definition fullRow (row : Row) : Prop := Forall (fun c => c <> Num 0) row.

(** The rows that are not full, in their order, and the number of full
    rows. *)
Definition keptRows (b : Board) : Board :=
  filter (fun row => negb (isFull row)) b.

Definition fullCount (b : Board) : Z := len (filter isFull b).

(** [n] times [f]. *)
Fixpoint iterate {A : Type} (n : nat) (f : A -> A) (a : A) : A :=
  match n with
  | O => a
  | S m => iterate m f (f a)
  end.

(** In the canvas build, event [e] makes the active piece lock in state [s]:
    a soft drop (key or gravity) of a piece that cannot go down, or a hard
    drop, while the game runs. *)
Definition locksAt (e : Hold.event) (s : Hold.State) : Prop :=
  Hold.gameOver s = false /\
  exists p, Hold.piece s = Some p /\
    match e with
    | Hold.Tick _ _ | Hold.KeyDown Hold.ArrowDown _ _ _ =>
        isValidMove (withY p (py (position p) + 1)) (Hold.board s) = Done false
    | Hold.KeyDown Hold.ArrowUp _ _ _ => True
    | _ => False
    end.

(** No event of the sequence locks the piece in the state it arrives in. *)
Fixpoint noLock (es : list Hold.event) (s : Hold.State) : Prop :=
  match es with
  | [] => True
  | e :: rest => ~ locksAt e s /\ noLock rest (Hold.dispatch e s)
  end.

(** A random catalogue index as [Math.floor(Math.random() * 7)] gives it. *)
Definition drawn (r : Z) : Prop := 0 <= r < 7.

(** A piece whose shape has a first row, as every catalogue shape and every
    rotation of one has. *)
Definition hasFirstRow {C : Type} (p : Piece C) : Prop :=
  index (shape p) 0 <> None.

(** What a lock does to level and interval, given the score it produces. *)
Definition levelStep (level speed newScore level' speed' : Z) : Prop :=
  (newScore >= level * LEVEL_THRESHOLD ->
     level' = level + 1
     /\ speed' = Z.max (speed - SPEED_INCREMENT) 100
     /\ 100 <= speed'
     /\ (100 + SPEED_INCREMENT <= speed -> speed' = speed - SPEED_INCREMENT)
     /\ (100 < speed -> speed' < speed)
     /\ (speed <= 100 -> speed' = 100))
  /\ (newScore < level * LEVEL_THRESHOLD -> level' = level /\ speed' = speed).

(** A state with its active piece replaced. *)
Definition domSetPiece (s : Dom.State) (p : Piece Z) : Dom.State :=
  Dom.mkState (Dom.board s) (Some p) (Dom.nextPiece s) (Dom.score s)
    (Dom.level s) (Dom.gameOver s) (Dom.speed s).

Definition holdSetPiece (s : Hold.State) (p : Piece string) : Hold.State :=
  Hold.mkState (Hold.board s) (Some p) (Hold.nextPiece s) (Hold.score s)
    (Hold.level s) (Hold.gameOver s) (Hold.speed s) (Hold.storedPiece s)
    (Hold.canStore s) (Hold.highScore s).

(** Two states of the canvas build that agree on everything but the score and
    what follows from it (high score, level, interval). *)
Definition sameButScore (a b : Hold.State) : Prop :=
  Hold.board a = Hold.board b
  /\ Hold.piece a = Hold.piece b
  /\ Hold.nextPiece a = Hold.nextPiece b
  /\ Hold.gameOver a = Hold.gameOver b
  /\ Hold.storedPiece a = Hold.storedPiece b
  /\ Hold.canStore a = Hold.canStore b.

(** [y'] is the row a piece at row [y] falls to: every row down to [y'] is
    valid and the next one is not. *)
Definition dropRow {C : Type} (p : Piece C) (b : Board) (y' : Z) : Prop :=
  py (position p) <= y'
  /\ (forall t, py (position p) < t <= y' ->
        isValidMove (withY p t) b = Done true)
  /\ isValidMove (withY p (y' + 1)) b = Done false.

(** A shape with a first row that has a first slot, as the catalogue shapes
    and their rotations are. *)
Definition goodShape (s : list Row) : Prop :=
  exists v vs rest, s = (v :: vs) :: rest.

Definition goodPiece (o : option (Piece string)) : Prop :=
  forall p, o = Some p -> goodShape (shape p).

(** What every state of the canvas build satisfies: the board has all its
    rows and the pieces have good shapes. *)
Definition invariant (s : Hold.State) : Prop :=
  len (Hold.board s) = BOARD_HEIGHT
  /\ goodPiece (Hold.piece s)
  /\ goodPiece (Hold.nextPiece s)
  /\ goodPiece (Hold.storedPiece s).

(** The states of the canvas build: the state the component mounts with and
    what events make of it. *)
Inductive reachable : Hold.State -> Prop :=
| reach_mount (stored : Z) : reachable (Hold.initialState stored)
| reach_event (e : Hold.event) (s : Hold.State) :
    reachable s -> reachable (Hold.dispatch e s).

(** What the specification asks of a line clear: the kept rows under as many
    empty rows as were removed. *)
Definition cleared (b : Board) : Board :=
  repeat emptyRow (Z.to_nat (fullCount b)) ++ keptRows b.

(** What an event of the canvas build does to the books when it locks a
    piece for a score of [newScore]: the score, the high score, and level
    and interval, which move together. *)
Definition lockTally (s s' : Hold.State) (newScore : Z) : Prop :=
  Hold.score s' = newScore
  /\ Hold.highScore s' = Z.max (Hold.highScore s) newScore
  /\ Hold.level s'
     = (if newScore >=? Hold.level s * LEVEL_THRESHOLD
        then Hold.level s + 1 else Hold.level s)
  /\ Hold.speed s'
     = (if newScore >=? Hold.level s * LEVEL_THRESHOLD
        then Z.max (Hold.speed s - SPEED_INCREMENT) 100 else Hold.speed s).

(** The books are untouched. *)
Definition sameTally (s s' : Hold.State) : Prop :=
  Hold.score s' = Hold.score s
  /\ Hold.highScore s' = Hold.highScore s
  /\ Hold.level s' = Hold.level s
  /\ Hold.speed s' = Hold.speed s.


(** One of the eight values a cell of a board takes: 0 for empty, or the
    catalogue index plus one of the piece locked there. *)
Definition cellValue (v : value) : Prop := exists n, v = Num n /\ 0 <= n <= 7.

(** A row, and a board, of the canvas build with all its slots. *)
Definition wellFormedRow (row : Row) : Prop :=
  len row = BOARD_WIDTH /\ Forall cellValue row.

Definition wellFormed (b : Board) : Prop :=
  len b = BOARD_HEIGHT /\ Forall wellFormedRow b.

(** Every occupied sub-cell of the piece is over a column of the board. *)
Definition inColumns {C : Type} (p : Piece C) : Prop :=
  forall dx dy, subCell (shape p) dx dy ->
    0 <= px (position p) + dx < BOARD_WIDTH.

(** A piece as [createNewPiece] of the canvas build makes it. *)
Definition spawned (p : Piece string) : Prop :=
  exists r, Hold.createNewPiece r = Done p.

(** The board is well formed, the active piece is over the columns, and the
    next piece is fresh from the catalogue. *)
Definition sound (s : Hold.State) : Prop :=
  wellFormed (Hold.board s)
  /\ (forall p, Hold.piece s = Some p -> inColumns p)
  /\ (forall p, Hold.nextPiece s = Some p -> spawned p).

(** What slot [(x, y)] of a board, or of a shape, reads. *)
Definition cellOf (rows : list Row) (x y : Z) : value :=
  match index rows y with
  | Some row => cellAt row x
  | None => Undefined
  end.

(** A board with all its rows, each with all its slots. *)
Definition fullSize (b : Board) : Prop :=
  len b = BOARD_HEIGHT /\ Forall (fun row => len row = BOARD_WIDTH) b.

(** A shape of [h] rows of [w] slots each. *)
Definition rectangular (s : list Row) (h w : Z) : Prop :=
  len s = h /\ Forall (fun row => len row = w) s.

(** The draws of an event of the DOM build are catalogue indices. *)
Definition domDrawn (e : Dom.event) : Prop :=
  match e with
  | Dom.KeyDown _ r1 r2 | Dom.Tick r1 r2 | Dom.Effect r1 r2 =>
      drawn r1 /\ drawn r2
  end.

(** A shape of at most four rows whose first row has at most four slots, as
    the catalogue shapes and their rotations are. *)
Definition smallShape (s : list Row) : Prop :=
  len s <= 4 /\ forall first, index s 0 = Some first -> len first <= 4.

Definition smallPiece (o : option (Piece string)) : Prop :=
  forall p, o = Some p -> smallShape (shape p).

(** The board has all its rows and none of them is full, and the pieces are
    small. *)
Definition tidy (s : Hold.State) : Prop :=
  len (Hold.board s) = BOARD_HEIGHT
  /\ Forall (fun row => ~ fullRow row) (Hold.board s)
  /\ smallPiece (Hold.piece s)
  /\ smallPiece (Hold.nextPiece s)
  /\ smallPiece (Hold.storedPiece s).

(** Every occupied sub-cell of the piece is over a cell of the board. *)
Definition inside {C : Type} (p : Piece C) : Prop :=
  forall dx dy, subCell (shape p) dx dy ->
    0 <= px (position p) + dx < BOARD_WIDTH
    /\ 0 <= py (position p) + dy < BOARD_HEIGHT.

(** What keeps the handlers of the DOM build from throwing: the board has
    its full size, the active piece has a first row and lies inside the
    board, not above it, the next piece is a catalogue piece at its spawn
    position, and an active piece has a next piece behind it. *)
Definition domSafe (s : Dom.State) : Prop :=
  fullSize (Dom.board s)
  /\ (forall p, Dom.piece s = Some p ->
        goodShape (shape p) /\ 0 <= py (position p) /\ inside p)
  /\ (forall p, Dom.nextPiece s = Some p ->
        exists r, Dom.createNewPiece r = Done p)
  /\ (Dom.piece s <> None -> Dom.nextPiece s <> None).

End Spec.

(** ** Concrete boards and states used in the examples *)

Module Scenario.
Import Grid.

(** The pieces as [createNewPiece] makes them. *)
Definition domI : Piece Z := mkPiece shapeI (mkPosition 3 0) 1.
Definition domO : Piece Z := mkPiece shapeO (mkPosition 4 0) 2.
Definition holdI : Piece string :=
  mkPiece shapeI (mkPosition 3 0) "#00FFFF"%string.
Definition holdO : Piece string :=
  mkPiece shapeO (mkPosition 4 0) "#FFFF00"%string.

(** A row with columns 4 and 5 taken by O pieces. *)
Definition towerRow : Row :=
  [Num 0; Num 0; Num 0; Num 0; Num 2; Num 2; Num 0; Num 0; Num 0; Num 0].

(** Nine O pieces stacked in columns 4 and 5: rows 2 to 19 are taken, rows 0
    and 1 are free. *)
Definition towerBoard : Board := repeat emptyRow 2 ++ repeat towerRow 18.

(** The tenth O piece sits on top of the tower, in rows 0 and 1, and the
    next piece is the I piece, whose spawn cells cover columns 3 to 6 of
    row 0. *)
Definition domTower : Dom.State :=
  Dom.mkState towerBoard (Some domO) (Some domI) 90 1 false 500.

Definition holdTower : Hold.State :=
  Hold.mkState towerBoard (Some holdO) (Some holdI) 90 1 false 500
    None true 0.

(** A game of the DOM build played with I pieces only.  A key press, and
    gravity ticks until the active piece locks (the score changes). *)
Definition press (k : Dom.key) (s : Dom.State) : Dom.State :=
  run (Dom.handleKeyPress k 0 0) s.

Fixpoint settle (ticks : nat) (s : Dom.State) : Dom.State :=
  match ticks with
  | O => s
  | S ticks' =>
      let s' := run (Dom.gravityTick 0 0) s in
      if Dom.score s' =? Dom.score s then settle ticks' s' else s'
  end.

(** The active piece is turned or not, moved left and right, and left to
    fall until it locks. *)
Definition steer (turn : bool) (lefts rights : nat) (s : Dom.State)
  : Dom.State :=
  Spec.iterate rights (press Dom.ArrowRight)
    (Spec.iterate lefts (press Dom.ArrowLeft)
       (if turn then press Dom.ArrowUp s else s)).

Definition place (turn : bool) (lefts rights : nat) (s : Dom.State)
  : Dom.State :=
  settle 25 (steer turn lefts rights s).

(** Two flat I pieces fill columns 0 to 7 of a row; four such rows and an
    upright I piece in column 8 leave column 9 open over four rows; an
    upright I piece in column 9 then clears four lines. *)
Definition rowPair (s : Dom.State) : Dom.State :=
  place false 0 1 (place false 3 0 s).

Definition fourRows (s : Dom.State) : Dom.State :=
  place true 0 5 (Spec.iterate 4 rowPair s).

Definition tetrisCycle (s : Dom.State) : Dom.State :=
  place true 0 6 (fourRows s).

(** Five such cycles, the four rows of a sixth, and the last I piece turned,
    moved to column 9 and fallen sixteen rows, to the floor. *)
Definition sixthTetrisPlay : Dom.State :=
  Spec.iterate 16 (run (Dom.gravityTick 0 0))
    (steer true 0 6
       (fourRows
          (Spec.iterate 5 tetrisCycle
             (run (Dom.spawnEffect 0 0) Dom.initialState)))).

(** The state that play ends in: level 9, the interval at its floor of 100
    after eight level-ups, and the upright I piece about to complete four
    rows. *)
Definition nineFull : Row :=
  [Num 1; Num 1; Num 1; Num 1; Num 1; Num 1; Num 1; Num 1; Num 1; Num 0].

Definition uprightDomI : Piece Z :=
  mkPiece [[Num 1]; [Num 1]; [Num 1]; [Num 1]] (mkPosition 9 16) 1.

Definition domSixthTetris : Dom.State :=
  Dom.mkState (repeat emptyRow 16 ++ repeat nineFull 4)
    (Some uprightDomI) (Some domI) 8590 9 false 100.

(** Right after the first spawn of an I piece, with any next piece. *)
Definition domSpawned (next : option (Piece Z)) : Dom.State :=
  Dom.mkState emptyBoard (Some domI) next 0 1 false Dom.INITIAL_SPEED.

Definition holdSpawned : Hold.State :=
  Hold.mkState emptyBoard (Some holdI) (Some holdO) 0 1 false
    Hold.INITIAL_SPEED None true 0.

Definition flatSpawned : Flat3D.State :=
  Flat3D.mkState emptyBoard (Some holdI) (Some holdO) 0 1 false
    Flat3D.INITIAL_SPEED.

(** The empty board with the I piece locked in columns 3 to 6 of row 19. *)
Definition lockedRow (id : value) : Row :=
  [Num 0; Num 0; Num 0; id; id; id; id; Num 0; Num 0; Num 0].

Definition boardWithI (id : value) : Board :=
  repeat emptyRow 19 ++ [lockedRow id].

(** The canvas build with the I piece lying on the floor of the empty
    board. *)
Definition holdAtBottom : Hold.State :=
  Hold.mkState emptyBoard (Some (withY holdI 19)) (Some holdO) 0 1 false
    Hold.INITIAL_SPEED None true 0.

(** The same after the O piece was put on hold. *)
Definition holdAtBottomStored : Hold.State :=
  Hold.mkState emptyBoard (Some (withY holdI 19)) (Some holdO) 0 1 false
    Hold.INITIAL_SPEED (Some holdO) false 0.

(** The I piece upright in column 7 of the empty board: turned, it would
    reach column 10. *)
Definition uprightI : Piece string :=
  mkPiece [[Num 1]; [Num 1]; [Num 1]; [Num 1]] (mkPosition 7 5)
    "#00FFFF"%string.

Definition holdUpright : Hold.State :=
  Hold.mkState emptyBoard (Some uprightI) (Some holdO) 0 1 false
    Hold.INITIAL_SPEED None true 0.

Definition domUpright : Dom.State :=
  Dom.mkState emptyBoard
    (Some (mkPiece [[Num 1]; [Num 1]; [Num 1]; [Num 1]] (mkPosition 7 5) 1))
    (Some domO) 0 1 false Dom.INITIAL_SPEED.

(** The tower up to the top row, an O piece active beside it, and the I
    piece held: at its spawn position it would overlap the tower. *)
Definition fullTower : Board := repeat towerRow 20.

Definition holdSwapBlocked : Hold.State :=
  Hold.mkState fullTower
    (Some (mkPiece shapeO (mkPosition 0 0) "#FFFF00"%string)) (Some holdO)
    190 1 false Hold.INITIAL_SPEED (Some holdI) true 0.

(** The empty board with its bottom row full. *)
Definition fullBottom : Board := repeat emptyRow 19 ++ [repeat (Num 3) 10].

(** The volumetric build: the empty volume, one with a full row, and the I
    piece as it is spawned. *)
Definition emptyVolume : Volumetric.Board := repeat emptyBoard 10.

Definition volumeWithFullRow : Volumetric.Board :=
  fullBottom :: repeat emptyBoard 9.

Definition volumeI : Volumetric.Piece :=
  Volumetric.mkPiece [shapeI] (Volumetric.mkPosition 3 0 5) "#00FFFF"%string.

(** A game of the canvas build that ends with a piece above the board.  A
    key press with fuel for the hard drop's loop and [r] for the draws. *)
Definition holdKey (k : Hold.key) (r : Z) : Hold.event :=
  Hold.KeyDown k 30 r r.

(** An O piece dropped in columns 2 and 3 and one dropped in columns 4 and 5,
    the pieces drawn at the two locks being those of index [r]. *)
Definition stackPair (r : Z) : list Hold.event :=
  [ holdKey Hold.ArrowLeft r; holdKey Hold.ArrowLeft r; holdKey Hold.ArrowUp r;
    holdKey Hold.ArrowUp r ].

(** Sixteen O pieces make two stacks up to row 4; an I piece laid across
    them fills columns 2 to 5 of row 3; the next I piece is turned where it
    spawns: upright it hits row 3, one column to the right or to the left
    too, and the kick one row up is the first that fits. *)
Definition kickPlay : list Hold.event :=
  Hold.Effect 1 1
  :: List.concat (repeat (stackPair 1) 7)
  ++ stackPair 0
  ++ [ holdKey Hold.ArrowLeft 1; holdKey Hold.ArrowUp 1;
       holdKey Hold.KeyZ 1 ].

(** The state that play ends in: the stacks in columns 2 to 5 from row 3
    down, and the I piece upright in column 3 with its first cell in row
    -1. *)
Definition stackRow (id : Z) : Row :=
  [Num 0; Num 0; Num id; Num id; Num id; Num id; Num 0; Num 0; Num 0; Num 0].

Definition kickedI : Piece string :=
  mkPiece [[Num 1]; [Num 1]; [Num 1]; [Num 1]] (mkPosition 3 (-1))
    "#00FFFF"%string.

Definition holdKicked : Hold.State :=
  Hold.mkState (repeat emptyRow 3 ++ [stackRow 1] ++ repeat (stackRow 2) 16)
    (Some kickedI) (Some holdO) 349 1 false Hold.INITIAL_SPEED None true 349.

End Scenario.

(** * Properties *)

(** ** Array subscripts *)

Section Subscripts.
Context {A : Type}.

Lemma index_neg (l : list A) (i : Z) : i < 0 -> index l i = None.
Proof.
  intro H. unfold index. destruct (Z.ltb_spec i 0); [reflexivity | lia].
Qed.

Lemma index_head (a : A) (l : list A) : index (a :: l) 0 = Some a.
Proof. reflexivity. Qed.

Lemma index_tail (a : A) (l : list A) (i : Z) :
  0 < i -> index (a :: l) i = index l (i - 1).
Proof.
  intro H. unfold index.
  destruct (Z.ltb_spec i 0); [lia |].
  destruct (Z.ltb_spec (i - 1) 0); [lia |].
  replace (Z.to_nat i) with (S (Z.to_nat (i - 1))) by lia.
  reflexivity.
Qed.

Lemma index_in_range (l : list A) (i : Z) :
  0 <= i < len l -> exists a, index l i = Some a.
Proof.
  intros [H0 H1]. unfold index, len in *.
  destruct (Z.ltb_spec i 0); [lia |].
  destruct (nth_error l (Z.to_nat i)) eqn:E; [eauto |].
  apply nth_error_None in E. lia.
Qed.

Lemma index_some_range (l : list A) (i : Z) (a : A) :
  index l i = Some a -> 0 <= i < len l.
Proof.
  unfold index, len. destruct (Z.ltb_spec i 0); [discriminate |].
  intro E. assert (Hn : nth_error l (Z.to_nat i) <> None) by congruence.
  apply nth_error_Some in Hn. lia.
Qed.

End Subscripts.

Lemma cellAt_head (v : value) (row : Row) : cellAt (v :: row) 0 = v.
Proof. reflexivity. Qed.

Lemma cellAt_tail (v : value) (row : Row) (i : Z) :
  0 < i -> cellAt (v :: row) i = cellAt row (i - 1).
Proof. intro H. unfold cellAt. rewrite index_tail by assumption. reflexivity. Qed.

Lemma cellAt_neg (row : Row) (i : Z) : i < 0 -> cellAt row i = Undefined.
Proof. intro H. unfold cellAt. rewrite index_neg by assumption. reflexivity. Qed.

Lemma truthy_cellAt_nonneg (row : Row) (i : Z) :
  truthy (cellAt row i) = true -> 0 <= i.
Proof.
  intro H. destruct (Z.lt_ge_cases i 0) as [Hn | Hn]; [| assumption].
  rewrite cellAt_neg in H by assumption. discriminate.
Qed.

(** ** [isValidMove] (claim C1) *)

Module ValidMove.
Import Grid Spec.

(** With all its rows present, the board never makes the check throw, and
    the check says whether the coordinate is blocked. *)
Lemma collides_blocked (b : Board) (x y : Z) :
  len b = BOARD_HEIGHT ->
  exists hit, collides b x y = Done hit /\ (hit = true <-> blocked b x y).
Proof.
  intro Hlen. unfold collides, blocked.
  destruct (Z.ltb_spec x 0) as [Hx0 | Hx0]; simpl.
  { exists true. split; [reflexivity | split; [intros _; left; lia | reflexivity]]. }
  destruct (Z.geb_spec x BOARD_WIDTH) as [Hxw | Hxw]; simpl.
  { exists true. split; [reflexivity |].
    split; [intros _; right; left; lia | reflexivity]. }
  destruct (Z.geb_spec y BOARD_HEIGHT) as [Hyh | Hyh]; simpl.
  { exists true. split; [reflexivity |].
    split; [intros _; right; right; left; lia | reflexivity]. }
  destruct (Z.geb_spec y 0) as [Hy0 | Hy0].
  - destruct (index_in_range b y) as [r Hr]; [lia |].
    rewrite Hr. exists (truthy (cellAt r x)). split; [reflexivity |].
    unfold occupied. split.
    + intro Ht. right; right; right. split; [lia |]. exists r. auto.
    + intros [H | [H | [H | [_ [r' [Hr' Ht]]]]]]; try lia.
      congruence.
  - exists false. split; [reflexivity |]. split; [discriminate |].
    intros [H | [H | [H | [H _]]]]; lia.
Qed.

(** The inner loop: it returns [false] exactly when a truthy slot of the
    remaining row lands on a blocked coordinate. *)
Lemma scanRow_blocked (b : Board) (pos : Position) (y : Z) :
  len b = BOARD_HEIGHT ->
  forall (row : Row) (x : Z),
  exists ok, scanRow b pos y row x = Done ok /\
    (ok = false <->
     exists k, truthy (cellAt row k) = true /\
               blocked b (px pos + (x + k)) (py pos + y)).
Proof.
  intro Hlen. induction row as [|v rest IH]; intro x; simpl.
  - exists true. split; [reflexivity |]. split; [discriminate |].
    intros [k [Hk _]]. unfold cellAt, index in Hk.
    destruct (k <? 0); [discriminate |].
    destruct (Z.to_nat k); discriminate.
  - destruct (IH (x + 1)) as [okr [Er Hr]].
    assert (Hshift : (exists k, truthy (cellAt (v :: rest) k) = true /\
                        blocked b (px pos + (x + k)) (py pos + y)) <->
                     (truthy v = true /\ blocked b (px pos + x) (py pos + y)) \/
                     (exists k, truthy (cellAt rest k) = true /\
                        blocked b (px pos + (x + 1 + k)) (py pos + y))).
    { split.
      - intros [k [Hk Hb]].
        pose proof (truthy_cellAt_nonneg _ _ Hk) as Hk0.
        destruct (Z.eq_dec k 0) as [-> | Hne].
        + left. rewrite cellAt_head in Hk. rewrite Z.add_0_r in Hb. auto.
        + right. exists (k - 1). rewrite cellAt_tail in Hk by lia.
          split; [assumption |].
          replace (x + 1 + (k - 1)) with (x + k) by lia. assumption.
      - intros [[Hv Hb] | [k [Hk Hb]]].
        + exists 0. rewrite cellAt_head, Z.add_0_r. auto.
        + pose proof (truthy_cellAt_nonneg _ _ Hk) as Hk0.
          exists (k + 1). rewrite cellAt_tail by lia.
          replace (k + 1 - 1) with k by lia.
          replace (x + (k + 1)) with (x + 1 + k) by lia. auto. }
    destruct (truthy v) eqn:Hv.
    + destruct (collides_blocked b (px pos + x) (py pos + y) Hlen)
        as [hit [Eh Hh]].
      rewrite Eh. simpl. destruct hit.
      * exists false. split; [reflexivity |]. rewrite Hshift.
        split; [intros _; left; split; [reflexivity | apply Hh; reflexivity]
               | reflexivity].
      * exists okr. split; [assumption |]. rewrite Hshift, Hr.
        split; [auto |]. intros [[_ Hb] | H]; [| assumption].
        apply Hh in Hb. discriminate.
    + exists okr. split; [assumption |]. rewrite Hshift, Hr.
      split; [auto |]. intros [[Hf _] | H]; [discriminate | assumption].
Qed.

(** The outer loop, over the remaining shape rows. *)
Lemma scanRows_blocked (b : Board) (pos : Position) :
  len b = BOARD_HEIGHT ->
  forall (rows : list Row) (y : Z),
  exists ok, scanRows b pos rows y = Done ok /\
    (ok = false <->
     exists dx dy, subCell rows dx dy /\
                   blocked b (px pos + dx) (py pos + (y + dy))).
Proof.
  intro Hlen. induction rows as [|row rest IH]; intro y; simpl.
  - exists true. split; [reflexivity |]. split; [discriminate |].
    intros [dx [dy [[r [Hr _]] _]]]. unfold index in Hr.
    destruct (dy <? 0); [discriminate |].
    destruct (Z.to_nat dy); discriminate.
  - destruct (scanRow_blocked b pos y Hlen row 0) as [ok1 [E1 H1]].
    destruct (IH (y + 1)) as [okr [Er Hr]].
    rewrite E1. simpl.
    assert (Hshift : (exists dx dy, subCell (row :: rest) dx dy /\
                        blocked b (px pos + dx) (py pos + (y + dy))) <->
                     (exists k, truthy (cellAt row k) = true /\
                        blocked b (px pos + (0 + k)) (py pos + y)) \/
                     (exists dx dy, subCell rest dx dy /\
                        blocked b (px pos + dx) (py pos + (y + 1 + dy)))).
    { split.
      - intros [dx [dy [[r [Hr' Ht]] Hb]]].
        pose proof (index_some_range _ _ _ Hr') as Hdy.
        destruct (Z.eq_dec dy 0) as [-> | Hne].
        + left. rewrite index_head in Hr'. injection Hr' as <-.
          exists dx. rewrite Z.add_0_r in Hb. auto.
        + right. exists dx, (dy - 1). rewrite index_tail in Hr' by lia.
          split; [exists r; auto |].
          replace (y + 1 + (dy - 1)) with (y + dy) by lia. assumption.
      - intros [[k [Hk Hb]] | [dx [dy [[r [Hr' Ht]] Hb]]]].
        + exists k, 0. split; [exists row; rewrite index_head; auto |].
          rewrite Z.add_0_r. assumption.
        + pose proof (index_some_range _ _ _ Hr') as Hdy.
          exists dx, (dy + 1). split.
          * exists r. rewrite index_tail by lia.
            replace (dy + 1 - 1) with dy by lia. auto.
          * replace (y + (dy + 1)) with (y + 1 + dy) by lia. assumption. }
    destruct ok1.
    + exists okr. split; [assumption |]. rewrite Hshift, Hr.
      split; [auto |]. intros [H | H]; [| assumption].
      apply H1 in H. discriminate.
    + exists false. split; [reflexivity |]. rewrite Hshift.
      split; [intros _; left; apply H1; reflexivity | reflexivity].
Qed.

End ValidMove.

Module ValidMove3.
Import Spec.
Import Volumetric.

Lemma collides3_blocked (b : Board) (x y z : Z) :
  wellFormed3 b ->
  exists hit, collides b x y z = Done hit /\ (hit = true <-> blocked3 b x y z).
Proof.
  intros [Hdepth Hplanes]. unfold collides, blocked3.
  destruct (Z.ltb_spec x 0) as [Hx0 | Hx0]; simpl.
  { exists true. split; [reflexivity |].
    split; [intros _; left; lia | reflexivity]. }
  destruct (Z.geb_spec x BOARD_WIDTH) as [Hxw | Hxw]; simpl.
  { exists true. split; [reflexivity |].
    split; [intros _; right; left; lia | reflexivity]. }
  destruct (Z.geb_spec y BOARD_HEIGHT) as [Hyh | Hyh]; simpl.
  { exists true. split; [reflexivity |].
    split; [intros _; right; right; left; lia | reflexivity]. }
  destruct (Z.ltb_spec z 0) as [Hz0 | Hz0]; simpl.
  { exists true. split; [reflexivity |].
    split; [intros _; do 3 right; left; lia | reflexivity]. }
  destruct (Z.geb_spec z BOARD_DEPTH) as [Hzd | Hzd]; simpl.
  { exists true. split; [reflexivity |].
    split; [intros _; do 4 right; left; lia | reflexivity]. }
  destruct (Z.geb_spec y 0) as [Hy0 | Hy0].
  - destruct (index_in_range b z) as [plane Hp]; [lia |].
    rewrite Hp.
    assert (Hin : In plane b).
    { unfold index in Hp. destruct (z <? 0); [discriminate |].
      eapply nth_error_In; eassumption. }
    rewrite Forall_forall in Hplanes. specialize (Hplanes _ Hin).
    destruct (index_in_range plane y) as [r Hr]; [lia |].
    rewrite Hr. exists (truthy (cellAt r x)). split; [reflexivity |].
    unfold occupied3, occupied. split.
    + intro Ht. do 5 right. split; [lia |]. exists plane. split; [assumption |].
      exists r. auto.
    + intros [H | [H | [H | [H | [H | [_ [p' [Hp' [r' [Hr' Ht]]]]]]]]]];
        try lia.
      congruence.
  - exists false. split; [reflexivity |]. split; [discriminate |].
    intros [H | [H | [H | [H | [H | [H _]]]]]]; lia.
Qed.

Lemma scanRow3_blocked (b : Board) (pos : Position) (z y : Z) :
  wellFormed3 b ->
  forall (row : Row) (x : Z),
  exists ok, scanRow b pos z y row x = Done ok /\
    (ok = false <->
     exists k, truthy (cellAt row k) = true /\
               blocked3 b (px pos + (x + k)) (py pos + y) (pz pos + z)).
Proof.
  intro Hwf. induction row as [|v rest IH]; intro x; simpl.
  - exists true. split; [reflexivity |]. split; [discriminate |].
    intros [k [Hk _]]. unfold cellAt, index in Hk.
    destruct (k <? 0); [discriminate |].
    destruct (Z.to_nat k); discriminate.
  - destruct (IH (x + 1)) as [okr [Er Hr]].
    assert (Hshift :
      (exists k, truthy (cellAt (v :: rest) k) = true /\
         blocked3 b (px pos + (x + k)) (py pos + y) (pz pos + z)) <->
      (truthy v = true /\
         blocked3 b (px pos + x) (py pos + y) (pz pos + z)) \/
      (exists k, truthy (cellAt rest k) = true /\
         blocked3 b (px pos + (x + 1 + k)) (py pos + y) (pz pos + z))).
    { split.
      - intros [k [Hk Hb]].
        pose proof (truthy_cellAt_nonneg _ _ Hk) as Hk0.
        destruct (Z.eq_dec k 0) as [-> | Hne].
        + left. rewrite cellAt_head in Hk. rewrite Z.add_0_r in Hb. auto.
        + right. exists (k - 1). rewrite cellAt_tail in Hk by lia.
          split; [assumption |].
          replace (x + 1 + (k - 1)) with (x + k) by lia. assumption.
      - intros [[Hv Hb] | [k [Hk Hb]]].
        + exists 0. rewrite cellAt_head, Z.add_0_r. auto.
        + pose proof (truthy_cellAt_nonneg _ _ Hk) as Hk0.
          exists (k + 1). rewrite cellAt_tail by lia.
          replace (k + 1 - 1) with k by lia.
          replace (x + (k + 1)) with (x + 1 + k) by lia. auto. }
    destruct (truthy v) eqn:Hv.
    + destruct (collides3_blocked b (px pos + x) (py pos + y) (pz pos + z) Hwf)
        as [hit [Eh Hh]].
      rewrite Eh. simpl. destruct hit.
      * exists false. split; [reflexivity |]. rewrite Hshift.
        split; [intros _; left; split; [reflexivity | apply Hh; reflexivity]
               | reflexivity].
      * exists okr. split; [assumption |]. rewrite Hshift, Hr.
        split; [auto |]. intros [[_ Hb] | H]; [| assumption].
        apply Hh in Hb. discriminate.
    + exists okr. split; [assumption |]. rewrite Hshift, Hr.
      split; [auto |]. intros [[Hf _] | H]; [discriminate | assumption].
Qed.

Lemma scanRows3_blocked (b : Board) (pos : Position) (z : Z) :
  wellFormed3 b ->
  forall (rows : list Row) (y : Z),
  exists ok, scanRows b pos z rows y = Done ok /\
    (ok = false <->
     exists dx dy, subCell rows dx dy /\
       blocked3 b (px pos + dx) (py pos + (y + dy)) (pz pos + z)).
Proof.
  intro Hwf. induction rows as [|row rest IH]; intro y; simpl.
  - exists true. split; [reflexivity |]. split; [discriminate |].
    intros [dx [dy [[r [Hr _]] _]]]. unfold index in Hr.
    destruct (dy <? 0); [discriminate |].
    destruct (Z.to_nat dy); discriminate.
  - destruct (scanRow3_blocked b pos z y Hwf row 0) as [ok1 [E1 H1]].
    destruct (IH (y + 1)) as [okr [Er Hr]].
    rewrite E1. simpl.
    assert (Hshift :
      (exists dx dy, subCell (row :: rest) dx dy /\
         blocked3 b (px pos + dx) (py pos + (y + dy)) (pz pos + z)) <->
      (exists k, truthy (cellAt row k) = true /\
         blocked3 b (px pos + (0 + k)) (py pos + y) (pz pos + z)) \/
      (exists dx dy, subCell rest dx dy /\
         blocked3 b (px pos + dx) (py pos + (y + 1 + dy)) (pz pos + z))).
    { split.
      - intros [dx [dy [[r [Hr' Ht]] Hb]]].
        pose proof (index_some_range _ _ _ Hr') as Hdy.
        destruct (Z.eq_dec dy 0) as [-> | Hne].
        + left. rewrite index_head in Hr'. injection Hr' as <-.
          exists dx. rewrite Z.add_0_r in Hb. auto.
        + right. exists dx, (dy - 1). rewrite index_tail in Hr' by lia.
          split; [exists r; auto |].
          replace (y + 1 + (dy - 1)) with (y + dy) by lia. assumption.
      - intros [[k [Hk Hb]] | [dx [dy [[r [Hr' Ht]] Hb]]]].
        + exists k, 0. split; [exists row; rewrite index_head; auto |].
          rewrite Z.add_0_r. assumption.
        + pose proof (index_some_range _ _ _ Hr') as Hdy.
          exists dx, (dy + 1). split.
          * exists r. rewrite index_tail by lia.
            replace (dy + 1 - 1) with dy by lia. auto.
          * replace (y + (dy + 1)) with (y + 1 + dy) by lia. assumption. }
    destruct ok1.
    + exists okr. split; [assumption |]. rewrite Hshift, Hr.
      split; [auto |]. intros [H | H]; [| assumption].
      apply H1 in H. discriminate.
    + exists false. split; [reflexivity |]. rewrite Hshift.
      split; [intros _; left; apply H1; reflexivity | reflexivity].
Qed.

Lemma scanPlanes_blocked (b : Board) (pos : Position) :
  wellFormed3 b ->
  forall (planes : list (list Row)) (z : Z),
  exists ok, scanPlanes b pos planes z = Done ok /\
    (ok = false <->
     exists dx dy dz, subCell3 planes dx dy dz /\
       blocked3 b (px pos + dx) (py pos + dy) (pz pos + (z + dz))).
Proof.
  intro Hwf. induction planes as [|plane rest IH]; intro z; simpl.
  - exists true. split; [reflexivity |]. split; [discriminate |].
    intros [dx [dy [dz [[p [Hp _]] _]]]]. unfold index in Hp.
    destruct (dz <? 0); [discriminate |].
    destruct (Z.to_nat dz); discriminate.
  - destruct (scanRows3_blocked b pos z Hwf plane 0) as [ok1 [E1 H1]].
    destruct (IH (z + 1)) as [okr [Er Hr]].
    rewrite E1. simpl.
    assert (Hshift :
      (exists dx dy dz, subCell3 (plane :: rest) dx dy dz /\
         blocked3 b (px pos + dx) (py pos + dy) (pz pos + (z + dz))) <->
      (exists dx dy, subCell plane dx dy /\
         blocked3 b (px pos + dx) (py pos + (0 + dy)) (pz pos + z)) \/
      (exists dx dy dz, subCell3 rest dx dy dz /\
         blocked3 b (px pos + dx) (py pos + dy) (pz pos + (z + 1 + dz)))).
    { split.
      - intros [dx [dy [dz [[p [Hp Hs]] Hb]]]].
        pose proof (index_some_range _ _ _ Hp) as Hdz.
        destruct (Z.eq_dec dz 0) as [-> | Hne].
        + left. rewrite index_head in Hp. injection Hp as <-.
          exists dx, dy. rewrite Z.add_0_r in Hb. auto.
        + right. exists dx, dy, (dz - 1). rewrite index_tail in Hp by lia.
          split; [exists p; auto |].
          replace (z + 1 + (dz - 1)) with (z + dz) by lia. assumption.
      - intros [[dx [dy [Hs Hb]]] | [dx [dy [dz [[p [Hp Hs]] Hb]]]]].
        + exists dx, dy, 0. split; [exists plane; rewrite index_head; auto |].
          rewrite Z.add_0_r. assumption.
        + pose proof (index_some_range _ _ _ Hp) as Hdz.
          exists dx, dy, (dz + 1). split.
          * exists p. rewrite index_tail by lia.
            replace (dz + 1 - 1) with dz by lia. auto.
          * replace (z + (dz + 1)) with (z + 1 + dz) by lia. assumption. }
    destruct ok1.
    + exists okr. split; [assumption |]. rewrite Hshift, Hr.
      split; [auto |]. intros [H | H]; [| assumption].
      apply H1 in H. discriminate.
    + exists false. split; [reflexivity |]. rewrite Hshift.
      split; [intros _; left; apply H1; reflexivity | reflexivity].
Qed.

End ValidMove3.

(** C1.  On a board that has all its rows, [isValidMove] always returns, and
    it returns [false] exactly when some occupied sub-cell of the shape,
    offset by the position, lands on a column outside [0, BOARD_WIDTH), on a
    row at or below [BOARD_HEIGHT], or - only when its row is not negative -
    on an occupied cell; the volumetric check adds the depth bounds
    [0, BOARD_DEPTH).  A sub-cell above row 0 is thus never tested for
    occupancy but is still tested against the column and depth bounds. *)
Theorem C1_isValidMove_false_iff_blocked :
  (forall (C : Type) (piece : Grid.Piece C) (board : Grid.Board),
     len board = BOARD_HEIGHT ->
     exists ok, Grid.isValidMove piece board = Done ok /\
       (ok = false <->
        exists dx dy, Spec.subCell (Grid.shape piece) dx dy /\
          Spec.blocked board (Grid.px (Grid.position piece) + dx)
                             (Grid.py (Grid.position piece) + dy)))
  /\
  (forall (piece : Volumetric.Piece) (board : Volumetric.Board),
     Spec.wellFormed3 board ->
     exists ok, Volumetric.isValidMove piece board = Done ok /\
       (ok = false <->
        exists dx dy dz, Spec.subCell3 (Volumetric.shape piece) dx dy dz /\
          Spec.blocked3 board
            (Volumetric.px (Volumetric.position piece) + dx)
            (Volumetric.py (Volumetric.position piece) + dy)
            (Volumetric.pz (Volumetric.position piece) + dz))).
Proof.
  split.
  - intros C piece board Hlen. unfold Grid.isValidMove.
    destruct (ValidMove.scanRows_blocked board (Grid.position piece) Hlen
                (Grid.shape piece) 0) as [ok [E H]].
    exists ok. split; [assumption |]. exact H.
  - intros piece board Hwf. unfold Volumetric.isValidMove.
    destruct (ValidMove3.scanPlanes_blocked board (Volumetric.position piece)
                Hwf (Volumetric.shape piece) 0) as [ok [E H]].
    exists ok. split; [assumption |]. exact H.
Qed.

(** ** [clearLines] (claim C2) *)

Module ClearLines.
Import Grid Spec.

Lemma isFull_fullRow (row : Row) : isFull row = true <-> fullRow row.
Proof.
  unfold isFull, fullRow. rewrite forallb_forall, Forall_forall.
  split; intros H c Hin; specialize (H c Hin).
  - destruct c as [n |]; [| discriminate].
    simpl in H. intro E. injection E as ->. discriminate.
  - destruct c as [n |]; [| reflexivity].
    simpl. destruct (Z.eqb_spec n 0) as [-> | _]; [contradiction | reflexivity].
Qed.

(** The filter with its counter is the filter and the count. *)
Lemma filterFull_kept (b : Board) (n : Z) :
  filterFull b n = (keptRows b, n + fullCount b).
Proof.
  revert n. unfold keptRows, fullCount, len.
  induction b as [|row rest IH]; intro n; cbn [filterFull filter].
  - f_equal. simpl. lia.
  - destruct (isFull row); cbn [negb].
    + rewrite IH, length_cons. f_equal. lia.
    + rewrite IH. reflexivity.
Qed.

Lemma keptRows_length (b : Board) : len (keptRows b) + fullCount b = len b.
Proof.
  unfold keptRows, fullCount, len.
  induction b as [|row rest IH]; cbn [filter]; [reflexivity |].
  destruct (isFull row); cbn [negb]; rewrite !length_cons; lia.
Qed.

(** The padding loop adds exactly the missing rows on top. *)
Lemma padTop_repeat (b : Board) :
  padTop b = repeat emptyRow (missingRows b) ++ b.
Proof.
  funelim (padTop b).
  - match goal with IH : padTop _ = repeat _ _ ++ _ |- _ => rewrite IH end.
    assert (Hm : missingRows newBoard = S (missingRows (emptyRow :: newBoard))).
    { unfold missingRows, len in *. rewrite length_cons. lia. }
    rewrite Hm. cbn [repeat]. rewrite repeat_cons, <- app_assoc. reflexivity.
  - unfold missingRows. replace (Z.to_nat _) with 0%nat by lia. reflexivity.
Qed.

Lemma cleared_len (b : Board) :
  len b = BOARD_HEIGHT -> len (cleared b) = BOARD_HEIGHT.
Proof.
  intro Hb. unfold cleared, len. rewrite length_app, repeat_length.
  pose proof (keptRows_length b) as Hk.
  assert (0 <= fullCount b) by (unfold fullCount, len; lia).
  unfold len in *. lia.
Qed.

Lemma clearLines_cleared (b : Board) :
  len b = BOARD_HEIGHT -> clearLines b = (cleared b, fullCount b).
Proof.
  intro Hlen. unfold clearLines, cleared.
  rewrite filterFull_kept, padTop_repeat. simpl.
  f_equal. f_equal. f_equal. unfold missingRows.
  pose proof (keptRows_length b). lia.
Qed.

Lemma no_full_rows (b : Board) :
  Forall (fun row => ~ fullRow row) b -> keptRows b = b /\ fullCount b = 0.
Proof.
  unfold keptRows, fullCount, len.
  induction 1 as [|row rest Hrow _ [IHk IHc]]; simpl; [auto |].
  destruct (isFull row) eqn:E.
  - apply isFull_fullRow in E. contradiction.
  - simpl. rewrite IHk. auto.
Qed.

End ClearLines.

Module ClearLines3.
Import Spec.
Import Volumetric.

Lemma filterPlanes_kept (b : Board) (n : Z) :
  filterPlanes b n =
  (map keptRows b, n + fold_right Z.add 0 (map fullCount b)).
Proof.
  revert n. induction b as [|plane rest IH]; intro n; simpl.
  - f_equal. lia.
  - rewrite ClearLines.filterFull_kept, IH. f_equal. lia.
Qed.

(** Planes that are not short are left alone by the padding of a plane. *)
Lemma padTop_not_short (plane : Plane) :
  (len plane <? BOARD_HEIGHT) = false -> Grid.padTop plane = plane.
Proof.
  intro H. apply Z.ltb_ge in H. rewrite ClearLines.padTop_repeat.
  unfold Grid.missingRows. replace (Z.to_nat _) with 0%nat by lia.
  reflexivity.
Qed.

(** The outer loop pads every plane. *)
Lemma padPlanes_map (b : Board) : padPlanes b = map Grid.padTop b.
Proof.
  funelim (padPlanes b).
  - match goal with IH : padPlanes _ = map _ _ |- _ => rewrite IH end.
    rewrite map_map. apply map_ext. intro plane.
    apply padTop_not_short. apply Z.ltb_ge.
    rewrite ClearLines.padTop_repeat.
    unfold len, Grid.missingRows. rewrite length_app, repeat_length.
    unfold len. lia.
  - symmetry. rewrite <- (map_id newBoard) at 2. apply map_ext_in.
    intros plane Hin. apply padTop_not_short.
    destruct (len plane <? BOARD_HEIGHT) eqn:E; [| reflexivity].
    exfalso. match goal with Hn : someShort _ <> true |- _ => apply Hn end.
    unfold someShort. apply existsb_exists. exists plane. auto.
Qed.

Lemma clearLines3_cleared (b : Board) :
  Forall (fun plane => len plane = BOARD_HEIGHT) b ->
  clearLines b = (map cleared b, fold_right Z.add 0 (map fullCount b)).
Proof.
  intro Hb. unfold clearLines. rewrite filterPlanes_kept, padPlanes_map.
  simpl. f_equal. rewrite map_map. apply map_ext_in. intros plane Hin.
  rewrite Forall_forall in Hb. specialize (Hb _ Hin).
  rewrite ClearLines.padTop_repeat. unfold cleared. f_equal. f_equal.
  unfold Grid.missingRows. pose proof (ClearLines.keptRows_length plane). lia.
Qed.

End ClearLines3.

(** C2.  On a board of [BOARD_HEIGHT] rows, [clearLines] keeps exactly the
    rows that are not full (a row is full when every cell is non-zero), in
    their order, puts as many empty rows on top as rows were removed, so the
    result has [BOARD_HEIGHT] rows again, and returns the number of removed
    rows; without a full row the board comes back unchanged with count 0.
    The volumetric [clearLines] does this to every plane on its own and
    returns the total count. *)
Theorem C2_clearLines_removes_full_rows :
  (forall row : Row, Grid.isFull row = true <-> Spec.fullRow row)
  /\
  (forall board : Grid.Board,
     len board = BOARD_HEIGHT ->
     Grid.clearLines board = (Spec.cleared board, Spec.fullCount board)
     /\ len (fst (Grid.clearLines board)) = BOARD_HEIGHT
     /\ (Forall (fun row => ~ Spec.fullRow row) board ->
         Grid.clearLines board = (board, 0)))
  /\
  (forall board : Volumetric.Board,
     Forall (fun plane => len plane = BOARD_HEIGHT) board ->
     Volumetric.clearLines board =
       (map Spec.cleared board, fold_right Z.add 0 (map Spec.fullCount board))
     /\ Forall (fun plane => len plane = BOARD_HEIGHT)
               (fst (Volumetric.clearLines board))
     /\ (Forall (Forall (fun row => ~ Spec.fullRow row)) board ->
         Volumetric.clearLines board = (board, 0))).
Proof.
  pose proof ClearLines.cleared_len as Hlen.
  assert (Hsame : forall plane : Grid.Board,
             Forall (fun row => ~ Spec.fullRow row) plane ->
             Spec.cleared plane = plane /\ Spec.fullCount plane = 0).
  { intros plane Hp. destruct (ClearLines.no_full_rows plane Hp) as [Hk Hc].
    unfold Spec.cleared. rewrite Hk, Hc. auto. }
  split; [exact ClearLines.isFull_fullRow |]. split.
  - intros board Hb. rewrite (ClearLines.clearLines_cleared board Hb).
    split; [reflexivity |]. split; [apply Hlen; assumption |].
    intro Hnone. destruct (Hsame board Hnone) as [-> ->]. reflexivity.
  - intros board Hb. rewrite (ClearLines3.clearLines3_cleared board Hb).
    split; [reflexivity |]. split.
    + simpl. rewrite Forall_map. eapply Forall_impl; [| exact Hb].
      intros plane Hp. apply Hlen. assumption.
    + intro Hnone. f_equal.
      * rewrite <- (map_id board) at 2. apply map_ext_in. intros plane Hin.
        rewrite Forall_forall in Hnone. apply Hsame. auto.
      * induction Hnone as [|plane rest Hp _ IH]; [reflexivity |].
        simpl. inversion Hb; subst. rewrite IH by assumption.
        destruct (Hsame plane Hp) as [_ ->]. reflexivity.
Qed.

(** ** Running handlers *)

(** Case analysis on whatever the handler under study branches on next. *)
Ltac branch :=
  match goal with
  | |- context [match ?x with _ => _ end] =>
      lazymatch x with
      | context [match _ with _ => _ end] => fail
      | _ => first [ is_var x; destruct x | destruct x eqn:? ]
      end
  end.

Ltac unfold_update :=
  unfold run, result, bind, lift, ret, queue in *.

Ltac unfold_dom :=
  unfold Dom.handleKeyPress, Dom.gravityTick in *;
  unfold Dom.moveDown, Dom.moveSideways, Dom.rotate, Dom.spawnEffect,
    Dom.setBoard, Dom.setPiece, Dom.setNextPiece, Dom.setScore, Dom.setLevel,
    Dom.setGameOver, Dom.setSpeed in *;
  unfold_update.

Ltac unfold_hold :=
  unfold Hold.dispatch in *;
  unfold Hold.handleKeyPress, Hold.gravityTick in *;
  unfold Hold.moveDown, Hold.hardDrop, Hold.moveSideways,
    Hold.rotate, Hold.storePiece, Hold.spawnEffect in *;
  unfold Hold.afterLock,
    Hold.setBoard, Hold.setPiece, Hold.setNextPiece, Hold.setScore,
    Hold.setLevel, Hold.setGameOver, Hold.setSpeed, Hold.setStoredPiece,
    Hold.setCanStore, Hold.setHighScore in *;
  unfold_update.

(** Reduction of the projections of a state that was just built. *)
Ltac simp_dom :=
  cbn [fst snd negb Dom.board Dom.piece Dom.nextPiece Dom.score Dom.level
       Dom.gameOver Dom.speed] in *.

Ltac simp_hold :=
  cbn [fst snd negb Hold.board Hold.piece Hold.nextPiece Hold.score Hold.level
       Hold.gameOver Hold.speed Hold.storedPiece Hold.canStore
       Hold.highScore] in *.

Ltac simp_flat :=
  cbn [fst snd negb Flat3D.board Flat3D.piece Flat3D.nextPiece Flat3D.score
       Flat3D.level Flat3D.gameOver Flat3D.speed] in *.

Ltac unfold_flat_setters :=
  unfold Flat3D.setBoard, Flat3D.setPiece, Flat3D.setNextPiece,
    Flat3D.setScore, Flat3D.setLevel, Flat3D.setGameOver, Flat3D.setSpeed in *;
  unfold_update.

(** ** Scoring (claim C3) *)

(** C3.  A lock that clears [k] lines sets the score to the old score plus
    [k * k * 100 + 10] (in [moveDown] of the DOM build and of the canvas
    build); the hard drop of the canvas build adds to that the number of rows
    the piece fell, the drop row minus the row it started from. *)
Theorem C3_score_delta :
  (forall (r1 r2 : Z) (s : Dom.State) (p : Grid.Piece Z)
          (newBoard clearedBoard : Grid.Board) (k : Z),
     Dom.piece s = Some p ->
     Grid.isValidMove (Grid.withY p (Grid.py (Grid.position p) + 1))
       (Dom.board s) = Done false ->
     Grid.mergePieceToBoard Dom.cellId p (Dom.board s) = Done newBoard ->
     Grid.clearLines newBoard = (clearedBoard, k) ->
     Dom.score (run (Dom.moveDown r1 r2) s) = Dom.score s + (k * k * 100 + 10))
  /\
  (forall (r1 r2 : Z) (s : Hold.State) (p : Grid.Piece string)
          (newBoard clearedBoard : Grid.Board) (k : Z),
     Hold.piece s = Some p ->
     Grid.isValidMove (Grid.withY p (Grid.py (Grid.position p) + 1))
       (Hold.board s) = Done false ->
     Grid.mergePieceToBoard Hold.cellId p (Hold.board s) = Done newBoard ->
     Grid.clearLines newBoard = (clearedBoard, k) ->
     Hold.score (run (Hold.moveDown r1 r2) s)
       = Hold.score s + (k * k * 100 + 10))
  /\
  (forall (fuel : nat) (r1 r2 : Z) (s : Hold.State) (p : Grid.Piece string)
          (dropPosition : Grid.Position)
          (newBoard clearedBoard : Grid.Board) (k : Z),
     Hold.piece s = Some p ->
     Hold.getDropPosition fuel p (Hold.board s) = Done dropPosition ->
     Grid.mergePieceToBoard Hold.cellId (Grid.withPosition p dropPosition)
       (Hold.board s) = Done newBoard ->
     Grid.clearLines newBoard = (clearedBoard, k) ->
     Hold.score (run (Hold.hardDrop fuel r1 r2) s)
       = Hold.score s + (k * k * 100 + 10)
         + (Grid.py dropPosition - Grid.py (Grid.position p))).
Proof.
  split; [| split].
  - intros r1 r2 s p newBoard clearedBoard k Hp Hv Hm Hc.
    unfold_dom. rewrite Hp, Hv, Hm, Hc. cbn [fst snd].
    repeat (branch; simp_dom); lia.
  - intros r1 r2 s p newBoard clearedBoard k Hp Hv Hm Hc.
    unfold_hold. rewrite Hp, Hv, Hm, Hc. cbn [fst snd].
    repeat (branch; simp_hold); lia.
  - intros fuel r1 r2 s p dropPosition newBoard clearedBoard k Hp Hd Hm Hc.
    unfold_hold. rewrite Hp, Hd. cbn [fst snd]. rewrite Hm, Hc.
    cbn [fst snd].
    repeat (branch; simp_hold); lia.
Qed.

(** ** Game over (claim C4) *)

(** In the canvas build the promoted piece is checked against the cleared
    board on both paths, and a failed check sets the flag and installs
    nothing. *)
Lemma Hold_afterLock_checks_promoted (r1 r2 : Z) (snap st : Hold.State)
  (clearedBoard : Grid.Board) (newScore : Z) (np : Grid.Piece string) :
  Hold.nextPiece snap = Some np ->
  Hold.gameOver st = false ->
  forall ok, Grid.isValidMove np clearedBoard = Done ok ->
  Hold.gameOver (snd (Hold.afterLock r1 r2 snap clearedBoard newScore st))
    = negb ok
  /\ (ok = false ->
      Hold.piece (snd (Hold.afterLock r1 r2 snap clearedBoard newScore st))
        = Hold.piece st).
Proof.
  intros Hnp Hg ok Hok. unfold_hold. rewrite Hnp, Hok.
  destruct ok; simp_hold; repeat (branch; simp_hold);
    (split; [assumption || reflexivity | intro; reflexivity || discriminate]).
Qed.

(** Once the flag is set, no event of the canvas build changes the state. *)
Lemma Hold_gameOver_ignores_events (e : Hold.event) (s : Hold.State) :
  Hold.gameOver s = true -> Hold.dispatch e s = s.
Proof.
  intro Hg. destruct e as [k fuel r1 r2 | r1 r2 | r1 r2]; unfold_hold;
    rewrite Hg; cbn; [reflexivity | reflexivity |].
  rewrite andb_false_r. reflexivity.
Qed.

(** And none of the DOM build's either. *)
Lemma Dom_gameOver_ignores_events (k : Dom.key) (r1 r2 : Z) (s : Dom.State) :
  Dom.gameOver s = true ->
  run (Dom.handleKeyPress k r1 r2) s = s /\ run (Dom.gravityTick r1 r2) s = s
  /\ run (Dom.spawnEffect r1 r2) s = s.
Proof.
  intro Hg. unfold_dom. rewrite Hg, andb_false_r. cbn. auto.
Qed.

(** In the DOM build a [moveDown] that finds a next piece never touches the
    game-over flag: that path has no check of the promoted piece. *)
Lemma Dom_next_piece_never_ends_game (r1 r2 : Z) (s : Dom.State)
  (np : Grid.Piece Z) :
  Dom.nextPiece s = Some np ->
  Dom.gameOver (run (Dom.moveDown r1 r2) s) = Dom.gameOver s.
Proof.
  intro Hn. unfold_dom. rewrite Hn.
  repeat (branch; simp_dom); reflexivity.
Qed.

(** The tower state is one the DOM build gets into: O pieces are drawn ten
    times and left to fall, and the I piece is drawn as the next piece when
    the ninth O piece locks, on the ninety-ninth tick. *)
Lemma domTower_is_reached :
  run (Dom.moveDown 0 0)
    (Spec.iterate 98 (run (Dom.moveDown 1 1))
       (run (Dom.spawnEffect 1 1) Dom.initialState))
  = Scenario.domTower.
Proof. vm_compute. reflexivity. Qed.

(** C4 (evaluation at the failing input).  In the DOM build the tenth O piece
    locks on top of the tower and no line is cleared.  The next piece, the I
    piece, is not valid on the resulting board, yet [moveDown] installs it as
    the active piece and leaves the game-over flag unset.  The canvas build
    sets the flag on the same input and keeps the old piece. *)
Theorem C4_dom_promotes_without_validation :
  Grid.isValidMove Scenario.domI
    (Dom.board (run (Dom.moveDown 0 0) Scenario.domTower)) = Done false
  /\ Dom.piece (run (Dom.moveDown 0 0) Scenario.domTower)
       = Some Scenario.domI
  /\ Dom.gameOver (run (Dom.moveDown 0 0) Scenario.domTower) = false
  /\ Hold.gameOver (run (Hold.moveDown 0 0) Scenario.holdTower) = true
  /\ Hold.piece (run (Hold.moveDown 0 0) Scenario.holdTower)
       = Some Scenario.holdO.
Proof.
  vm_compute. repeat split; reflexivity.
Qed.

(** ** Level and gravity interval (claim C5) *)

(** The state with the interval at its floor is one the DOM build gets into,
    by the play with I pieces. *)
Lemma domSixthTetris_is_reached :
  Scenario.sixthTetrisPlay = Scenario.domSixthTetris.
Proof. vm_compute. reflexivity. Qed.

(** C5 as stated fails at the floor: at level 9 the interval is 100; the lock
    that brings the score from 8590 to 10200 raises the level to 10, and the
    interval neither decreases nor loses the step of 50. *)
Lemma C5_counterexample_interval_at_floor :
  Dom.score (run (Dom.moveDown 0 0) Scenario.domSixthTetris)
    >= Dom.level Scenario.domSixthTetris * LEVEL_THRESHOLD
  /\ Dom.level (run (Dom.moveDown 0 0) Scenario.domSixthTetris)
       = Dom.level Scenario.domSixthTetris + 1
  /\ ~ (Dom.speed (run (Dom.moveDown 0 0) Scenario.domSixthTetris)
        < Dom.speed Scenario.domSixthTetris)
  /\ Dom.speed (run (Dom.moveDown 0 0) Scenario.domSixthTetris)
       <> Dom.speed Scenario.domSixthTetris - SPEED_INCREMENT.
Proof.
  vm_compute. repeat split; intro H; discriminate H.
Qed.

Lemma levelStep_intro (level speed newScore level' speed' : Z) :
  (if newScore >=? level * LEVEL_THRESHOLD
   then level' = level + 1 /\ speed' = Z.max (speed - SPEED_INCREMENT) 100
   else level' = level /\ speed' = speed) ->
  Spec.levelStep level speed newScore level' speed'.
Proof.
  unfold Spec.levelStep, SPEED_INCREMENT.
  destruct (Z.geb_spec newScore (level * LEVEL_THRESHOLD)); intros [-> ->].
  - split; [intros _ | lia]. repeat split; lia.
  - split; [lia | auto].
Qed.

(** The kick loop does not touch the level. *)
Lemma tryKicks_level (np : Grid.Piece string) (b : Grid.Board)
  (ks : list Grid.Position) (st : Hold.State) :
  Hold.level (snd (Hold.tryKicks np b ks st)) = Hold.level st.
Proof.
  induction ks as [|kick rest IH]; simpl; [reflexivity |].
  unfold bind at 1. unfold lift at 1.
  destruct (Grid.isValidMove (Hold.kicked np kick) b) as [[|] | |];
    try reflexivity.
  exact IH.
Qed.

(** No event of the canvas build lowers the level. *)
Lemma Hold_level_never_decreases (es : list Hold.event) (s : Hold.State) :
  Hold.level s <= Hold.level (Hold.dispatchAll es s).
Proof.
  revert s. induction es as [|e rest IH]; intro s; cbn [Hold.dispatchAll];
    [lia |].
  transitivity (Hold.level (Hold.dispatch e s)); [| apply IH].
  clear IH.
  destruct e as [[| | | | | |] fuel r1 r2 | r1 r2 | r1 r2];
    try (unfold_hold; repeat (branch; simp_hold); lia).
  unfold Hold.dispatch, run, Hold.handleKeyPress.
  destruct (Hold.gameOver s); [cbn; lia |].
  unfold Hold.rotate. destruct (Hold.piece s) as [p |]; [| cbn; lia].
  unfold bind at 1. unfold lift at 1.
  destruct (Grid.rotateShape (Grid.shape p)) as [newShape | |]; cbn [snd];
    try lia.
  unfold bind at 1. unfold lift at 1.
  destruct (Grid.isValidMove (Grid.withShape p newShape) (Hold.board s))
    as [[|] | |]; cbn [snd]; try lia.
  - cbn. lia.
  - rewrite tryKicks_level. lia.
Qed.

(** C5 (amended).  When a lock brings the score to [level * 1000] or more,
    the level goes up by exactly one and the interval becomes
    [max (interval - 50) 100]: it never ends below 100, it loses exactly 50
    while it is at least 150, it strictly decreases while it is above 100, and
    it stays at 100 once there.  Below the threshold level and interval are
    unchanged, no [moveDown] ever lowers the level, and in the canvas build
    no run of events does. *)
Theorem C5_level_and_interval :
  (forall (r1 r2 : Z) (s : Dom.State) (p : Grid.Piece Z)
          (newBoard clearedBoard : Grid.Board) (k : Z),
     Dom.piece s = Some p ->
     Grid.isValidMove (Grid.withY p (Grid.py (Grid.position p) + 1))
       (Dom.board s) = Done false ->
     Grid.mergePieceToBoard Dom.cellId p (Dom.board s) = Done newBoard ->
     Grid.clearLines newBoard = (clearedBoard, k) ->
     let s' := run (Dom.moveDown r1 r2) s in
     Dom.score s' = Dom.score s + k * k * 100 + 10
     /\ Spec.levelStep (Dom.level s) (Dom.speed s) (Dom.score s')
                  (Dom.level s') (Dom.speed s'))
  /\
  (forall (r1 r2 : Z) (s : Hold.State) (p : Grid.Piece string)
          (newBoard clearedBoard : Grid.Board) (k : Z),
     Hold.piece s = Some p ->
     Grid.isValidMove (Grid.withY p (Grid.py (Grid.position p) + 1))
       (Hold.board s) = Done false ->
     Grid.mergePieceToBoard Hold.cellId p (Hold.board s) = Done newBoard ->
     Grid.clearLines newBoard = (clearedBoard, k) ->
     let s' := run (Hold.moveDown r1 r2) s in
     Hold.score s' = Hold.score s + k * k * 100 + 10
     /\ Spec.levelStep (Hold.level s) (Hold.speed s) (Hold.score s')
                  (Hold.level s') (Hold.speed s'))
  /\
  (forall (r1 r2 : Z) (s : Dom.State),
     Dom.level s <= Dom.level (run (Dom.moveDown r1 r2) s))
  /\
  (forall (r1 r2 : Z) (s : Hold.State),
     Hold.level s <= Hold.level (run (Hold.moveDown r1 r2) s))
  /\
  (forall (es : list Hold.event) (s : Hold.State),
     Hold.level s <= Hold.level (Hold.dispatchAll es s)).
Proof.
  split; [| split; [| split; [| split; [| exact Hold_level_never_decreases]]]].
  - intros r1 r2 s p newBoard clearedBoard k Hp Hv Hm Hc s'.
    assert (Hs : Dom.score s' = Dom.score s + k * k * 100 + 10).
    { subst s'. unfold_dom. rewrite Hp, Hv, Hm, Hc. cbn [fst snd].
      repeat (branch; simp_dom); reflexivity. }
    split; [exact Hs |]. apply levelStep_intro. rewrite Hs.
    subst s'. unfold_dom. rewrite Hp, Hv, Hm, Hc. cbn [fst snd].
    repeat (branch; simp_dom); auto.
  - intros r1 r2 s p newBoard clearedBoard k Hp Hv Hm Hc s'.
    assert (Hs : Hold.score s' = Hold.score s + k * k * 100 + 10).
    { subst s'. unfold_hold. rewrite Hp, Hv, Hm, Hc. cbn [fst snd].
      repeat (branch; simp_hold); reflexivity. }
    split; [exact Hs |]. apply levelStep_intro. rewrite Hs.
    subst s'. unfold_hold. rewrite Hp, Hv, Hm, Hc. cbn [fst snd].
    repeat (branch; simp_hold); auto.
  - intros r1 r2 s. unfold_dom.
    repeat (branch; simp_dom); lia.
  - intros r1 r2 s. unfold_hold.
    repeat (branch; simp_hold); lia.
Qed.

(** ** Rotation and wall kicks (claim C6) *)

Section Kicks.
Import Grid.
Variables (newPiece : Piece string) (b : Board).

(** The kick loop installs the first kicked piece that is valid, when all the
    ones before it are not. *)
Lemma tryKicks_first_valid (ks : list Position) (st : Hold.State) :
  forall (i : nat) (kick : Position),
    nth_error ks i = Some kick ->
    (forall (j : nat) (kick' : Position),
       (j < i)%nat -> nth_error ks j = Some kick' ->
       isValidMove (Hold.kicked newPiece kick') b = Done false) ->
    isValidMove (Hold.kicked newPiece kick) b = Done true ->
    snd (Hold.tryKicks newPiece b ks st)
      = Spec.holdSetPiece st (Hold.kicked newPiece kick).
Proof.
  induction ks as [|k0 rest IH]; intros i kick Hi Hbefore Hvalid.
  - destruct i; discriminate.
  - destruct i as [|i]; simpl in Hi.
    + injection Hi as ->. simpl. unfold_hold. rewrite Hvalid. reflexivity.
    + simpl. unfold bind at 1. unfold lift at 1.
      rewrite (Hbefore 0%nat k0); [| lia | reflexivity].
      apply (IH i kick Hi); [| assumption].
      intros j kick' Hj Hnth. apply (Hbefore (S j)); [lia | assumption].
Qed.

(** With no valid kick the loop queues nothing. *)
Lemma tryKicks_none_valid (ks : list Position) (st : Hold.State) :
  (forall kick, In kick ks ->
     isValidMove (Hold.kicked newPiece kick) b = Done false) ->
  Hold.tryKicks newPiece b ks st = (Done tt, st).
Proof.
  induction ks as [|k0 rest IH]; intro Hall; simpl; [reflexivity |].
  unfold bind at 1. unfold lift at 1.
  rewrite (Hall k0) by (left; reflexivity).
  apply IH. intros kick Hin. apply Hall. right. assumption.
Qed.

End Kicks.

Module Rotation.
Import Grid.

Lemma index_mapIndexed {A B : Type} (f : A -> Z -> B) (arr : list A) :
  forall (i j : Z), 0 <= j ->
    index (mapIndexed f arr i) j
    = option_map (fun a => f a (i + j)) (index arr j).
Proof.
  induction arr as [|a rest IH]; intros i j Hj; cbn [mapIndexed].
  - unfold index. destruct (j <? 0); [reflexivity |].
    destruct (Z.to_nat j); reflexivity.
  - destruct (Z.eq_dec j 0) as [-> | Hne].
    + rewrite !index_head. cbn. rewrite Z.add_0_r. reflexivity.
    + rewrite !index_tail by lia. rewrite IH by lia.
      replace (i + 1 + (j - 1)) with (i + j) by lia. reflexivity.
Qed.

Lemma len_mapIndexed {A B : Type} (f : A -> Z -> B) (arr : list A) (i : Z) :
  len (mapIndexed f arr i) = len arr.
Proof.
  revert i. unfold len. induction arr as [|a rest IH]; intro i;
    cbn [mapIndexed]; [reflexivity |].
  rewrite !length_cons. specialize (IH (i + 1)). lia.
Qed.

Lemma index_map {A B : Type} (g : A -> B) (arr : list A) (i : Z) :
  index (map g arr) i = option_map g (index arr i).
Proof.
  unfold index. destruct (i <? 0); [reflexivity |]. apply nth_error_map.
Qed.

Lemma index_rev {A : Type} (arr : list A) (i : Z) :
  0 <= i < len arr -> index (rev arr) i = index arr (len arr - 1 - i).
Proof.
  unfold index, len. intros [H0 H1].
  destruct (Z.ltb_spec i 0); [lia |].
  destruct (Z.ltb_spec (Z.of_nat (List.length arr) - 1 - i) 0); [lia |].
  rewrite nth_error_rev.
  destruct (Nat.ltb_spec (Z.to_nat i) (List.length arr)); [| lia].
  f_equal. lia.
Qed.

(** The turned shape: one row per column of the first row, each as long as
    the shape is high, and slot [i] of row [j] is slot [j] of the row [i]
    places up from the last one - a clockwise quarter turn. *)
Lemma rotateShape_quarter_turn (s : list Row) (first : Row) :
  index s 0 = Some first ->
  exists newShape,
    rotateShape s = Done newShape
    /\ len newShape = len first
    /\ forall j, 0 <= j < len first ->
         exists row,
           index newShape j = Some row
           /\ len row = len s
           /\ forall i source,
                index s (len s - 1 - i) = Some source ->
                0 <= i ->
                cellAt row i = cellAt source j.
Proof.
  intro Hfirst. unfold rotateShape. rewrite Hfirst.
  eexists. split; [reflexivity |]. split; [apply len_mapIndexed |].
  intros j Hj. destruct (index_in_range first j Hj) as [v Hv].
  exists (rev (map (fun row => cellAt row j) s)).
  rewrite index_mapIndexed by lia. rewrite Hv. cbn [option_map].
  split; [reflexivity |]. split.
  - unfold len. rewrite length_rev, length_map. reflexivity.
  - intros i source Hsource Hi.
    pose proof (index_some_range _ _ _ Hsource) as Hrange.
    unfold cellAt at 1.
    rewrite index_rev
      by (unfold len, Row in *; rewrite length_map; lia).
    replace (len (map (fun row => cellAt row j) s)) with (len s)
      by (unfold len; rewrite length_map; reflexivity).
    rewrite index_map. unfold Row in *. rewrite Hsource. reflexivity.
Qed.

End Rotation.

(** C6.  The kick table is right, left, up, up-right, up-left.  The turned
    shape is the clockwise quarter turn of the shape (its transpose with every
    row reversed): slot [i] of its row [j] is slot [j] of the row [i] places
    up from the last row.  In the canvas
    build a valid plain rotation is taken as it is; when it is not valid, the
    first kick of the table that gives a valid piece (all the earlier ones
    giving invalid pieces) is installed, and when no kick does, the state -
    shape and position of the piece included - is unchanged.  In the DOM
    build and in the flat build an invalid rotation leaves the state
    unchanged: there are no kicks. *)
Theorem C6_rotation_kicks :
  Hold.kicks =
    [ Grid.mkPosition 1 0; Grid.mkPosition (-1) 0; Grid.mkPosition 0 (-1);
      Grid.mkPosition 1 (-1); Grid.mkPosition (-1) (-1) ]
  /\
  (forall (s : list Row) (first : Row),
     index s 0 = Some first ->
     exists newShape,
       Grid.rotateShape s = Done newShape
       /\ len newShape = len first
       /\ forall j, 0 <= j < len first ->
            exists row,
              index newShape j = Some row
              /\ len row = len s
              /\ forall i source,
                   index s (len s - 1 - i) = Some source ->
                   0 <= i ->
                   cellAt row i = cellAt source j)
  /\
  (forall (s : Hold.State) (p : Grid.Piece string) (newShape : list Row),
     Hold.piece s = Some p ->
     Grid.rotateShape (Grid.shape p) = Done newShape ->
     (Grid.isValidMove (Grid.withShape p newShape) (Hold.board s) = Done true ->
      run Hold.rotate s = Spec.holdSetPiece s (Grid.withShape p newShape))
     /\
     (Grid.isValidMove (Grid.withShape p newShape) (Hold.board s) = Done false ->
      (forall (i : nat) (kick : Grid.Position),
         nth_error Hold.kicks i = Some kick ->
         (forall (j : nat) (kick' : Grid.Position),
            (j < i)%nat -> nth_error Hold.kicks j = Some kick' ->
            Grid.isValidMove (Hold.kicked (Grid.withShape p newShape) kick')
              (Hold.board s) = Done false) ->
         Grid.isValidMove (Hold.kicked (Grid.withShape p newShape) kick)
           (Hold.board s) = Done true ->
         run Hold.rotate s
           = Spec.holdSetPiece s
               (Grid.mkPiece newShape
                  (Grid.mkPosition
                     (Grid.px (Grid.position p) + Grid.px kick)
                     (Grid.py (Grid.position p) + Grid.py kick))
                  (Grid.color p)))
      /\
      ((forall kick : Grid.Position, In kick Hold.kicks ->
          Grid.isValidMove (Hold.kicked (Grid.withShape p newShape) kick)
            (Hold.board s) = Done false) ->
       run Hold.rotate s = s)))
  /\
  (forall (s : Dom.State) (p : Grid.Piece Z) (newShape : list Row),
     Dom.piece s = Some p ->
     Grid.rotateShape (Grid.shape p) = Done newShape ->
     Grid.isValidMove (Grid.withShape p newShape) (Dom.board s) = Done false ->
     run Dom.rotate s = s)
  /\
  (forall (s : Flat3D.State) (p : Grid.Piece string) (newShape : list Row),
     Flat3D.piece s = Some p ->
     Grid.rotateShape (Grid.shape p) = Done newShape ->
     Grid.isValidMove (Grid.withShape p newShape) (Flat3D.board s)
       = Done false ->
     run Flat3D.rotate s = s).
Proof.
  split; [reflexivity |].
  split; [exact Rotation.rotateShape_quarter_turn |]. split; [| split].
  - intros s p newShape Hp Hrot. split; [| intro Hinvalid; split].
    + intro Hvalid. unfold run, Hold.rotate. rewrite Hp.
      unfold bind at 1. unfold lift at 1. rewrite Hrot.
      unfold bind at 1. unfold lift at 1. rewrite Hvalid. reflexivity.
    + intros i kick Hi Hbefore Hvalid. unfold run, Hold.rotate. rewrite Hp.
      unfold bind at 1. unfold lift at 1. rewrite Hrot.
      unfold bind at 1. unfold lift at 1. rewrite Hinvalid.
      apply (tryKicks_first_valid _ _ Hold.kicks s i kick Hi Hbefore Hvalid).
    + intro Hall. unfold run, Hold.rotate. rewrite Hp.
      unfold bind at 1. unfold lift at 1. rewrite Hrot.
      unfold bind at 1. unfold lift at 1. rewrite Hinvalid.
      rewrite (tryKicks_none_valid _ _ Hold.kicks s Hall). reflexivity.
  - intros s p newShape Hp Hrot Hinvalid. unfold_dom.
    rewrite Hp, Hrot, Hinvalid. reflexivity.
  - intros s p newShape Hp Hrot Hinvalid.
    unfold run, Flat3D.rotate, bind, lift, ret.
    rewrite Hp, Hrot, Hinvalid. reflexivity.
Qed.

(** ** Hold (claims C7 and C10) *)

Module Store.
Import Grid Spec.

Lemma isValidMove_returns {C : Type} (p : Piece C) (b : Board) :
  len b = BOARD_HEIGHT -> exists ok, isValidMove p b = Done ok.
Proof.
  intro Hlen.
  destruct (ValidMove.scanRows_blocked b (position p) Hlen (shape p) 0)
    as [ok [E _]].
  exists ok. exact E.
Qed.

Lemma drawn_cases (r : Z) :
  drawn r -> r = 0 \/ r = 1 \/ r = 2 \/ r = 3 \/ r = 4 \/ r = 5 \/ r = 6.
Proof. unfold drawn. lia. Qed.

Lemma createNewPiece_returns (r : Z) :
  drawn r -> exists p, Hold.createNewPiece r = Done p.
Proof.
  intro Hr. apply drawn_cases in Hr.
  repeat (destruct Hr as [-> | Hr]; [eexists; reflexivity |]).
  subst r. eexists. reflexivity.
Qed.

Lemma spawnX_returns {C : Type} (p : Piece C) :
  hasFirstRow p -> exists x, spawnX (shape p) = Done x.
Proof.
  unfold hasFirstRow, spawnX. destruct (index (shape p) 0).
  - intros _. eexists. reflexivity.
  - intro H. contradiction.
Qed.

(** A store that gets past its guard and runs to its end closes the hold. *)
Lemma store_closes_hold (r : Z) (s : Hold.State) :
  Hold.piece s <> None ->
  drawn r ->
  len (Hold.board s) = BOARD_HEIGHT ->
  (forall sp, Hold.storedPiece s = Some sp -> hasFirstRow sp) ->
  Hold.canStore (run (Hold.storePiece r) s) = false.
Proof.
  intros Hp Hr Hlen Hsp.
  destruct (createNewPiece_returns r Hr) as [fresh Hfresh].
  unfold_hold. destruct (Hold.canStore s) eqn:Hc; cbn [negb orb]; [| exact Hc].
  destruct (Hold.piece s) as [p |] eqn:Ep; [| contradiction].
  cbn [isNull]. destruct (Hold.storedPiece s) as [sp |] eqn:Es.
  - destruct (spawnX_returns sp (Hsp sp eq_refl)) as [x Hx]. rewrite Hx.
    destruct (isValidMove_returns (withPosition sp (mkPosition x 0))
                (Hold.board s) Hlen) as [ok Hok].
    rewrite Hok. destruct ok; reflexivity.
  - rewrite Hfresh. destruct (Hold.nextPiece s); reflexivity.
Qed.

(** With the hold closed, a store changes nothing. *)
Lemma store_noop (r : Z) (s : Hold.State) :
  Hold.canStore s = false -> run (Hold.storePiece r) s = s.
Proof. intro Hc. unfold_hold. rewrite Hc. reflexivity. Qed.

(** The kick loop only ever queues a piece. *)
Lemma tryKicks_canStore (np : Piece string) (b : Board) (ks : list Position)
  (st : Hold.State) :
  Hold.canStore (snd (Hold.tryKicks np b ks st)) = Hold.canStore st.
Proof.
  induction ks as [|kick rest IH]; simpl; [reflexivity |].
  unfold bind at 1. unfold lift at 1.
  destruct (isValidMove (Hold.kicked np kick) b) as [[|] | |];
    try reflexivity.
  exact IH.
Qed.

(** An event that does not lock the piece leaves a closed hold closed. *)
Lemma hold_stays_closed (e : Hold.event) (s : Hold.State) :
  Hold.canStore s = false -> ~ locksAt e s ->
  Hold.canStore (Hold.dispatch e s) = false.
Proof.
  intros Hc Hn. unfold locksAt in Hn.
  destruct e as [k fuel r1 r2 | r1 r2 | r1 r2].
  - destruct (Hold.gameOver s) eqn:Hg.
    { unfold_hold. rewrite Hg. exact Hc. }
    destruct k; unfold_hold; rewrite Hg;
      try solve [ repeat (branch; simp_hold); auto ].
    + destruct (Hold.piece s) as [p |] eqn:Ep; [| exact Hc].
      destruct (isValidMove (withY p (py (position p) + 1)) (Hold.board s))
        as [[|] | |] eqn:Ev; cbn [fst snd Hold.canStore]; auto.
      exfalso. apply Hn. split; [reflexivity |]. exists p. auto.
    + destruct (Hold.piece s) as [p |] eqn:Ep; [| exact Hc].
      exfalso. apply Hn. split; [reflexivity |]. exists p. auto.
    + destruct (Hold.piece s) as [p |] eqn:Ep; [| exact Hc].
      destruct (rotateShape (shape p)) as [newShape | |]; try exact Hc.
      destruct (isValidMove (withShape p newShape) (Hold.board s))
        as [[|] | |]; try exact Hc.
      rewrite tryKicks_canStore. exact Hc.
  - destruct (Hold.gameOver s) eqn:Hg; unfold_hold; rewrite Hg; [exact Hc |].
    destruct (Hold.piece s) as [p |] eqn:Ep; [| exact Hc].
    destruct (isValidMove (withY p (py (position p) + 1)) (Hold.board s))
      as [[|] | |] eqn:Ev; cbn [fst snd Hold.canStore]; auto.
    exfalso. apply Hn. split; [reflexivity |]. exists p. auto.
  - unfold_hold. repeat (branch; simp_hold); auto.
Qed.

End Store.

Module Advance.
Import Grid Spec.

(** [afterLock] opens the hold only after it has checked the promoted piece
    against the cleared board and installed it. *)
Lemma afterLock_opens_hold (r1 r2 : Z) (snap st : Hold.State)
  (clearedBoard : Board) (newScore : Z) :
  Hold.canStore st = false ->
  Hold.canStore (snd (Hold.afterLock r1 r2 snap clearedBoard newScore st))
    = true ->
  Hold.board (snd (Hold.afterLock r1 r2 snap clearedBoard newScore st))
    = Hold.board st
  /\ Hold.gameOver (snd (Hold.afterLock r1 r2 snap clearedBoard newScore st))
     = Hold.gameOver st
  /\ exists promoted,
       Hold.piece (snd (Hold.afterLock r1 r2 snap clearedBoard newScore st))
         = Some promoted
       /\ isValidMove promoted clearedBoard = Done true.
Proof.
  intro Hc. unfold_hold.
  repeat (branch; simp_hold);
    intro Ho; try congruence;
    (split; [reflexivity |]; split; [reflexivity |]);
    eexists; (split; [reflexivity |]);
    match goal with
    | Hn : negb ?ok = false, Hv : isValidMove _ _ = Done ?ok |- _ =>
        destruct ok; [exact Hv | discriminate Hn]
    end.
Qed.

Lemma locksAt_dec (e : Hold.event) (s : Hold.State) :
  locksAt e s \/ ~ locksAt e s.
Proof.
  unfold locksAt. destruct (Hold.gameOver s); [right; intros [H _]; discriminate |].
  destruct (Hold.piece s) as [p |];
    [| right; intros [_ [p [H _]]]; discriminate].
  assert (Hdown :
    (isValidMove (withY p (py (position p) + 1)) (Hold.board s) = Done false)
    \/ ~ (isValidMove (withY p (py (position p) + 1)) (Hold.board s)
          = Done false)).
  { destruct (isValidMove (withY p (py (position p) + 1)) (Hold.board s))
      as [[|] | |]; auto; right; discriminate. }
  destruct e as [[| | | | | |] fuel r1 r2 | r1 r2 | r1 r2];
    try (right; intros [_ [q [_ []]]]; fail).
  - destruct Hdown as [H | H].
    + left. split; [reflexivity |]. exists p. auto.
    + right. intros [_ [q [Hq Hv]]]. injection Hq as <-. auto.
  - left. split; [reflexivity |]. exists p. auto.
  - destruct Hdown as [H | H].
    + left. split; [reflexivity |]. exists p. auto.
    + right. intros [_ [q [Hq Hv]]]. injection Hq as <-. auto.
Qed.

(** The hold opens only through a lock and a successful advance: the game
    is still running afterwards, and the new active piece was valid on the
    new board. *)
Lemma hold_opens_only_on_advance (e : Hold.event) (s : Hold.State) :
  Hold.canStore s = false ->
  Hold.canStore (Hold.dispatch e s) = true ->
  locksAt e s
  /\ Hold.gameOver (Hold.dispatch e s) = false
  /\ exists promoted,
       Hold.piece (Hold.dispatch e s) = Some promoted
       /\ isValidMove promoted (Hold.board (Hold.dispatch e s)) = Done true.
Proof.
  intros Hc Ho.
  destruct (locksAt_dec e s) as [Hl | Hn];
    [| rewrite (Store.hold_stays_closed e s Hc Hn) in Ho; discriminate].
  split; [exact Hl |].
  destruct Hl as [Hg [p [Hp Hkind]]].
  assert (Hmove : forall r1 r2,
    isValidMove (withY p (py (position p) + 1)) (Hold.board s) = Done false ->
    Hold.canStore (run (Hold.moveDown r1 r2) s) = true ->
    Hold.gameOver (run (Hold.moveDown r1 r2) s) = false
    /\ exists promoted,
         Hold.piece (run (Hold.moveDown r1 r2) s) = Some promoted
         /\ isValidMove promoted (Hold.board (run (Hold.moveDown r1 r2) s))
            = Done true).
  { intros r1 r2 Hv. unfold run, Hold.moveDown. rewrite Hp.
    unfold bind, lift. rewrite Hv. cbn iota beta.
    destruct (mergePieceToBoard Hold.cellId p (Hold.board s))
      as [newBoard | |]; cbn [snd]; try congruence.
    destruct (clearLines newBoard) as [clearedBoard k].
    unfold Hold.setBoard, queue.
    intro Ho'.
    match type of Ho' with
    | Hold.canStore (snd (Hold.afterLock _ _ _ _ _ ?st)) = true =>
        destruct (afterLock_opens_hold r1 r2 s st clearedBoard _ Hc Ho')
          as [Hb [Hg' [promoted [Hpr Hvalid]]]]
    end.
    split; [rewrite Hg'; exact Hg |].
    exists promoted. split; [exact Hpr |]. rewrite Hb. exact Hvalid. }
  destruct e as [k fuel r1 r2 | r1 r2 | r1 r2]; [| | contradiction].
  - destruct k; try contradiction;
      unfold Hold.dispatch, run, Hold.handleKeyPress in *; rewrite Hg in *.
    + apply Hmove; assumption.
    + clear Hmove Hkind. revert Ho. unfold Hold.hardDrop. rewrite Hp.
      unfold bind, lift.
      destruct (Hold.getDropPosition fuel p (Hold.board s))
        as [dropPosition | |]; cbn [snd]; try congruence.
      unfold Hold.setPiece, queue.
      destruct (mergePieceToBoard Hold.cellId (withPosition p dropPosition)
                  (Hold.board s)) as [newBoard | |];
        cbn [snd Hold.canStore]; try congruence.
      destruct (clearLines newBoard) as [clearedBoard k].
      unfold Hold.setBoard, queue.
      intro Ho'.
      match type of Ho' with
      | Hold.canStore (snd (Hold.afterLock _ _ _ _ _ ?st)) = true =>
          destruct (afterLock_opens_hold r1 r2 s st clearedBoard _ Hc Ho')
            as [Hb [Hg' [promoted [Hpr Hvalid]]]]
      end.
      split; [rewrite Hg'; exact Hg |].
      exists promoted. split; [exact Hpr |]. rewrite Hb. exact Hvalid.
  - unfold Hold.dispatch, run, Hold.gravityTick in *. rewrite Hg in *.
    apply Hmove; assumption.
Qed.

End Advance.

Module Reopen.
Import Grid Spec.

(** A soft drop that locks the piece and finds the next piece valid on the
    cleared board installs it and opens the hold. *)
Lemma moveDown_opens_hold (r1 r2 : Z) (s : Hold.State)
  (p np : Piece string) (newBoard clearedBoard : Board) (k : Z) :
  Hold.piece s = Some p ->
  isValidMove (withY p (py (position p) + 1)) (Hold.board s) = Done false ->
  mergePieceToBoard Hold.cellId p (Hold.board s) = Done newBoard ->
  clearLines newBoard = (clearedBoard, k) ->
  Hold.nextPiece s = Some np ->
  isValidMove np clearedBoard = Done true ->
  drawn r1 ->
  Hold.canStore (run (Hold.moveDown r1 r2) s) = true
  /\ Hold.piece (run (Hold.moveDown r1 r2) s) = Some np
  /\ Hold.board (run (Hold.moveDown r1 r2) s) = clearedBoard.
Proof.
  intros Hp Hv Hm Hc Hn Hok Hr.
  destruct (Store.createNewPiece_returns r1 Hr) as [fresh Hfresh].
  unfold_hold. rewrite Hp, Hv, Hm, Hc. cbn [fst snd].
  rewrite Hn, Hok, Hfresh. cbn [negb fst snd].
  repeat (branch; simp_hold); auto.
Qed.

(** The same for the hard drop, which locks the piece at its drop
    position. *)
Lemma hardDrop_opens_hold (fuel : nat) (r1 r2 : Z) (s : Hold.State)
  (p np : Piece string) (dropPosition : Position)
  (newBoard clearedBoard : Board) (k : Z) :
  Hold.piece s = Some p ->
  Hold.getDropPosition fuel p (Hold.board s) = Done dropPosition ->
  mergePieceToBoard Hold.cellId (withPosition p dropPosition) (Hold.board s)
    = Done newBoard ->
  clearLines newBoard = (clearedBoard, k) ->
  Hold.nextPiece s = Some np ->
  isValidMove np clearedBoard = Done true ->
  drawn r1 ->
  Hold.canStore (run (Hold.hardDrop fuel r1 r2) s) = true
  /\ Hold.piece (run (Hold.hardDrop fuel r1 r2) s) = Some np
  /\ Hold.board (run (Hold.hardDrop fuel r1 r2) s) = clearedBoard.
Proof.
  intros Hp Hd Hm Hc Hn Hok Hr.
  destruct (Store.createNewPiece_returns r1 Hr) as [fresh Hfresh].
  unfold_hold. rewrite Hp, Hd. cbn [fst snd]. rewrite Hm, Hc. cbn [fst snd].
  rewrite Hn, Hok, Hfresh. cbn [negb fst snd].
  repeat (branch; simp_hold); auto.
Qed.

(** Over any run of events none of which locks the piece, a closed hold
    stays closed. *)
Lemma hold_closed_along (es : list Hold.event) (s : Hold.State) :
  Hold.canStore s = false -> noLock es s ->
  Hold.canStore (Hold.dispatchAll es s) = false.
Proof.
  revert s. induction es as [|e rest IH]; intros s Hc Hn; simpl; [exact Hc |].
  destruct Hn as [Hne Hrest].
  apply IH; [| exact Hrest].
  apply Store.hold_stays_closed; assumption.
Qed.

End Reopen.

(** The invariant of the canvas build. *)
Module Invariant.
Import Grid Spec.

Lemma replaced_length {A : Type} (x : A) (n : nat) :
  forall l : list A,
    (n < List.length l)%nat ->
    List.length (firstn n l ++ x :: skipn (S n) l) = List.length l.
Proof.
  induction n as [|n IH]; intros [|a l] Hn; cbn in *; try lia.
  f_equal. apply IH. lia.
Qed.

Lemma writeCell_len (b b' : Board) (r c : Z) (v : value) :
  writeCell b r c v = Done b' -> len b' = len b.
Proof.
  unfold writeCell. destruct (index b r) as [row |] eqn:Hrow; [| discriminate].
  intro H. injection H as <-.
  pose proof (index_some_range _ _ _ Hrow) as Hr.
  unfold len in *.
  change (Z.of_nat
            (List.length
               (firstn (Z.to_nat r) b ++ writeSlot row c v
                  :: skipn (S (Z.to_nat r)) b))
          = Z.of_nat (List.length b)).
  rewrite replaced_length by lia. reflexivity.
Qed.

Lemma mergeRow_len (id : value) (pos : Position) (y : Z) (row : Row) :
  forall (x : Z) (b b' : Board),
    mergeRow id pos y row x b = Done b' -> len b' = len b.
Proof.
  induction row as [|v rest IH]; intros x b b' H; cbn [mergeRow] in H.
  - injection H as <-. reflexivity.
  - destruct (truthy v).
    + destruct (writeCell b (py pos + y) (px pos + x) id) as [nb | |] eqn:Hw;
        cbn [obind] in H; try discriminate.
      rewrite (IH _ _ _ H). apply (writeCell_len _ _ _ _ _ Hw).
    + apply (IH _ _ _ H).
Qed.

Lemma mergeRows_len (id : value) (pos : Position) (rows : list Row) :
  forall (y : Z) (b b' : Board),
    mergeRows id pos rows y b = Done b' -> len b' = len b.
Proof.
  induction rows as [|row rest IH]; intros y b b' H; cbn [mergeRows] in H.
  - injection H as <-. reflexivity.
  - destruct (mergeRow id pos y row 0 b) as [nb | |] eqn:Hr;
      cbn [obind] in H; try discriminate.
    rewrite (IH _ _ _ H). apply (mergeRow_len _ _ _ _ _ _ _ Hr).
Qed.

(** Locking a piece and clearing the lines keeps the board at its height. *)
Lemma lock_keeps_height {C : Type} (id : Piece C -> value) (p : Piece C)
  (b newBoard clearedBoard : Board) (k : Z) :
  len b = BOARD_HEIGHT ->
  mergePieceToBoard id p b = Done newBoard ->
  clearLines newBoard = (clearedBoard, k) ->
  len clearedBoard = BOARD_HEIGHT.
Proof.
  intros Hb Hm Hc. unfold mergePieceToBoard in Hm.
  apply mergeRows_len in Hm.
  assert (Hn : len newBoard = BOARD_HEIGHT) by congruence.
  rewrite (ClearLines.clearLines_cleared newBoard Hn) in Hc.
  injection Hc as <- _. apply ClearLines.cleared_len. exact Hn.
Qed.

Lemma createNewPiece_good (r : Z) (p : Piece string) :
  Hold.createNewPiece r = Done p -> goodShape (shape p).
Proof.
  unfold Hold.createNewPiece, createNewPieceFrom.
  destruct (index Hold.SHAPES r) as [[sh c] |] eqn:Hidx; [| discriminate].
  assert (Hgood : goodShape sh).
  { unfold index in Hidx. destruct (r <? 0); [discriminate |].
    apply nth_error_In in Hidx. cbn in Hidx.
    repeat (destruct Hidx as [Hidx | Hidx];
            [injection Hidx as <- _; repeat eexists |]).
    contradiction. }
  destruct (spawnX sh) as [x | |]; cbn [obind]; try discriminate.
  intro H. injection H as <-. exact Hgood.
Qed.

Lemma rotateShape_good (s newShape : list Row) :
  goodShape s -> rotateShape s = Done newShape -> goodShape newShape.
Proof.
  intros [v [vs [rest ->]]]. unfold rotateShape.
  rewrite index_head. intro H. injection H as <-.
  cbn [mapIndexed map rev].
  assert (Hsnoc : forall (l : list value) (a : value),
            exists x xs, l ++ [a] = x :: xs).
  { intros [|x l] a; cbn; eauto. }
  match goal with
  | |- goodShape ((?l ++ [?a]) :: ?t) =>
      destruct (Hsnoc l a) as [x [xs ->]]; exists x, xs, t; reflexivity
  end.
Qed.

Lemma goodShape_first_row {C : Type} (p : Piece C) :
  goodShape (shape p) -> hasFirstRow p.
Proof.
  intros [v [vs [rest H]]]. unfold hasFirstRow. rewrite H, index_head.
  discriminate.
Qed.

(** One conjunct of the invariant about a piece slot. *)
Ltac good_piece :=
  first
    [ assumption
    | match goal with
      | E : ?o = Some ?p, H : goodPiece (Some ?p) |- goodPiece ?o =>
          rewrite E; exact H
      end
    | let q := fresh "q" in
      let Hq := fresh "Hq" in
      intros q Hq; discriminate Hq
    | let q := fresh "q" in
      let Hq := fresh "Hq" in
      intros q Hq; injection Hq as <-;
      cbn [shape withY withX withPosition withShape Hold.kicked];
      first
        [ eapply createNewPiece_good; eassumption
        | match goal with
          | H : goodPiece (Some ?p) |- goodShape (shape ?p) =>
              exact (H p eq_refl)
          | H : goodPiece ?o, E : ?o = Some ?p |- goodShape (shape ?p) =>
              exact (H p E)
          | H : goodPiece (Some ?p), R : rotateShape (shape ?p) = Done ?ns
            |- goodShape ?ns =>
              exact (rotateShape_good _ _ (H p eq_refl) R)
          | H : goodPiece ?o, E : ?o = Some ?p,
            R : rotateShape (shape ?p) = Done ?ns |- goodShape ?ns =>
              exact (rotateShape_good _ _ (H p E) R)
          end ] ].

Lemma afterLock_invariant (r1 r2 : Z) (snap st : Hold.State)
  (clearedBoard : Board) (newScore : Z) :
  invariant st -> goodPiece (Hold.nextPiece snap) ->
  invariant (snd (Hold.afterLock r1 r2 snap clearedBoard newScore st)).
Proof.
  intros [Hb [Hp [Hn Hs]]] Hsnap. unfold invariant. unfold_hold.
  repeat (branch; simp_hold);
    (split; [exact Hb |]); repeat split; good_piece.
Qed.

Lemma moveDown_invariant (r1 r2 : Z) (s : Hold.State) :
  invariant s -> invariant (run (Hold.moveDown r1 r2) s).
Proof.
  intros Hinv. pose proof Hinv as [Hb [Hp [Hn Hs]]].
  unfold run, Hold.moveDown.
  destruct (Hold.piece s) as [p |] eqn:Ep; [| exact Hinv].
  unfold bind at 1. unfold lift at 1.
  destruct (isValidMove (withY p (py (position p) + 1)) (Hold.board s))
    as [[|] | |]; try exact Hinv.
  - unfold Hold.setPiece, queue. cbn [snd]. unfold invariant. simp_hold.
    repeat split; good_piece.
  - unfold bind at 1. unfold lift at 1.
    destruct (mergePieceToBoard Hold.cellId p (Hold.board s))
      as [newBoard | |] eqn:Hm; try exact Hinv.
    destruct (clearLines newBoard) as [clearedBoard k] eqn:Hc.
    unfold bind at 1. unfold Hold.setBoard, queue.
    apply afterLock_invariant; [| exact Hn].
    unfold invariant. simp_hold.
    split; [exact (lock_keeps_height _ _ _ _ _ _ Hb Hm Hc) |].
    repeat split; good_piece.
Qed.

Lemma hardDrop_invariant (fuel : nat) (r1 r2 : Z) (s : Hold.State) :
  invariant s -> invariant (run (Hold.hardDrop fuel r1 r2) s).
Proof.
  intros Hinv. pose proof Hinv as [Hb [Hp [Hn Hs]]].
  unfold run, Hold.hardDrop.
  destruct (Hold.piece s) as [p |] eqn:Ep; [| exact Hinv].
  unfold bind at 1. unfold lift at 1.
  destruct (Hold.getDropPosition fuel p (Hold.board s))
    as [dropPosition | |]; try exact Hinv.
  unfold bind at 1. unfold Hold.setPiece, queue.
  unfold bind at 1. unfold lift at 1.
  destruct (mergePieceToBoard Hold.cellId (withPosition p dropPosition)
              (Hold.board s)) as [newBoard | |] eqn:Hm; cbn [snd];
    try (unfold invariant; simp_hold; repeat split; good_piece).
  destruct (clearLines newBoard) as [clearedBoard k] eqn:Hc.
  unfold bind at 1. unfold Hold.setBoard, queue.
  apply afterLock_invariant; [| exact Hn].
  unfold invariant. simp_hold.
  split; [exact (lock_keeps_height _ _ _ _ _ _ Hb Hm Hc) |].
  repeat split; good_piece.
Qed.

Lemma tryKicks_invariant (newPiece : Piece string) (b : Board)
  (ks : list Position) (st : Hold.State) :
  invariant st -> goodShape (shape newPiece) ->
  invariant (snd (Hold.tryKicks newPiece b ks st)).
Proof.
  intros Hinv Hgood. induction ks as [|kick rest IH]; cbn [Hold.tryKicks];
    [exact Hinv |].
  unfold bind at 1. unfold lift at 1.
  destruct (isValidMove (Hold.kicked newPiece kick) b) as [[|] | |];
    try exact Hinv; [| exact IH].
  destruct Hinv as [Hb [Hp [Hn Hs]]].
  unfold Hold.setPiece, queue, invariant. simp_hold.
  repeat split; try assumption.
  intros q Hq. injection Hq as <-. exact Hgood.
Qed.

Lemma dispatch_invariant (e : Hold.event) (s : Hold.State) :
  invariant s -> invariant (Hold.dispatch e s).
Proof.
  intro Hinv. pose proof Hinv as [Hb [Hp [Hn Hs]]].
  destruct e as [k fuel r1 r2 | r1 r2 | r1 r2]; unfold Hold.dispatch.
  - unfold run, Hold.handleKeyPress.
    destruct (Hold.gameOver s); [exact Hinv |].
    destruct k; try exact Hinv.
    + unfold_hold. repeat (branch; simp_hold); try exact Hinv;
        unfold invariant; simp_hold; repeat split; good_piece.
    + unfold_hold. repeat (branch; simp_hold); try exact Hinv;
        unfold invariant; simp_hold; repeat split; good_piece.
    + apply moveDown_invariant. exact Hinv.
    + apply hardDrop_invariant. exact Hinv.
    + unfold Hold.rotate.
      destruct (Hold.piece s) as [p |] eqn:Ep; [| exact Hinv].
      unfold bind at 1. unfold lift at 1.
      destruct (rotateShape (shape p)) as [newShape | |] eqn:Hrot;
        try exact Hinv.
      unfold bind at 1. unfold lift at 1.
      destruct (isValidMove (withShape p newShape) (Hold.board s))
        as [[|] | |]; try exact Hinv.
      * unfold Hold.setPiece, queue, invariant. simp_hold.
        repeat split; good_piece.
      * apply tryKicks_invariant; [exact Hinv |].
        exact (rotateShape_good _ _ (Hp p eq_refl) Hrot).
    + unfold_hold. repeat (branch; simp_hold); try exact Hinv;
        unfold invariant; simp_hold; repeat split; good_piece.
  - unfold run, Hold.gravityTick.
    destruct (Hold.gameOver s); [exact Hinv |].
    apply moveDown_invariant. exact Hinv.
  - unfold_hold. repeat (branch; simp_hold); try exact Hinv;
      unfold invariant; simp_hold; repeat split; good_piece.
Qed.

(** Every state of the canvas build satisfies the invariant. *)
Lemma reachable_invariant (s : Hold.State) : reachable s -> invariant s.
Proof.
  induction 1 as [stored | e s Hreach IH].
  - unfold invariant. cbn. repeat split; intros q Hq; discriminate Hq.
  - apply dispatch_invariant. exact IH.
Qed.

Lemma tryKicks_keeps_piece (newPiece : Piece string) (b : Board)
  (ks : list Position) (st : Hold.State) :
  Hold.piece st <> None ->
  Hold.piece (snd (Hold.tryKicks newPiece b ks st)) <> None.
Proof.
  intro Hp. induction ks as [|kick rest IH]; cbn [Hold.tryKicks];
    [exact Hp |].
  unfold bind at 1. unfold lift at 1.
  destruct (isValidMove (Hold.kicked newPiece kick) b) as [[|] | |];
    try exact Hp; [discriminate | exact IH].
Qed.

(** Once a piece is active, there always is one. *)
Lemma dispatch_keeps_piece (e : Hold.event) (s : Hold.State) :
  Hold.piece s <> None -> Hold.piece (Hold.dispatch e s) <> None.
Proof.
  intro Hp.
  destruct e as [[| | | | | |] fuel r1 r2 | r1 r2 | r1 r2];
    try (unfold_hold; repeat (branch; simp_hold);
         solve [ assumption | discriminate | congruence ]).
  unfold Hold.dispatch, run, Hold.handleKeyPress.
  destruct (Hold.gameOver s); [exact Hp |].
  unfold Hold.rotate. destruct (Hold.piece s) as [p |] eqn:Ep; [| contradiction].
  unfold bind at 1. unfold lift at 1.
  destruct (rotateShape (shape p)) as [newShape | |]; cbn [snd];
    try (rewrite Ep; discriminate).
  unfold bind at 1. unfold lift at 1.
  destruct (isValidMove (withShape p newShape) (Hold.board s)) as [[|] | |];
    cbn [snd]; try (rewrite Ep; discriminate).
  - discriminate.
  - apply tryKicks_keeps_piece. rewrite Ep. discriminate.
Qed.

(** In every state of the canvas build that has an active piece, a store
    runs to its end and closes the hold. *)
Lemma reachable_store_closes_hold (r : Z) (s : Hold.State) :
  reachable s -> Hold.piece s <> None -> drawn r ->
  Hold.canStore (run (Hold.storePiece r) s) = false.
Proof.
  intros Hreach Hp Hr.
  destruct (reachable_invariant s Hreach) as [Hb [_ [_ Hs]]].
  apply Store.store_closes_hold; try assumption.
  intros sp Hsp. apply goodShape_first_row. exact (Hs sp Hsp).
Qed.

End Invariant.

(** C7.  In the canvas build: (1) a store with an active piece leaves
    [canStore] false, in every state the component can reach (and in every
    state with a board of [BOARD_HEIGHT] rows and a held piece that has a
    first row); (2) from a state with [canStore] false, after any
    events none of which locks the piece, [canStore] is still false and a
    store changes nothing; (3) an event turns [canStore] from false to true
    only by locking the piece and installing a next piece that is valid on
    the new board, the game still running; (4) a soft drop or hard drop that
    locks the piece and finds its next piece valid sets [canStore] to true
    with a piece active, so that a store gets past its guard again. *)
Theorem C7_store_once_per_piece :
  (forall (r : Z) (s : Hold.State),
     Spec.reachable s ->
     Hold.piece s <> None ->
     Spec.drawn r ->
     Hold.canStore (run (Hold.storePiece r) s) = false)
  /\
  (forall (r : Z) (s : Hold.State),
     Hold.piece s <> None ->
     Spec.drawn r ->
     len (Hold.board s) = BOARD_HEIGHT ->
     (forall sp, Hold.storedPiece s = Some sp -> Spec.hasFirstRow sp) ->
     Hold.canStore (run (Hold.storePiece r) s) = false)
  /\
  (forall (es : list Hold.event) (r : Z) (s : Hold.State),
     Hold.canStore s = false ->
     Spec.noLock es s ->
     Hold.canStore (Hold.dispatchAll es s) = false
     /\ run (Hold.storePiece r) (Hold.dispatchAll es s)
        = Hold.dispatchAll es s)
  /\
  (forall (e : Hold.event) (s : Hold.State),
     Hold.canStore s = false ->
     Hold.canStore (Hold.dispatch e s) = true ->
     Spec.locksAt e s
     /\ Hold.gameOver (Hold.dispatch e s) = false
     /\ exists promoted,
          Hold.piece (Hold.dispatch e s) = Some promoted
          /\ Grid.isValidMove promoted (Hold.board (Hold.dispatch e s))
             = Done true)
  /\
  (forall (r1 r2 : Z) (s : Hold.State) (p np : Grid.Piece string)
          (newBoard clearedBoard : Grid.Board) (k : Z),
     Hold.piece s = Some p ->
     Grid.isValidMove (Grid.withY p (Grid.py (Grid.position p) + 1))
       (Hold.board s) = Done false ->
     Grid.mergePieceToBoard Hold.cellId p (Hold.board s) = Done newBoard ->
     Grid.clearLines newBoard = (clearedBoard, k) ->
     Hold.nextPiece s = Some np ->
     Grid.isValidMove np clearedBoard = Done true ->
     Spec.drawn r1 ->
     Hold.canStore (run (Hold.moveDown r1 r2) s) = true
     /\ Hold.piece (run (Hold.moveDown r1 r2) s) = Some np)
  /\
  (forall (fuel : nat) (r1 r2 : Z) (s : Hold.State) (p np : Grid.Piece string)
          (dropPosition : Grid.Position)
          (newBoard clearedBoard : Grid.Board) (k : Z),
     Hold.piece s = Some p ->
     Hold.getDropPosition fuel p (Hold.board s) = Done dropPosition ->
     Grid.mergePieceToBoard Hold.cellId (Grid.withPosition p dropPosition)
       (Hold.board s) = Done newBoard ->
     Grid.clearLines newBoard = (clearedBoard, k) ->
     Hold.nextPiece s = Some np ->
     Grid.isValidMove np clearedBoard = Done true ->
     Spec.drawn r1 ->
     Hold.canStore (run (Hold.hardDrop fuel r1 r2) s) = true
     /\ Hold.piece (run (Hold.hardDrop fuel r1 r2) s) = Some np).
Proof.
  split; [exact Invariant.reachable_store_closes_hold |].
  split; [exact Store.store_closes_hold |].
  split.
  { intros es r s Hc Hn.
    pose proof (Reopen.hold_closed_along es s Hc Hn) as Hclosed.
    split; [exact Hclosed | apply Store.store_noop; exact Hclosed]. }
  split; [exact Advance.hold_opens_only_on_advance |].
  split.
  - intros r1 r2 s p np newBoard clearedBoard k Hp Hv Hm Hc Hn Hok Hr.
    destruct (Reopen.moveDown_opens_hold r1 r2 s p np newBoard clearedBoard k
                Hp Hv Hm Hc Hn Hok Hr) as [H1 [H2 _]].
    auto.
  - intros fuel r1 r2 s p np dropPosition newBoard clearedBoard k
           Hp Hd Hm Hc Hn Hok Hr.
    destruct (Reopen.hardDrop_opens_hold fuel r1 r2 s p np dropPosition
                newBoard clearedBoard k Hp Hd Hm Hc Hn Hok Hr) as [H1 [H2 _]].
    auto.
Qed.

(** C10.  In the canvas build, with [canStore] true, a piece active and a
    piece held that is not valid at its spawn position on the current board,
    [storePiece] changes nothing but [canStore], which it sets to false:
    active piece, held piece, board, score and every other field stay. *)
Theorem C10_failed_swap_consumes_hold :
  forall (r x : Z) (s : Hold.State) (p sp : Grid.Piece string),
    Hold.canStore s = true ->
    Hold.piece s = Some p ->
    Hold.storedPiece s = Some sp ->
    Grid.spawnX (Grid.shape sp) = Done x ->
    Grid.isValidMove (Grid.withPosition sp (Grid.mkPosition x 0))
      (Hold.board s) = Done false ->
    run (Hold.storePiece r) s
      = Hold.mkState (Hold.board s) (Hold.piece s) (Hold.nextPiece s)
          (Hold.score s) (Hold.level s) (Hold.gameOver s) (Hold.speed s)
          (Hold.storedPiece s) false (Hold.highScore s).
Proof.
  intros r x s p sp Hc Hp Hs Hx Hv. unfold_hold.
  rewrite Hc, Hp, Hs, Hx, Hv. simp_hold. cbn [orb isNull].
  rewrite Hp, Hs. reflexivity.
Qed.

(** ** Hard drop (claim C8) *)

(** In the flat build a hard drop is a soft drop: whenever its loop finds the
    drop row, the state it leaves is the one [moveDown] alone leaves.  The
    [setPiece] it queues first is overwritten by the [setPiece] of the
    [moveDown] it calls, which still sees the piece where it was. *)
Lemma Flat3D_hardDrop_is_moveDown (fuel : nat) (r1 r2 : Z) (s : Flat3D.State)
  (p : Grid.Piece string) (newY : Z) :
  Flat3D.piece s = Some p ->
  Grid.dropLoop fuel p (Flat3D.board s) (Grid.py (Grid.position p)) = Done newY ->
  run (Flat3D.hardDrop fuel r1 r2) s = run (Flat3D.moveDown r1 r2) s.
Proof.
  destruct s as [b pc nx sc lv go sp]. destruct p as [sh [x y] c].
  cbn [Flat3D.piece Flat3D.board Grid.position Grid.py]. intros -> Hdrop.
  destruct fuel as [|fuel]; [discriminate |].
  cbn [Grid.dropLoop] in Hdrop. unfold obind in Hdrop.
  unfold run, Flat3D.hardDrop. cbn [Flat3D.piece Flat3D.board Grid.position Grid.py].
  unfold bind at 1. unfold lift at 1. cbn [Grid.dropLoop]. unfold obind.
  unfold Flat3D.moveDown.
  cbn [Flat3D.piece Flat3D.board Flat3D.score Flat3D.level Flat3D.nextPiece
       Grid.position Grid.py].
  destruct (Grid.isValidMove
              (Grid.withY (Grid.mkPiece sh (Grid.mkPosition x y) c) (y + 1)) b)
    as [[|] | |] eqn:Ev; try discriminate.
  - rewrite Hdrop. unfold_flat_setters. reflexivity.
  - injection Hdrop as <-. unfold_flat_setters. simp_flat.
    repeat (branch; simp_flat); reflexivity.
Qed.

(** The canvas build, where the hard drop does what a run of soft drops
    does. *)
Module HardDrop.
Import Grid Spec.

(** A piece with a cell is not valid once that cell is at or below the
    floor. *)
Lemma invalid_below_floor {C : Type} (p : Piece C) (b : Board) (dx dy y : Z) :
  len b = BOARD_HEIGHT ->
  subCell (shape p) dx dy ->
  BOARD_HEIGHT <= y + dy ->
  isValidMove (withY p y) b = Done false.
Proof.
  intros Hlen Hcell Hfloor. unfold isValidMove.
  destruct (ValidMove.scanRows_blocked b (position (withY p y)) Hlen
              (shape (withY p y)) 0) as [ok [E H]].
  rewrite E. f_equal. apply H. exists dx, dy. split; [exact Hcell |].
  unfold blocked. right; right; left. cbn. lia.
Qed.

(** With fuel for every row down to the floor, the loop of
    [getDropPosition] ends, in the drop row. *)
Lemma dropLoop_finds_row {C : Type} (p : Piece C) (b : Board) :
  len b = BOARD_HEIGHT ->
  (exists dx dy, subCell (shape p) dx dy) ->
  forall (fuel : nat) (dropY : Z),
    (Z.to_nat (BOARD_HEIGHT - dropY) < fuel)%nat ->
    exists y', dropLoop fuel p b dropY = Done y'
      /\ dropY <= y'
      /\ (forall t, dropY < t <= y' -> isValidMove (withY p t) b = Done true)
      /\ isValidMove (withY p (y' + 1)) b = Done false.
Proof.
  intros Hlen [dx [dy Hcell]].
  assert (Hdy : 0 <= dy).
  { destruct Hcell as [row [Hrow _]].
    apply index_some_range in Hrow. lia. }
  induction fuel as [|fuel IH]; intros dropY Hfuel; [lia |].
  cbn [dropLoop].
  destruct (Store.isValidMove_returns (withY p (dropY + 1)) b Hlen)
    as [ok Hok].
  rewrite Hok. cbn [obind]. destruct ok.
  - assert (Hroom : dropY + 1 + dy < BOARD_HEIGHT).
    { destruct (Z.lt_ge_cases (dropY + 1 + dy) BOARD_HEIGHT) as [H | H];
        [exact H |].
      rewrite (invalid_below_floor p b dx dy (dropY + 1) Hlen Hcell) in Hok
        by lia.
      discriminate. }
    destruct (IH (dropY + 1)) as [y' [Hloop [Hle [Hvalid Hstop]]]]; [lia |].
    exists y'. split; [exact Hloop |]. split; [lia |].
    split; [| exact Hstop].
    intros t Ht. destruct (Z.eq_dec t (dropY + 1)) as [-> | Hne];
      [exact Hok | apply Hvalid; lia].
  - exists dropY. split; [reflexivity |]. split; [lia |].
    split; [intros t Ht; lia | exact Hok].
Qed.

(** A soft drop of a piece that can go down only moves it. *)
Lemma moveDown_moves (r1 r2 : Z) (s : Hold.State) (p : Piece string) :
  Hold.piece s = Some p ->
  isValidMove (withY p (py (position p) + 1)) (Hold.board s) = Done true ->
  run (Hold.moveDown r1 r2) s
    = holdSetPiece s (withY p (py (position p) + 1)).
Proof.
  intros Hp Hv. unfold_hold. rewrite Hp, Hv. reflexivity.
Qed.

(** [n] soft drops over valid rows move the piece [n] rows down. *)
Lemma softDrops_fall (r1 r2 : Z) (s : Hold.State) (p : Piece string) (n : nat) :
  forall t : Z,
    (forall u, t < u <= t + Z.of_nat n ->
       isValidMove (withY p u) (Hold.board s) = Done true) ->
    iterate n (run (Hold.moveDown r1 r2)) (holdSetPiece s (withY p t))
      = holdSetPiece s (withY p (t + Z.of_nat n)).
Proof.
  induction n as [|n IH]; intros t Hvalid; cbn [iterate].
  - rewrite Z.add_0_r. reflexivity.
  - rewrite (moveDown_moves r1 r2 _ (withY p t)); [| reflexivity |].
    + change (iterate n (run (Hold.moveDown r1 r2))
                (holdSetPiece s (withY p (t + 1)))
              = holdSetPiece s (withY p (t + Z.of_nat (S n)))).
      rewrite IH.
      * replace (t + 1 + Z.of_nat n) with (t + Z.of_nat (S n)) by lia.
        reflexivity.
      * intros u Hu. apply Hvalid. lia.
    + change (isValidMove (withY p (t + 1)) (Hold.board s) = Done true).
      apply (Hvalid (t + 1)). lia.
Qed.

(** The tail shared by [moveDown] and [hardDrop] treats board, pieces, flag
    and hold flag alike whatever the score it is given. *)
Lemma afterLock_sameButScore (r1 r2 : Z) (snap st : Hold.State)
  (clearedBoard : Board) (score1 score2 : Z) :
  sameButScore
    (snd (Hold.afterLock r1 r2 snap clearedBoard score1 st))
    (snd (Hold.afterLock r1 r2 snap clearedBoard score2 st)).
Proof.
  unfold sameButScore. unfold_hold.
  repeat (branch; simp_hold); repeat split; reflexivity.
Qed.

(** The tail reads only the high score, the level and the next piece of the
    render it runs in. *)
Lemma afterLock_snapshot (r1 r2 : Z) (a b : Hold.State)
  (clearedBoard : Board) (newScore : Z) :
  Hold.highScore a = Hold.highScore b ->
  Hold.level a = Hold.level b ->
  Hold.nextPiece a = Hold.nextPiece b ->
  Hold.afterLock r1 r2 a clearedBoard newScore
    = Hold.afterLock r1 r2 b clearedBoard newScore.
Proof.
  intros Hh Hl Hn. unfold Hold.afterLock. rewrite Hh, Hl, Hn. reflexivity.
Qed.

(** The two drops in the shape of their shared tail, and when the merge
    throws. *)
Lemma moveDown_locked (r1 r2 : Z) (s : Hold.State) (p : Piece string)
  (newBoard clearedBoard : Board) (k : Z) :
  Hold.piece s = Some p ->
  isValidMove (withY p (py (position p) + 1)) (Hold.board s) = Done false ->
  mergePieceToBoard Hold.cellId p (Hold.board s) = Done newBoard ->
  clearLines newBoard = (clearedBoard, k) ->
  run (Hold.moveDown r1 r2) s
    = snd (Hold.afterLock r1 r2 s clearedBoard
             (Hold.score s + k * k * 100 + 10)
             (Hold.mkState clearedBoard (Hold.piece s) (Hold.nextPiece s)
                (Hold.score s) (Hold.level s) (Hold.gameOver s)
                (Hold.speed s) (Hold.storedPiece s) (Hold.canStore s)
                (Hold.highScore s))).
Proof.
  intros Hp Hv Hm Hc. unfold run, Hold.moveDown. rewrite Hp.
  unfold bind at 1. unfold lift at 1. rewrite Hv.
  unfold bind at 1. unfold lift at 1. rewrite Hm, Hc.
  unfold bind at 1. unfold Hold.setBoard, queue. rewrite Hp. reflexivity.
Qed.

Lemma moveDown_throws (r1 r2 : Z) (s : Hold.State) (p : Piece string) :
  Hold.piece s = Some p ->
  isValidMove (withY p (py (position p) + 1)) (Hold.board s) = Done false ->
  (forall newBoard,
     mergePieceToBoard Hold.cellId p (Hold.board s) <> Done newBoard) ->
  run (Hold.moveDown r1 r2) s = s.
Proof.
  intros Hp Hv Hm. unfold run, Hold.moveDown. rewrite Hp.
  unfold bind at 1. unfold lift at 1. rewrite Hv.
  unfold bind at 1. unfold lift at 1.
  destruct (mergePieceToBoard Hold.cellId p (Hold.board s)) as [nb | |];
    [exfalso; apply (Hm nb); reflexivity | reflexivity | reflexivity].
Qed.

Lemma hardDrop_locked (fuel : nat) (r1 r2 : Z) (s : Hold.State)
  (p : Piece string) (dropPosition : Position)
  (newBoard clearedBoard : Board) (k : Z) :
  Hold.piece s = Some p ->
  Hold.getDropPosition fuel p (Hold.board s) = Done dropPosition ->
  mergePieceToBoard Hold.cellId (withPosition p dropPosition) (Hold.board s)
    = Done newBoard ->
  clearLines newBoard = (clearedBoard, k) ->
  run (Hold.hardDrop fuel r1 r2) s
    = snd (Hold.afterLock r1 r2 s clearedBoard
             (Hold.score s + k * k * 100 + 10
              + (py dropPosition - py (position p)))
             (Hold.mkState clearedBoard (Some (withPosition p dropPosition))
                (Hold.nextPiece s) (Hold.score s) (Hold.level s)
                (Hold.gameOver s) (Hold.speed s) (Hold.storedPiece s)
                (Hold.canStore s) (Hold.highScore s))).
Proof.
  intros Hp Hd Hm Hc. unfold run, Hold.hardDrop. rewrite Hp.
  unfold bind at 1. unfold lift at 1. rewrite Hd.
  unfold bind at 1. unfold Hold.setPiece, queue.
  unfold bind at 1. unfold lift at 1. rewrite Hm, Hc.
  unfold bind at 1. unfold Hold.setBoard, queue. reflexivity.
Qed.

Lemma hardDrop_throws (fuel : nat) (r1 r2 : Z) (s : Hold.State)
  (p : Piece string) (dropPosition : Position) :
  Hold.piece s = Some p ->
  Hold.getDropPosition fuel p (Hold.board s) = Done dropPosition ->
  (forall newBoard,
     mergePieceToBoard Hold.cellId (withPosition p dropPosition) (Hold.board s)
     <> Done newBoard) ->
  run (Hold.hardDrop fuel r1 r2) s
    = holdSetPiece s (withPosition p dropPosition).
Proof.
  intros Hp Hd Hm. unfold run, Hold.hardDrop. rewrite Hp.
  unfold bind at 1. unfold lift at 1. rewrite Hd.
  unfold bind at 1. unfold Hold.setPiece, queue.
  unfold bind at 1. unfold lift at 1.
  destruct (mergePieceToBoard Hold.cellId (withPosition p dropPosition)
              (Hold.board s)) as [nb | |];
    [exfalso; apply (Hm nb); reflexivity | reflexivity | reflexivity].
Qed.

Lemma iterate_last {A : Type} (f : A -> A) (n : nat) (a : A) :
  iterate (S n) f a = f (iterate n f a).
Proof.
  revert a. induction n as [|n IH]; intro a; [reflexivity |].
  cbn [iterate] in *. apply IH.
Qed.

(** X12.  The hard drop of the canvas build against soft drops until the
    piece locks.  For a piece with at least one cell on a board of [BOARD_HEIGHT]
    rows, and fuel for every row down to the floor: [getDropPosition]
    returns the drop row [y'], the largest row reachable by valid unit
    descents; the hard drop and [y' - y + 1] soft drops leave the same board,
    pieces, game-over flag and hold flag; and when the merge at row [y']
    succeeds both clear the same [k] lines of the same merged board, the hard
    drop scoring [y' - y] more. *)
Lemma hardDrop_matches_softDrops (fuel : nat) (r1 r2 : Z) (s : Hold.State)
  (p : Piece string) :
  Hold.piece s = Some p ->
  len (Hold.board s) = BOARD_HEIGHT ->
  (exists dx dy, subCell (shape p) dx dy) ->
  (Z.to_nat (BOARD_HEIGHT - py (position p)) < fuel)%nat ->
  exists y',
    Hold.getDropPosition fuel p (Hold.board s)
      = Done (mkPosition (px (position p)) y')
    /\ dropRow p (Hold.board s) y'
    /\ sameButScore
         (run (Hold.hardDrop fuel r1 r2) s)
         (iterate (S (Z.to_nat (y' - py (position p))))
            (run (Hold.moveDown r1 r2)) s)
    /\ (forall (newBoard clearedBoard : Board) (k : Z),
          mergePieceToBoard Hold.cellId (withY p y') (Hold.board s)
            = Done newBoard ->
          clearLines newBoard = (clearedBoard, k) ->
          Hold.board (run (Hold.hardDrop fuel r1 r2) s) = clearedBoard
          /\ Hold.score (run (Hold.hardDrop fuel r1 r2) s)
             = Hold.score s + k * k * 100 + 10 + (y' - py (position p))
          /\ Hold.score
               (iterate (S (Z.to_nat (y' - py (position p))))
                  (run (Hold.moveDown r1 r2)) s)
             = Hold.score s + k * k * 100 + 10).
Proof.
  intros Hp Hlen Hcell Hfuel.
  destruct (dropLoop_finds_row p (Hold.board s) Hlen Hcell fuel
              (py (position p)) Hfuel) as [y' [Hloop [Hle [Hvalid Hstop]]]].
  exists y'.
  assert (Hget : Hold.getDropPosition fuel p (Hold.board s)
                 = Done (mkPosition (px (position p)) y')).
  { unfold Hold.getDropPosition. rewrite Hloop. reflexivity. }
  split; [exact Hget |]. split; [repeat split; assumption |].
  (* the soft drops before the lock *)
  assert (Hfall : iterate (Z.to_nat (y' - py (position p)))
                    (run (Hold.moveDown r1 r2)) s
                  = holdSetPiece s (withY p y')).
  { destruct s as [b pc nx sc lv go sp st cs hs].
    destruct p as [sh [x y] c]. cbn in Hp. subst pc.
    pose proof (softDrops_fall r1 r2
                  (Hold.mkState b (Some (mkPiece sh (mkPosition x y) c))
                     nx sc lv go sp st cs hs)
                  (mkPiece sh (mkPosition x y) c)
                  (Z.to_nat (y' - y)) y) as Hs.
    cbn [position py] in *.
    replace (y + Z.of_nat (Z.to_nat (y' - y))) with y' in Hs by lia.
    apply Hs. intros u Hu. apply Hvalid. lia. }
  rewrite iterate_last, Hfall.
  assert (Hstop' :
    isValidMove
      (withY (withY p y') (py (position (withY p y')) + 1))
      (Hold.board (holdSetPiece s (withY p y')))
    = Done false) by exact Hstop.
  destruct (mergePieceToBoard Hold.cellId (withY p y') (Hold.board s))
    as [newBoard | |] eqn:Hmerge.
  - destruct (clearLines newBoard) as [clearedBoard k] eqn:Hclear.
    rewrite (hardDrop_locked fuel r1 r2 s p _ newBoard clearedBoard k
               Hp Hget Hmerge Hclear).
    rewrite (moveDown_locked r1 r2 (holdSetPiece s (withY p y')) (withY p y')
               newBoard clearedBoard k eq_refl Hstop' Hmerge Hclear).
    rewrite (afterLock_snapshot r1 r2 (holdSetPiece s (withY p y')) s)
      by reflexivity.
    cbn [holdSetPiece Hold.board Hold.piece Hold.nextPiece Hold.score
         Hold.level Hold.gameOver Hold.speed Hold.storedPiece Hold.canStore
         Hold.highScore py].
    split.
    + apply afterLock_sameButScore.
    + intros nb cb k' Hnb Hcb. injection Hnb as <-.
      rewrite Hclear in Hcb. injection Hcb as <- <-.
      unfold_hold.
      repeat (branch; simp_hold); repeat split; reflexivity.
  - rewrite (hardDrop_throws fuel r1 r2 s p _ Hp Hget)
      by (intros nb Hnb;
          change (withPosition p (mkPosition (px (position p)) y'))
            with (withY p y') in Hnb; congruence).
    rewrite (moveDown_throws r1 r2 (holdSetPiece s (withY p y')) (withY p y')
               eq_refl Hstop')
      by (intros nb Hnb; cbn [holdSetPiece Hold.board] in Hnb; congruence).
    split; [repeat split; reflexivity |].
    intros nb cb k Hnb. discriminate.
  - rewrite (hardDrop_throws fuel r1 r2 s p _ Hp Hget)
      by (intros nb Hnb;
          change (withPosition p (mkPosition (px (position p)) y'))
            with (withY p y') in Hnb; congruence).
    rewrite (moveDown_throws r1 r2 (holdSetPiece s (withY p y')) (withY p y')
               eq_refl Hstop')
      by (intros nb Hnb; cbn [holdSetPiece Hold.board] in Hnb; congruence).
    split; [repeat split; reflexivity |].
    intros nb cb k Hnb. discriminate.
Qed.

End HardDrop.

(** The state of the example is the one the flat build mounts into when
    the I piece and then the O piece are drawn. *)
Lemma flatSpawned_is_reached :
  run (Flat3D.spawnEffect 0 1) Flat3D.initialState = Scenario.flatSpawned.
Proof. reflexivity. Qed.

(** C8 (evaluation at the failing input).  In the flat build, on the empty
    board with the I piece at row 0, the loop of [hardDrop] finds drop row 19,
    but the state after [hardDrop] has the piece at row 1 and the board still
    empty: nothing was merged.  Twenty soft drops from the same state, and the
    hard drop of the canvas build, leave the I piece locked in row 19. *)
Theorem C8_flat_hardDrop_does_not_drop :
  Grid.dropLoop 30 Scenario.holdI (Flat3D.board Scenario.flatSpawned) 0
    = Done 19
  /\ Flat3D.piece (run (Flat3D.hardDrop 30 0 0) Scenario.flatSpawned)
     = Some (Grid.withY Scenario.holdI 1)
  /\ Flat3D.board (run (Flat3D.hardDrop 30 0 0) Scenario.flatSpawned)
     = Grid.emptyBoard
  /\ Flat3D.board
       (Spec.iterate 20 (run (Flat3D.moveDown 0 0)) Scenario.flatSpawned)
     = Scenario.boardWithI (Num 1)
  /\ Hold.board (run (Hold.hardDrop 30 0 0) Scenario.holdSpawned)
     = Scenario.boardWithI (Num 1).
Proof.
  vm_compute. repeat split; reflexivity.
Qed.

(** ** Soft drops of the I piece on the empty board (claim C9) *)

Module SoftDrop.
Import Grid Spec.

(** A soft drop of a piece that can go down only moves it. *)
Lemma Dom_moveDown_moves (r1 r2 : Z) (s : Dom.State) (p : Piece Z) :
  Dom.piece s = Some p ->
  isValidMove (withY p (py (position p) + 1)) (Dom.board s) = Done true ->
  run (Dom.moveDown r1 r2) s = domSetPiece s (withY p (py (position p) + 1)).
Proof.
  intros Hp Hv. unfold_dom. rewrite Hp, Hv. reflexivity.
Qed.

(** A soft drop of a piece that cannot go down merges it, clears the lines
    and scores, whatever happens to the next piece. *)
Lemma Dom_moveDown_locks (r1 r2 : Z) (s : Dom.State) (p : Piece Z)
  (newBoard clearedBoard : Board) (k : Z) :
  Dom.piece s = Some p ->
  isValidMove (withY p (py (position p) + 1)) (Dom.board s) = Done false ->
  mergePieceToBoard Dom.cellId p (Dom.board s) = Done newBoard ->
  clearLines newBoard = (clearedBoard, k) ->
  Dom.board (run (Dom.moveDown r1 r2) s) = clearedBoard
  /\ Dom.score (run (Dom.moveDown r1 r2) s) = Dom.score s + k * k * 100 + 10.
Proof.
  intros Hp Hv Hm Hc. unfold_dom. rewrite Hp, Hv, Hm, Hc. simp_dom.
  repeat (branch; simp_dom); auto.
Qed.

(** The I piece is valid in every row of the empty board, and in none
    below. *)
Lemma domI_valid_rows (n : nat) :
  (n <= 19)%nat ->
  isValidMove (withY Scenario.domI (Z.of_nat n)) emptyBoard = Done true.
Proof.
  intro Hn. do 20 (destruct n as [|n]; [reflexivity |]). lia.
Qed.

Lemma domI_falls (r1 r2 : Z) (next : option (Piece Z)) (n : nat) (t : nat) :
  (t + n <= 19)%nat ->
  iterate n (run (Dom.moveDown r1 r2))
    (domSetPiece (Scenario.domSpawned next)
       (withY Scenario.domI (Z.of_nat t)))
  = domSetPiece (Scenario.domSpawned next)
      (withY Scenario.domI (Z.of_nat (t + n))).
Proof.
  revert t. induction n as [|n IH]; intros t Ht; cbn [iterate].
  - rewrite Nat.add_0_r. reflexivity.
  - rewrite (Dom_moveDown_moves r1 r2 _ (withY Scenario.domI (Z.of_nat t)));
      [| reflexivity |].
    + cbn [withY withPosition position py px shape color Scenario.domI].
      replace (Z.of_nat t + 1) with (Z.of_nat (S t)) by lia.
      replace (t + S n)%nat with (S t + n)%nat by lia.
      apply (IH (S t)). lia.
    + cbn [withY withPosition position py px shape color Scenario.domI
           Dom.board domSetPiece Scenario.domSpawned].
      replace (Z.of_nat t + 1) with (Z.of_nat (S t)) by lia.
      apply (domI_valid_rows (S t)). lia.
Qed.

End SoftDrop.

(** The state of the example is the one the DOM build mounts into when
    the I piece and then the O piece are drawn. *)
Lemma domSpawned_is_reached :
  run (Dom.spawnEffect 0 1) Dom.initialState
  = Scenario.domSpawned (Some Scenario.domO).
Proof. reflexivity. Qed.

(** C9 as stated fails: the seventeenth soft drop after the spawn does not
    lock the I piece.  It moves it from row 16 to row 17, where its check
    passes, and the board is still empty. *)
Lemma C9_counterexample_drop_17_moves :
  Grid.isValidMove (Grid.withY Scenario.domI 17) Grid.emptyBoard = Done true
  /\ Dom.piece
       (Spec.iterate 17 (run (Dom.moveDown 0 0))
          (Scenario.domSpawned (Some Scenario.domO)))
     = Some (Grid.withY Scenario.domI 17)
  /\ Dom.board
       (Spec.iterate 17 (run (Dom.moveDown 0 0))
          (Scenario.domSpawned (Some Scenario.domO)))
     = Grid.emptyBoard
  /\ Dom.score
       (Spec.iterate 17 (run (Dom.moveDown 0 0))
          (Scenario.domSpawned (Some Scenario.domO)))
     = 0.
Proof.
  vm_compute. repeat split; reflexivity.
Qed.

(** C9 (amended).  On the empty board the spawned I piece (one row of four
    cells) is at row 0 with its cells in columns 3 to 6; [n] soft drops, for
    [n] up to 19, move it to row [n] with the same shape and change nothing
    else - so three soft drops put it in row 3; row 19 is the last valid row;
    and it is the twentieth soft drop that locks it, in row 19, for a score
    of 10. *)
Theorem C9_I_piece_locks_on_drop_20 :
  forall (r1 r2 : Z) (next : option (Grid.Piece Z)),
    Dom.createNewPiece 0 = Done Scenario.domI
    /\ Grid.shape Scenario.domI = [[Num 1; Num 1; Num 1; Num 1]]
    /\ Grid.position Scenario.domI = Grid.mkPosition 3 0
    /\ (forall n : nat, (n <= 19)%nat ->
          Spec.iterate n (run (Dom.moveDown r1 r2)) (Scenario.domSpawned next)
          = Spec.domSetPiece (Scenario.domSpawned next)
              (Grid.mkPiece [[Num 1; Num 1; Num 1; Num 1]]
                 (Grid.mkPosition 3 (Z.of_nat n)) 1))
    /\ Grid.isValidMove (Grid.withY Scenario.domI 19) Grid.emptyBoard
       = Done true
    /\ Grid.isValidMove (Grid.withY Scenario.domI 20) Grid.emptyBoard
       = Done false
    /\ Dom.board
         (Spec.iterate 20 (run (Dom.moveDown r1 r2)) (Scenario.domSpawned next))
       = Scenario.boardWithI (Num 1)
    /\ Dom.score
         (Spec.iterate 20 (run (Dom.moveDown r1 r2)) (Scenario.domSpawned next))
       = 10.
Proof.
  intros r1 r2 next.
  assert (Hfall : forall n : nat, (n <= 19)%nat ->
            Spec.iterate n (run (Dom.moveDown r1 r2)) (Scenario.domSpawned next)
            = Spec.domSetPiece (Scenario.domSpawned next)
                (Grid.withY Scenario.domI (Z.of_nat n))).
  { intros n Hn.
    exact (SoftDrop.domI_falls r1 r2 next n 0 Hn). }
  split; [reflexivity |]. split; [reflexivity |]. split; [reflexivity |].
  split; [exact Hfall |].
  split; [reflexivity |]. split; [reflexivity |].
  change 20%nat with (19 + 1)%nat.
  assert (Hsplit : forall (f : Dom.State -> Dom.State) s,
            Spec.iterate (19 + 1) f s = f (Spec.iterate 19 f s)).
  { intros f s. generalize 19%nat as m. intro m. revert s.
    induction m as [|m IH]; intro s; [reflexivity |].
    cbn [Nat.add Spec.iterate]. apply IH. }
  rewrite Hsplit, (Hfall 19%nat) by lia.
  destruct (SoftDrop.Dom_moveDown_locks r1 r2
              (Spec.domSetPiece (Scenario.domSpawned next)
                 (Grid.withY Scenario.domI (Z.of_nat 19)))
              (Grid.withY Scenario.domI 19)
              (Scenario.boardWithI (Num 1)) (Scenario.boardWithI (Num 1)) 0)
    as [Hboard Hscore]; try reflexivity.
  split; [exact Hboard | rewrite Hscore; reflexivity].
Qed.

(** ** The theorems at concrete inputs *)

(** C1 on the empty board and the empty volume, for the spawned I piece. *)
Lemma C1_witness :
  (len Grid.emptyBoard = BOARD_HEIGHT /\
   exists ok, Grid.isValidMove Scenario.domI Grid.emptyBoard = Done ok /\
     (ok = false <->
      exists dx dy, Spec.subCell (Grid.shape Scenario.domI) dx dy /\
        Spec.blocked Grid.emptyBoard
          (Grid.px (Grid.position Scenario.domI) + dx)
          (Grid.py (Grid.position Scenario.domI) + dy)))
  /\
  (Spec.wellFormed3 Scenario.emptyVolume /\
   exists ok,
     Volumetric.isValidMove Scenario.volumeI Scenario.emptyVolume = Done ok /\
     (ok = false <->
      exists dx dy dz,
        Spec.subCell3 (Volumetric.shape Scenario.volumeI) dx dy dz /\
        Spec.blocked3 Scenario.emptyVolume
          (Volumetric.px (Volumetric.position Scenario.volumeI) + dx)
          (Volumetric.py (Volumetric.position Scenario.volumeI) + dy)
          (Volumetric.pz (Volumetric.position Scenario.volumeI) + dz))).
Proof.
  assert (Hw : Spec.wellFormed3 Scenario.emptyVolume).
  { split; [reflexivity | repeat constructor]. }
  split.
  - split; [reflexivity |].
    apply (proj1 C1_isValidMove_false_iff_blocked Z Scenario.domI
             Grid.emptyBoard).
    reflexivity.
  - split; [exact Hw |].
    apply (proj2 C1_isValidMove_false_iff_blocked Scenario.volumeI
             Scenario.emptyVolume).
    exact Hw.
Defined.

(** C2 on a board, and on a volume, whose bottom row is full. *)
Lemma C2_witness :
  (len Scenario.fullBottom = BOARD_HEIGHT /\
   Grid.clearLines Scenario.fullBottom
     = (Spec.cleared Scenario.fullBottom, Spec.fullCount Scenario.fullBottom)
   /\ len (fst (Grid.clearLines Scenario.fullBottom)) = BOARD_HEIGHT)
  /\
  (Forall (fun plane => len plane = BOARD_HEIGHT) Scenario.volumeWithFullRow /\
   Volumetric.clearLines Scenario.volumeWithFullRow
     = (map Spec.cleared Scenario.volumeWithFullRow,
        fold_right Z.add 0 (map Spec.fullCount Scenario.volumeWithFullRow))).
Proof.
  assert (Hv : Forall (fun plane => len plane = BOARD_HEIGHT)
                 Scenario.volumeWithFullRow).
  { repeat constructor. }
  split.
  - split; [reflexivity |].
    destruct (proj1 (proj2 C2_clearLines_removes_full_rows)
                Scenario.fullBottom eq_refl) as [H1 [H2 _]].
    split; assumption.
  - split; [exact Hv |].
    exact (proj1 (proj2 (proj2 C2_clearLines_removes_full_rows)
                    Scenario.volumeWithFullRow Hv)).
Defined.

(** C3 for the soft drop of the DOM build that clears four lines, and for
    the hard drop of the I piece on the empty board in the canvas build. *)
Lemma C3_witness :
  Dom.score (run (Dom.moveDown 0 0) Scenario.domSixthTetris)
    = Dom.score Scenario.domSixthTetris + (4 * 4 * 100 + 10)
  /\ Hold.score (run (Hold.hardDrop 30 0 0) Scenario.holdSpawned)
     = Hold.score Scenario.holdSpawned + (0 * 0 * 100 + 10) + (19 - 0).
Proof.
  split.
  - apply (proj1 C3_score_delta 0 0 Scenario.domSixthTetris
             Scenario.uprightDomI
             (repeat emptyRow 16 ++ repeat (repeat (Num 1) 10) 4)
             Grid.emptyBoard 4);
      reflexivity.
  - apply (proj2 (proj2 C3_score_delta) 30%nat 0 0 Scenario.holdSpawned
             Scenario.holdI (Grid.mkPosition 3 19)
             (Scenario.boardWithI (Num 1)) (Scenario.boardWithI (Num 1)) 0);
      reflexivity.
Defined.

(** C5 (amended) at the floor of the interval. *)
Lemma C5_witness :
  Dom.score (run (Dom.moveDown 0 0) Scenario.domSixthTetris)
    = Dom.score Scenario.domSixthTetris + 4 * 4 * 100 + 10
  /\ Spec.levelStep (Dom.level Scenario.domSixthTetris)
       (Dom.speed Scenario.domSixthTetris)
       (Dom.score (run (Dom.moveDown 0 0) Scenario.domSixthTetris))
       (Dom.level (run (Dom.moveDown 0 0) Scenario.domSixthTetris))
       (Dom.speed (run (Dom.moveDown 0 0) Scenario.domSixthTetris)).
Proof.
  apply (proj1 C5_level_and_interval 0 0 Scenario.domSixthTetris
           Scenario.uprightDomI
           (repeat emptyRow 16 ++ repeat (repeat (Num 1) 10) 4)
           Grid.emptyBoard 4);
    reflexivity.
Defined.

(** C6 for the upright I piece in column 7: the turned piece and the first
    kick reach column 10, the second kick, one column to the left, fits. *)
Lemma C6_witness :
  run Hold.rotate Scenario.holdUpright
    = Spec.holdSetPiece Scenario.holdUpright
        (Grid.mkPiece [[Num 1; Num 1; Num 1; Num 1]]
           (Grid.mkPosition (7 + -1) (5 + 0)) "#00FFFF"%string)
  /\ run Dom.rotate Scenario.domUpright = Scenario.domUpright.
Proof.
  split.
  - apply (proj1 (proj2 (proj1 (proj2 (proj2 C6_rotation_kicks))
             Scenario.holdUpright Scenario.uprightI
             [[Num 1; Num 1; Num 1; Num 1]] eq_refl eq_refl) eq_refl)
             1%nat (Grid.mkPosition (-1) 0) eq_refl).
    + intros j kick' Hj Hnth.
      destruct j as [|j]; [| exfalso; lia].
      injection Hnth as <-. reflexivity.
    + reflexivity.
  - apply (proj1 (proj2 (proj2 (proj2 C6_rotation_kicks)))
             Scenario.domUpright
             (Grid.mkPiece [[Num 1]; [Num 1]; [Num 1]; [Num 1]]
                (Grid.mkPosition 7 5) 1)
             [[Num 1; Num 1; Num 1; Num 1]]); reflexivity.
Defined.

(** C7: a store right after the spawn closes the hold, and the lock of the
    I piece on the floor, with the hold closed, opens it again. *)
Lemma C7_witness :
  Spec.reachable Scenario.holdSpawned
  /\ Hold.canStore (run (Hold.storePiece 3) Scenario.holdSpawned) = false
  /\ Hold.canStore (run (Hold.storePiece 0) Scenario.holdSpawned) = false
  /\ Hold.canStore Scenario.holdAtBottomStored = false
  /\ Hold.canStore (run (Hold.moveDown 0 0) Scenario.holdAtBottomStored) = true
  /\ Hold.piece (run (Hold.moveDown 0 0) Scenario.holdAtBottomStored)
     = Some Scenario.holdO.
Proof.
  assert (Hreach : Spec.reachable Scenario.holdSpawned).
  { exact (Spec.reach_event (Hold.Effect 0 1) (Hold.initialState 0)
             (Spec.reach_mount 0)). }
  split; [exact Hreach |].
  split.
  { apply (proj1 C7_store_once_per_piece 3 Scenario.holdSpawned Hreach).
    - discriminate.
    - unfold Spec.drawn. lia. }
  split.
  - apply (proj1 (proj2 C7_store_once_per_piece) 0 Scenario.holdSpawned).
    + discriminate.
    + unfold Spec.drawn. lia.
    + reflexivity.
    + intros sp Hsp. discriminate Hsp.
  - split; [reflexivity |].
    apply (proj1 (proj2 (proj2 (proj2 (proj2 C7_store_once_per_piece)))) 0 0
             Scenario.holdAtBottomStored
             (Grid.withY Scenario.holdI 19) Scenario.holdO
             (Scenario.boardWithI (Num 1)) (Scenario.boardWithI (Num 1)) 0);
      try reflexivity.
    unfold Spec.drawn. lia.
Defined.

(** C9 (amended) for three soft drops. *)
Lemma C9_witness :
  (3 <= 19)%nat
  /\ Spec.iterate 3 (run (Dom.moveDown 0 0))
       (Scenario.domSpawned (Some Scenario.domO))
     = Spec.domSetPiece (Scenario.domSpawned (Some Scenario.domO))
         (Grid.mkPiece [[Num 1; Num 1; Num 1; Num 1]]
            (Grid.mkPosition 3 (Z.of_nat 3)) 1).
Proof.
  assert (H : (3 <= 19)%nat) by lia.
  split; [exact H |].
  exact (proj1 (proj2 (proj2 (proj2
           (C9_I_piece_locks_on_drop_20 0 0 (Some Scenario.domO))))) 3%nat H).
Defined.

(** C10 for the held I piece under a tower that reaches the top row. *)
Lemma C10_witness :
  run (Hold.storePiece 0) Scenario.holdSwapBlocked
  = Hold.mkState (Hold.board Scenario.holdSwapBlocked)
      (Hold.piece Scenario.holdSwapBlocked)
      (Hold.nextPiece Scenario.holdSwapBlocked)
      (Hold.score Scenario.holdSwapBlocked)
      (Hold.level Scenario.holdSwapBlocked)
      (Hold.gameOver Scenario.holdSwapBlocked)
      (Hold.speed Scenario.holdSwapBlocked)
      (Hold.storedPiece Scenario.holdSwapBlocked) false
      (Hold.highScore Scenario.holdSwapBlocked).
Proof.
  apply (C10_failed_swap_consumes_hold 0 3 Scenario.holdSwapBlocked
           (Grid.mkPiece Grid.shapeO (Grid.mkPosition 0 0) "#FFFF00"%string)
           Scenario.holdI); reflexivity.
Defined.

(** * Further properties of the code *)

(** ** The books of the canvas build: score, high score, level, interval *)

Module Tally.
Import Grid Spec.

(** The loop of [getDropPosition] never goes up. *)
Lemma dropLoop_ge {C : Type} (fuel : nat) (p : Piece C) (b : Board) :
  forall dropY y', dropLoop fuel p b dropY = Done y' -> dropY <= y'.
Proof.
  induction fuel as [|fuel IH]; intros dropY y' H; cbn [dropLoop] in H;
    [discriminate |].
  destruct (isValidMove (withY p (dropY + 1)) b) as [[|] | |];
    cbn [obind] in H; try discriminate.
  - apply IH in H. lia.
  - injection H as <-. lia.
Qed.

(** The kick loop queues nothing or one piece. *)
Lemma tryKicks_piece_only (np : Piece string) (b : Board)
  (ks : list Position) (st : Hold.State) :
  snd (Hold.tryKicks np b ks st) = st
  \/ exists q, snd (Hold.tryKicks np b ks st) = holdSetPiece st q.
Proof.
  induction ks as [|kick rest IH]; cbn [Hold.tryKicks]; [left; reflexivity |].
  unfold bind at 1. unfold lift at 1.
  destruct (isValidMove (Hold.kicked np kick) b) as [[|] | |];
    try (left; reflexivity); [| exact IH].
  right. eexists. reflexivity.
Qed.

Lemma afterLock_tally (r1 r2 : Z) (snap st : Hold.State)
  (clearedBoard : Board) (newScore : Z) :
  Hold.highScore st = Hold.highScore snap ->
  Hold.level st = Hold.level snap ->
  Hold.speed st = Hold.speed snap ->
  lockTally snap (snd (Hold.afterLock r1 r2 snap clearedBoard newScore st))
    newScore.
Proof.
  intros Hh Hl Hs. unfold lockTally. unfold_hold.
  destruct (Z.gtb_spec newScore (Hold.highScore snap));
    destruct (Z.geb_spec newScore (Hold.level snap * LEVEL_THRESHOLD));
    repeat (branch; simp_hold); repeat split; lia.
Qed.

(** Every event either leaves the books alone or locks a piece, for at least
    ten points. *)
Lemma dispatch_tally (e : Hold.event) (s : Hold.State) :
  sameTally s (Hold.dispatch e s)
  \/ exists newScore,
       Hold.score s + 10 <= newScore
       /\ lockTally s (Hold.dispatch e s) newScore.
Proof.
  assert (Hsame : sameTally s s) by (repeat split; reflexivity).
  assert (Hset : forall q, sameTally s (holdSetPiece s q))
    by (intro q; repeat split; reflexivity).
  assert (Hmove : forall r1 r2,
            sameTally s (run (Hold.moveDown r1 r2) s)
            \/ exists newScore,
                 Hold.score s + 10 <= newScore
                 /\ lockTally s (run (Hold.moveDown r1 r2) s) newScore).
  { intros r1 r2.
    destruct (Hold.piece s) as [p |] eqn:Hp;
      [| left; unfold run, Hold.moveDown; rewrite Hp; exact Hsame].
    destruct (isValidMove (withY p (py (position p) + 1)) (Hold.board s))
      as [[|] | |] eqn:Hv;
      try (left; unfold run, Hold.moveDown, bind, lift; rewrite Hp, Hv;
           first [exact Hsame | apply Hset]).
    destruct (mergePieceToBoard Hold.cellId p (Hold.board s))
      as [newBoard | |] eqn:Hm;
      try (left; rewrite (HardDrop.moveDown_throws r1 r2 s p Hp Hv)
             by (intros nb Hnb; congruence); exact Hsame).
    destruct (clearLines newBoard) as [clearedBoard k] eqn:Hc.
    right. exists (Hold.score s + k * k * 100 + 10). split; [nia |].
    rewrite (HardDrop.moveDown_locked r1 r2 s p newBoard clearedBoard k
               Hp Hv Hm Hc).
    apply afterLock_tally; reflexivity. }
  destruct e as [[| | | | | |] fuel r1 r2 | r1 r2 | r1 r2];
    unfold Hold.dispatch, run, Hold.handleKeyPress, Hold.gravityTick;
    try (destruct (Hold.gameOver s); [left; exact Hsame |]).
  - left. unfold_hold. repeat (branch; simp_hold); repeat split; reflexivity.
  - left. unfold_hold. repeat (branch; simp_hold); repeat split; reflexivity.
  - apply Hmove.
  - destruct (Hold.piece s) as [p |] eqn:Hp;
      [| left; unfold Hold.hardDrop; rewrite Hp; exact Hsame].
    destruct (Hold.getDropPosition fuel p (Hold.board s))
      as [dropPosition | |] eqn:Hd;
      try (left; unfold Hold.hardDrop, bind, lift; rewrite Hp, Hd;
           exact Hsame).
    assert (Hfall : py (position p) <= py dropPosition).
    { unfold Hold.getDropPosition in Hd.
      destruct (dropLoop fuel p (Hold.board s) (py (position p)))
        as [y' | |] eqn:Hloop; cbn [obind] in Hd; try discriminate.
      injection Hd as <-. cbn [py]. exact (dropLoop_ge _ _ _ _ _ Hloop). }
    destruct (mergePieceToBoard Hold.cellId (withPosition p dropPosition)
                (Hold.board s)) as [newBoard | |] eqn:Hm;
      try (left;
           change (sameTally s (run (Hold.hardDrop fuel r1 r2) s));
           rewrite (HardDrop.hardDrop_throws fuel r1 r2 s p dropPosition Hp Hd)
             by (intros nb Hnb; congruence);
           apply Hset).
    destruct (clearLines newBoard) as [clearedBoard k] eqn:Hc.
    right.
    exists (Hold.score s + k * k * 100 + 10
            + (py dropPosition - py (position p))).
    split; [nia |].
    change (lockTally s (run (Hold.hardDrop fuel r1 r2) s)
              (Hold.score s + k * k * 100 + 10
               + (py dropPosition - py (position p)))).
    rewrite (HardDrop.hardDrop_locked fuel r1 r2 s p dropPosition newBoard
               clearedBoard k Hp Hd Hm Hc).
    apply afterLock_tally; reflexivity.
  - left. unfold Hold.rotate.
    destruct (Hold.piece s) as [p |]; [| exact Hsame].
    unfold bind at 1. unfold lift at 1.
    destruct (rotateShape (shape p)) as [newShape | |]; try exact Hsame.
    unfold bind at 1. unfold lift at 1.
    destruct (isValidMove (withShape p newShape) (Hold.board s))
      as [[|] | |]; try exact Hsame.
    destruct (tryKicks_piece_only (withShape p newShape) (Hold.board s)
                Hold.kicks s) as [-> | [q ->]]; [exact Hsame | apply Hset].
  - left. unfold_hold. repeat (branch; simp_hold); repeat split; reflexivity.
  - left. exact Hsame.
  - apply Hmove.
  - left. unfold_hold. repeat (branch; simp_hold); repeat split; reflexivity.
Qed.

End Tally.

(** X1. In the canvas build no event lowers the score or the high score: an
    event leaves the score as it is or raises it by at least ten, and over
    any sequence of events neither figure goes down. *)
Theorem Hold_score_never_decreases (es : list Hold.event) (s : Hold.State) :
  (forall e,
     Hold.score (Hold.dispatch e s) = Hold.score s
     \/ Hold.score s + 10 <= Hold.score (Hold.dispatch e s))
  /\ Hold.score s <= Hold.score (Hold.dispatchAll es s)
  /\ Hold.highScore s <= Hold.highScore (Hold.dispatchAll es s).
Proof.
  split.
  - intro e.
    destruct (Tally.dispatch_tally e s) as [(Hs & _) | (n & Hn & Hs & _)];
      [left; exact Hs | right; lia].
  - revert s. induction es as [|e es IH]; intro s; cbn [Hold.dispatchAll];
      [lia |].
    specialize (IH (Hold.dispatch e s)).
    destruct (Tally.dispatch_tally e s)
      as [(Hs & Hh & _) | (n & Hn & Hs & Hh & _)]; lia.
Qed.



(** X4. Game over is final in the canvas build: once the flag is set, no
    sequence of key presses, gravity ticks and effect runs changes the
    state. *)
Theorem Hold_gameOver_is_final (es : list Hold.event) (s : Hold.State) :
  Hold.gameOver s = true -> Hold.dispatchAll es s = s.
Proof.
  intro Hg. induction es as [|e es IH]; cbn [Hold.dispatchAll];
    [reflexivity |].
  rewrite (Hold_gameOver_ignores_events e s Hg). exact IH.
Qed.

(** ** The shape of the board in the canvas build *)

Module WellFormed.
Import Grid Spec.

Lemma Forall_replaced {A : Type} (P : A -> Prop) (x : A) (n : nat) :
  forall l : list A,
    Forall P l -> P x -> Forall P (firstn n l ++ x :: skipn (S n) l).
Proof.
  induction n as [|n IH]; intros [|a l] Hl Hx; cbn [firstn skipn app].
  - constructor; [assumption | constructor].
  - inversion Hl; subst. constructor; assumption.
  - constructor; [assumption | constructor].
  - inversion Hl; subst. constructor; [assumption |]. apply IH; assumption.
Qed.

Lemma index_In {A : Type} (l : list A) (i : Z) (a : A) :
  index l i = Some a -> In a l.
Proof.
  unfold index. destruct (i <? 0); [discriminate |]. apply nth_error_In.
Qed.

Lemma writeSlot_wf (row : Row) (c : Z) (v : value) :
  wellFormedRow row -> 0 <= c < BOARD_WIDTH -> cellValue v ->
  wellFormedRow (writeSlot row c v).
Proof.
  intros [Hlen Hall] Hc Hv. unfold writeSlot.
  destruct (Z.ltb_spec c 0); [lia |].
  unfold len, Row in *.
  destruct (Nat.ltb_spec (Z.to_nat c) (List.length row)); [| lia].
  split.
  - unfold len. rewrite Invariant.replaced_length by assumption. exact Hlen.
  - apply Forall_replaced; assumption.
Qed.

Lemma writeCell_wf (b b' : Board) (r c : Z) (v : value) :
  wellFormed b -> 0 <= c < BOARD_WIDTH -> cellValue v ->
  writeCell b r c v = Done b' -> wellFormed b'.
Proof.
  intros [Hlen Hall] Hc Hv Hw. split.
  - rewrite (Invariant.writeCell_len _ _ _ _ _ Hw). exact Hlen.
  - unfold writeCell in Hw.
    destruct (index b r) as [row |] eqn:Hrow; [| discriminate].
    injection Hw as Hw. rewrite <- Hw.
    apply Forall_replaced; [exact Hall |].
    apply writeSlot_wf; try assumption.
    rewrite Forall_forall in Hall. apply Hall.
    exact (index_In _ _ _ Hrow).
Qed.

Lemma mergeRow_wf (id : value) (pos : Position) (y : Z) (row : Row) :
  cellValue id ->
  forall (x : Z) (b b' : Board),
    wellFormed b ->
    (forall k, truthy (cellAt row k) = true ->
               0 <= px pos + (x + k) < BOARD_WIDTH) ->
    mergeRow id pos y row x b = Done b' -> wellFormed b'.
Proof.
  intro Hid. induction row as [|v rest IH]; intros x b b' Hb Hcols H;
    cbn [mergeRow] in H.
  - injection H as <-. exact Hb.
  - assert (Hrest : forall k, truthy (cellAt rest k) = true ->
                      0 <= px pos + (x + 1 + k) < BOARD_WIDTH).
    { intros k Hk. pose proof (truthy_cellAt_nonneg _ _ Hk).
      specialize (Hcols (k + 1)). rewrite cellAt_tail in Hcols by lia.
      replace (k + 1 - 1) with k in Hcols by lia.
      specialize (Hcols Hk). lia. }
    destruct (truthy v) eqn:Hv.
    + destruct (writeCell b (py pos + y) (px pos + x) id) as [nb | |] eqn:Hw;
        cbn [obind] in H; try discriminate.
      apply (IH (x + 1) nb b'); [| exact Hrest | exact H].
      apply (writeCell_wf _ _ _ _ _ Hb) in Hw; [exact Hw | | exact Hid].
      specialize (Hcols 0). rewrite cellAt_head in Hcols.
      specialize (Hcols Hv). lia.
    + apply (IH (x + 1) b b'); assumption.
Qed.

Lemma mergeRows_wf (id : value) (pos : Position) (rows : list Row) :
  cellValue id ->
  forall (y : Z) (b b' : Board),
    wellFormed b ->
    (forall dx dy, subCell rows dx dy -> 0 <= px pos + dx < BOARD_WIDTH) ->
    mergeRows id pos rows y b = Done b' -> wellFormed b'.
Proof.
  intro Hid. induction rows as [|row rest IH]; intros y b b' Hb Hcols H;
    cbn [mergeRows] in H.
  - injection H as <-. exact Hb.
  - destruct (mergeRow id pos y row 0 b) as [nb | |] eqn:Hr;
      cbn [obind] in H; try discriminate.
    apply (IH (y + 1) nb b'); [| | exact H].
    + apply (mergeRow_wf id pos y row Hid 0 b nb Hb); [| exact Hr].
      intros k Hk. rewrite Z.add_0_l. apply (Hcols k 0).
      exists row. rewrite index_head. auto.
    + intros dx dy [r [Hr' Ht]].
      pose proof (index_some_range _ _ _ Hr').
      apply (Hcols dx (dy + 1)). exists r.
      rewrite index_tail by lia.
      replace (dy + 1 - 1) with dy by lia. auto.
Qed.

(** Locking a piece that is over the columns keeps the board well formed
    (when it does not throw). *)
Lemma merge_wf {C : Type} (id : Piece C -> value) (p : Piece C)
  (b b' : Board) :
  wellFormed b -> inColumns p -> cellValue (id p) ->
  mergePieceToBoard id p b = Done b' -> wellFormed b'.
Proof.
  intros Hb Hp Hid. unfold mergePieceToBoard.
  apply mergeRows_wf; assumption.
Qed.

Lemma emptyRow_wf : wellFormedRow emptyRow.
Proof.
  split; [reflexivity |].
  unfold emptyRow. apply Forall_forall. intros v Hv.
  apply repeat_spec in Hv. subst v. exists 0. split; [reflexivity | lia].
Qed.

Lemma cleared_wf (b : Board) : wellFormed b -> wellFormed (cleared b).
Proof.
  intros [Hlen Hall]. split; [exact (ClearLines.cleared_len b Hlen) |].
  unfold cleared. apply Forall_app. split.
  - apply Forall_forall. intros row Hrow. apply repeat_spec in Hrow.
    subst row. exact emptyRow_wf.
  - unfold keptRows. rewrite Forall_forall in *. intros row Hrow.
    apply filter_In in Hrow. apply Hall. tauto.
Qed.

Lemma clearLines_wf (b clearedBoard : Board) (k : Z) :
  wellFormed b -> clearLines b = (clearedBoard, k) -> wellFormed clearedBoard.
Proof.
  intros Hb Hc. rewrite (ClearLines.clearLines_cleared b (proj1 Hb)) in Hc.
  injection Hc as <- _. exact (cleared_wf b Hb).
Qed.

Lemma findIndex_range (shapes : list (list Row * string)) (c : string) :
  forall i, findIndex shapes c i = -1
            \/ i <= findIndex shapes c i < i + len shapes.
Proof.
  induction shapes as [|[s c'] rest IH]; intro i; cbn [findIndex];
    [left; reflexivity |].
  unfold len in *. rewrite length_cons.
  destruct (String.eqb c' c); [right; lia |].
  destruct (IH (i + 1)) as [-> | H]; [left; reflexivity | right; lia].
Qed.

(** What a lock writes is a cell value. *)
Lemma cellId_value (p : Piece string) : cellValue (Hold.cellId p).
Proof.
  unfold Hold.cellId. eexists. split; [reflexivity |].
  destruct (findIndex_range Hold.SHAPES (color p) 0) as [-> | H];
    [lia |].
  change (len Hold.SHAPES) with 7 in H. lia.
Qed.

(** A valid piece is over the columns. *)
Lemma valid_inColumns {C : Type} (p : Piece C) (b : Board) :
  len b = BOARD_HEIGHT -> isValidMove p b = Done true -> inColumns p.
Proof.
  intros Hlen Hv dx dy Hsub. unfold isValidMove in Hv.
  destruct (ValidMove.scanRows_blocked b (position p) Hlen (shape p) 0)
    as [ok [E Hok]].
  rewrite E in Hv. injection Hv as ->.
  destruct (Z.lt_ge_cases (px (position p) + dx) 0) as [Hlo | Hlo];
    [| destruct (Z.lt_ge_cases (px (position p) + dx) BOARD_WIDTH)
         as [Hhi | Hhi]; [lia |]];
    exfalso; assert (Hf : true = false);
    try discriminate Hf;
    apply Hok; exists dx, dy; (split; [exact Hsub |]); unfold blocked; lia.
Qed.

Lemma spawned_inColumns (p : Piece string) : spawned p -> inColumns p.
Proof.
  intros [r Hr]. apply (valid_inColumns p emptyBoard); [reflexivity |].
  unfold Hold.createNewPiece, createNewPieceFrom in Hr.
  destruct (index Hold.SHAPES r) as [[sh c] |] eqn:Hidx; [| discriminate].
  apply index_In in Hidx. cbn in Hidx.
  repeat (destruct Hidx as [Hidx | Hidx];
          [injection Hidx as <- <-; cbn in Hr; injection Hr as <-;
           vm_compute; reflexivity |]).
  contradiction.
Qed.

(** One conjunct of [sound] about a piece slot. *)
Ltac sound_piece :=
  first
    [ assumption
    | let q := fresh "q" in
      let Hq := fresh "Hq" in
      intros q Hq; discriminate Hq
    | let q := fresh "q" in
      let Hq := fresh "Hq" in
      intros q Hq;
      try match type of Hq with
          | Some _ = _ => fail 1
          | ?o = Some _ =>
              match goal with
              | E : o = Some _ |- _ =>
                  lazymatch E with
                  | Hq => fail
                  | _ => rewrite E in Hq
                  end
              end
          end;
      injection Hq as <-;
      first
        [ eexists; eassumption
        | apply spawned_inColumns; eexists; eassumption
        | match goal with
          | H : forall q, Some ?p = Some q -> spawned q |- spawned ?p =>
              exact (H p eq_refl)
          | H : forall q, Some ?p = Some q -> spawned q |- inColumns ?p =>
              exact (spawned_inColumns p (H p eq_refl))
          | H : forall q, ?o = Some q -> spawned q, E : ?o = Some ?p
            |- spawned ?p =>
              exact (H p E)
          | H : forall q, ?o = Some q -> spawned q, E : ?o = Some ?p
            |- inColumns ?p =>
              exact (spawned_inColumns p (H p E))
          | V : isValidMove ?x ?b = Done true, W : wellFormed ?b
            |- inColumns ?x =>
              exact (valid_inColumns x b (proj1 W) V)
          | H : forall q, Some ?p = Some q -> inColumns q |- _ =>
              exact (H p eq_refl)
          | H : forall q, ?o = Some q -> inColumns q, E : ?o = Some ?p |- _ =>
              exact (H p E)
          end ] ].

Lemma afterLock_sound (r1 r2 : Z) (snap st : Hold.State)
  (clearedBoard : Board) (newScore : Z) :
  sound st -> (forall p, Hold.nextPiece snap = Some p -> spawned p) ->
  sound (snd (Hold.afterLock r1 r2 snap clearedBoard newScore st)).
Proof.
  intros [Hb [Hp Hn]] Hsnap. unfold sound. unfold_hold.
  repeat (branch; simp_hold);
    (split; [exact Hb |]); split; sound_piece.
Qed.

Lemma moveDown_sound (r1 r2 : Z) (s : Hold.State) :
  sound s -> sound (run (Hold.moveDown r1 r2) s).
Proof.
  intros Hinv. pose proof Hinv as [Hb [Hp Hn]].
  unfold run, Hold.moveDown.
  destruct (Hold.piece s) as [p |] eqn:Ep; [| exact Hinv].
  unfold bind at 1. unfold lift at 1.
  destruct (isValidMove (withY p (py (position p) + 1)) (Hold.board s))
    as [[|] | |]; try exact Hinv.
  - unfold Hold.setPiece, queue. cbn [snd]. unfold sound. simp_hold.
    split; [exact Hb |]. split; sound_piece.
  - unfold bind at 1. unfold lift at 1.
    destruct (mergePieceToBoard Hold.cellId p (Hold.board s))
      as [newBoard | |] eqn:Hm; try exact Hinv.
    destruct (clearLines newBoard) as [clearedBoard k] eqn:Hc.
    unfold bind at 1. unfold Hold.setBoard, queue.
    apply afterLock_sound; [| exact Hn].
    unfold sound. simp_hold. split; [| split; sound_piece].
    apply (clearLines_wf newBoard clearedBoard k); [| exact Hc].
    exact (merge_wf Hold.cellId p _ _ Hb (Hp p eq_refl) (cellId_value p) Hm).
Qed.

Lemma hardDrop_sound (fuel : nat) (r1 r2 : Z) (s : Hold.State) :
  sound s -> sound (run (Hold.hardDrop fuel r1 r2) s).
Proof.
  intros Hinv. pose proof Hinv as [Hb [Hp Hn]].
  unfold run, Hold.hardDrop.
  destruct (Hold.piece s) as [p |] eqn:Ep; [| exact Hinv].
  unfold bind at 1. unfold lift at 1.
  destruct (Hold.getDropPosition fuel p (Hold.board s))
    as [dropPosition | |] eqn:Hd; try exact Hinv.
  assert (Hcols : inColumns (withPosition p dropPosition)).
  { unfold Hold.getDropPosition in Hd.
    destruct (dropLoop fuel p (Hold.board s) (py (position p)));
      cbn [obind] in Hd; try discriminate.
    injection Hd as <-. exact (Hp p eq_refl). }
  unfold bind at 1. unfold Hold.setPiece, queue.
  unfold bind at 1. unfold lift at 1.
  destruct (mergePieceToBoard Hold.cellId (withPosition p dropPosition)
              (Hold.board s)) as [newBoard | |] eqn:Hm; cbn [snd];
    try (unfold sound; simp_hold; split; [exact Hb |];
         split; [intros q Hq; injection Hq as <-; exact Hcols | exact Hn]).
  destruct (clearLines newBoard) as [clearedBoard k] eqn:Hc.
  unfold bind at 1. unfold Hold.setBoard, queue.
  apply afterLock_sound; [| exact Hn].
  unfold sound. simp_hold.
  split; [| split; [intros q Hq; injection Hq as <-; exact Hcols | exact Hn]].
  apply (clearLines_wf newBoard clearedBoard k); [| exact Hc].
  exact (merge_wf Hold.cellId _ _ _ Hb Hcols (cellId_value _) Hm).
Qed.

Lemma tryKicks_sound (newPiece : Piece string) (b : Board)
  (ks : list Position) (st : Hold.State) :
  sound st -> wellFormed b -> sound (snd (Hold.tryKicks newPiece b ks st)).
Proof.
  intros Hinv Hwf. induction ks as [|kick rest IH]; cbn [Hold.tryKicks];
    [exact Hinv |].
  unfold bind at 1. unfold lift at 1.
  destruct (isValidMove (Hold.kicked newPiece kick) b) as [[|] | |] eqn:Hv;
    try exact Hinv; [| exact IH].
  destruct Hinv as [Hb [Hp Hn]].
  unfold Hold.setPiece, queue, sound. simp_hold.
  split; [exact Hb |]. split; sound_piece.
Qed.

Lemma dispatch_sound (e : Hold.event) (s : Hold.State) :
  sound s -> sound (Hold.dispatch e s).
Proof.
  intro Hinv. pose proof Hinv as [Hb [Hp Hn]].
  destruct e as [k fuel r1 r2 | r1 r2 | r1 r2]; unfold Hold.dispatch.
  - unfold run, Hold.handleKeyPress.
    destruct (Hold.gameOver s); [exact Hinv |].
    destruct k; try exact Hinv.
    + unfold_hold. repeat (branch; simp_hold); try exact Hinv;
        unfold sound; simp_hold; (split; [exact Hb |]); split; sound_piece.
    + unfold_hold. repeat (branch; simp_hold); try exact Hinv;
        unfold sound; simp_hold; (split; [exact Hb |]); split; sound_piece.
    + apply moveDown_sound. exact Hinv.
    + apply hardDrop_sound. exact Hinv.
    + unfold Hold.rotate.
      destruct (Hold.piece s) as [p |] eqn:Ep; [| exact Hinv].
      unfold bind at 1. unfold lift at 1.
      destruct (rotateShape (shape p)) as [newShape | |] eqn:Hrot;
        try exact Hinv.
      unfold bind at 1. unfold lift at 1.
      destruct (isValidMove (withShape p newShape) (Hold.board s))
        as [[|] | |] eqn:Hv; try exact Hinv.
      * unfold Hold.setPiece, queue, sound. simp_hold.
        split; [exact Hb |]. split; sound_piece.
      * apply tryKicks_sound; [exact Hinv | exact Hb].
    + unfold_hold. repeat (branch; simp_hold); try exact Hinv;
        unfold sound; simp_hold; (split; [exact Hb |]); split; sound_piece.
  - unfold run, Hold.gravityTick.
    destruct (Hold.gameOver s); [exact Hinv |].
    apply moveDown_sound. exact Hinv.
  - unfold_hold. repeat (branch; simp_hold); try exact Hinv;
      unfold sound; simp_hold; (split; [exact Hb |]); split; sound_piece.
Qed.

End WellFormed.

(** X5. From mount, after any sequence of events of the canvas build, the
    board is 20 rows of 10 cells that each hold a number from 0 to 7, every
    occupied sub-cell of the active piece is over a column of the board, and
    the next piece is a catalogue piece at its spawn position. *)
Theorem Hold_state_stays_sound (stored : Z) (es : list Hold.event) :
  Spec.sound (Hold.dispatchAll es (Hold.initialState stored)).
Proof.
  assert (Hgen : forall es s, Spec.sound s ->
                              Spec.sound (Hold.dispatchAll es s)).
  { clear es. induction es as [|e es IH]; intros s Hs;
      cbn [Hold.dispatchAll]; [exact Hs |].
    apply IH. apply WellFormed.dispatch_sound. exact Hs. }
  apply Hgen. unfold Spec.sound, Hold.initialState.
  cbn [Hold.board Hold.piece Hold.nextPiece].
  split; [| split; intros q Hq; discriminate Hq].
  split; [reflexivity |].
  unfold Grid.emptyBoard. apply Forall_forall. intros row Hrow.
  apply repeat_spec in Hrow. subst row. exact WellFormed.emptyRow_wf.
Qed.

(** ** What [mergePieceToBoard] writes *)

Module Merge.
Import Grid Spec.

Lemma nth_error_replaced {A : Type} (x : A) (n : nat) :
  forall (l : list A) (m : nat),
    (n < List.length l)%nat ->
    nth_error (firstn n l ++ x :: skipn (S n) l) m
    = if (m =? n)%nat then Some x else nth_error l m.
Proof.
  induction n as [|n IH]; intros [|a l] m Hn; cbn [List.length] in Hn;
    try lia.
  - destruct m; reflexivity.
  - destruct m as [|m]; [reflexivity |]. simpl. apply IH. lia.
Qed.

Lemma index_replaced {A : Type} (x : A) (l : list A) (r i : Z) :
  0 <= r < len l ->
  index (firstn (Z.to_nat r) l ++ x :: skipn (S (Z.to_nat r)) l) i
  = if i =? r then Some x else index l i.
Proof.
  intros Hr. unfold index. destruct (Z.ltb_spec i 0).
  - destruct (Z.eqb_spec i r); [lia | reflexivity].
  - rewrite nth_error_replaced by (unfold len in Hr; lia).
    destruct (Nat.eqb_spec (Z.to_nat i) (Z.to_nat r));
      destruct (Z.eqb_spec i r); try reflexivity; lia.
Qed.

Lemma index_outside {A : Type} (l : list A) (i : Z) :
  i < 0 \/ len l <= i -> index l i = None.
Proof.
  intro H. unfold index. destruct (Z.ltb_spec i 0); [reflexivity |].
  apply nth_error_None. unfold len in H. lia.
Qed.

Lemma cellAt_nil (k : Z) : cellAt [] k = Undefined.
Proof.
  unfold cellAt, index. destruct (k <? 0); [reflexivity |].
  destruct (Z.to_nat k); reflexivity.
Qed.

Lemma cellOf_nil (dx dy : Z) : cellOf [] dx dy = Undefined.
Proof.
  unfold cellOf, index. destruct (dy <? 0); [reflexivity |].
  destruct (Z.to_nat dy); reflexivity.
Qed.

Lemma cellOf_cons (row : Row) (rest : list Row) (dx dy : Z) :
  cellOf (row :: rest) dx dy
  = if dy =? 0 then cellAt row dx else cellOf rest dx (dy - 1).
Proof.
  unfold cellOf. destruct (Z.eqb_spec dy 0) as [-> | Hne].
  - rewrite index_head. reflexivity.
  - destruct (Z.lt_ge_cases dy 0).
    + rewrite !index_neg by lia. reflexivity.
    + rewrite index_tail by lia. reflexivity.
Qed.

Lemma subCell_cellOf (s : list Row) (dx dy : Z) :
  subCell s dx dy <-> truthy (cellOf s dx dy) = true.
Proof.
  unfold subCell, cellOf. split.
  - intros [row [-> H]]. exact H.
  - destruct (index s dy) as [row |]; [eauto | discriminate].
Qed.

Lemma writeSlot_cellAt (row : Row) (c x : Z) (v : value) :
  0 <= c < len row ->
  len (writeSlot row c v) = len row
  /\ cellAt (writeSlot row c v) x = if x =? c then v else cellAt row x.
Proof.
  intro Hc. unfold writeSlot. destruct (Z.ltb_spec c 0); [lia |].
  unfold len, Row in *.
  destruct (Nat.ltb_spec (Z.to_nat c) (List.length row)); [| lia].
  split; [rewrite Invariant.replaced_length by assumption; reflexivity |].
  unfold cellAt. rewrite index_replaced by (unfold len; lia).
  destruct (x =? c); reflexivity.
Qed.

(** One write inside the board: it does not throw, the board keeps its
    size, and only the written slot changes. *)
Lemma writeCell_cellOf (b : Board) (r c : Z) (v : value) :
  fullSize b -> 0 <= r < BOARD_HEIGHT -> 0 <= c < BOARD_WIDTH ->
  exists b',
    writeCell b r c v = Done b'
    /\ fullSize b'
    /\ forall x y,
         cellOf b' x y = if (y =? r) && (x =? c) then v else cellOf b x y.
Proof.
  intros [Hlen Hall] Hr Hc.
  destruct (index_in_range b r) as [row Hrow]; [lia |].
  assert (Hw : len row = BOARD_WIDTH).
  { rewrite Forall_forall in Hall. apply Hall.
    exact (WellFormed.index_In _ _ _ Hrow). }
  unfold writeCell. rewrite Hrow. eexists. split; [reflexivity |].
  destruct (writeSlot_cellAt row c 0 v) as [Hwl _]; [lia |].
  split; [split |].
  - unfold len in *. rewrite Invariant.replaced_length by lia. exact Hlen.
  - apply WellFormed.Forall_replaced; [exact Hall | lia].
  - intros x y. unfold cellOf. rewrite index_replaced by lia.
    destruct (Z.eqb_spec y r) as [-> | Hne]; cbn [andb]; [| reflexivity].
    rewrite Hrow.
    destruct (writeSlot_cellAt row c x v) as [_ Hcell]; [lia |].
    exact Hcell.
Qed.

Lemma mergeRow_cellOf (id : value) (pos : Position) (y : Z) (row : Row) :
  forall (x : Z) (b : Board),
    fullSize b ->
    (forall k, truthy (cellAt row k) = true ->
       0 <= px pos + (x + k) < BOARD_WIDTH
       /\ 0 <= py pos + y < BOARD_HEIGHT) ->
    exists b',
      mergeRow id pos y row x b = Done b'
      /\ fullSize b'
      /\ forall x' y',
           cellOf b' x' y'
           = if (y' =? py pos + y) && truthy (cellAt row (x' - px pos - x))
             then id else cellOf b x' y'.
Proof.
  induction row as [|v rest IH]; intros x b Hb Hin; cbn [mergeRow].
  - exists b. split; [reflexivity |]. split; [exact Hb |].
    intros x' y'. rewrite cellAt_nil. cbn [truthy].
    rewrite andb_false_r. reflexivity.
  - assert (Hrest : forall k, truthy (cellAt rest k) = true ->
                      0 <= px pos + (x + 1 + k) < BOARD_WIDTH
                      /\ 0 <= py pos + y < BOARD_HEIGHT).
    { intros k Hk. pose proof (truthy_cellAt_nonneg _ _ Hk).
      specialize (Hin (k + 1)). rewrite cellAt_tail in Hin by lia.
      replace (k + 1 - 1) with k in Hin by lia.
      specialize (Hin Hk). lia. }
    assert (Hcase : forall x',
              truthy (cellAt (v :: rest) (x' - px pos - x))
              = if x' =? px pos + x then truthy v
                else truthy (cellAt rest (x' - px pos - (x + 1)))).
    { intro x'. destruct (Z.eqb_spec x' (px pos + x)) as [-> | Hne].
      - replace (px pos + x - px pos - x) with 0 by lia.
        rewrite cellAt_head. reflexivity.
      - destruct (Z.lt_ge_cases (x' - px pos - x) 0).
        + rewrite !cellAt_neg by lia. reflexivity.
        + rewrite cellAt_tail by lia. do 2 f_equal. lia. }
    assert (Hhere : forall x', x' = px pos + x ->
              truthy (cellAt rest (x' - px pos - (x + 1))) = false).
    { intros x' ->. rewrite cellAt_neg by lia. reflexivity. }
    destruct (truthy v) eqn:Hv.
    + specialize (Hin 0). rewrite cellAt_head in Hin. specialize (Hin Hv).
      destruct (writeCell_cellOf b (py pos + y) (px pos + x) id Hb)
        as [nb [Hw [Hnb Hcell]]]; [lia | lia |].
      rewrite Hw. cbn [obind].
      destruct (IH (x + 1) nb Hnb Hrest) as [b' [Hm [Hb' Hcell']]].
      exists b'. split; [exact Hm |]. split; [exact Hb' |].
      intros x' y'. rewrite Hcell', Hcell, Hcase.
      destruct (Z.eqb_spec y' (py pos + y));
        destruct (Z.eqb_spec x' (px pos + x)) as [Hx | Hx]; cbn [andb];
        try reflexivity.
      rewrite (Hhere x' Hx). reflexivity.
    + destruct (IH (x + 1) b Hb Hrest) as [b' [Hm [Hb' Hcell']]].
      exists b'. split; [exact Hm |]. split; [exact Hb' |].
      intros x' y'. rewrite Hcell', Hcase.
      destruct (Z.eqb_spec y' (py pos + y));
        destruct (Z.eqb_spec x' (px pos + x)) as [Hx | Hx]; cbn [andb];
        try reflexivity.
      rewrite (Hhere x' Hx). reflexivity.
Qed.

Lemma mergeRows_cellOf (id : value) (pos : Position) (rows : list Row) :
  forall (y : Z) (b : Board),
    fullSize b ->
    (forall dx dy, truthy (cellOf rows dx dy) = true ->
       0 <= px pos + dx < BOARD_WIDTH
       /\ 0 <= py pos + (y + dy) < BOARD_HEIGHT) ->
    exists b',
      mergeRows id pos rows y b = Done b'
      /\ fullSize b'
      /\ forall x' y',
           cellOf b' x' y'
           = if truthy (cellOf rows (x' - px pos) (y' - py pos - y))
             then id else cellOf b x' y'.
Proof.
  induction rows as [|row rest IH]; intros y b Hb Hin; cbn [mergeRows].
  - exists b. split; [reflexivity |]. split; [exact Hb |].
    intros x' y'. rewrite cellOf_nil. reflexivity.
  - destruct (mergeRow_cellOf id pos y row 0 b Hb) as [nb [Hr [Hnb Hcell]]].
    { intros k Hk. specialize (Hin k 0).
      rewrite cellOf_cons in Hin. cbn [Z.eqb] in Hin.
      specialize (Hin Hk). lia. }
    rewrite Hr. cbn [obind].
    destruct (IH (y + 1) nb Hnb) as [b' [Hm [Hb' Hcell']]].
    { intros dx dy Hd.
      assert (0 <= dy).
      { apply subCell_cellOf in Hd. destruct Hd as [r [Hr' _]].
        apply index_some_range in Hr'. lia. }
      specialize (Hin dx (dy + 1)). rewrite cellOf_cons in Hin.
      destruct (Z.eqb_spec (dy + 1) 0); [lia |].
      replace (dy + 1 - 1) with dy in Hin by lia.
      specialize (Hin Hd). lia. }
    exists b'. split; [exact Hm |]. split; [exact Hb' |].
    intros x' y'. rewrite Hcell', Hcell, cellOf_cons, Z.sub_0_r.
    destruct (Z.eqb_spec y' (py pos + y)) as [Hy | Hy];
      destruct (Z.eqb_spec (y' - py pos - y) 0); try lia; cbn [andb].
    + replace (y' - py pos - (y + 1)) with (-1) by lia.
      unfold cellOf at 1. rewrite index_neg by lia. reflexivity.
    + replace (y' - py pos - (y + 1)) with (y' - py pos - y - 1) by lia.
      reflexivity.
Qed.

(** A valid piece that is not above the board has every occupied sub-cell
    inside the board. *)
Lemma valid_inside {C : Type} (p : Piece C) (b : Board) (dx dy : Z) :
  len b = BOARD_HEIGHT -> isValidMove p b = Done true ->
  truthy (cellOf (shape p) dx dy) = true ->
  0 <= px (position p) + dx < BOARD_WIDTH
  /\ 0 <= dy /\ py (position p) + dy < BOARD_HEIGHT.
Proof.
  intros Hlen Hv Hd. apply subCell_cellOf in Hd.
  assert (0 <= dy).
  { destruct Hd as [r [Hr _]]. apply index_some_range in Hr. lia. }
  unfold isValidMove in Hv.
  destruct (ValidMove.scanRows_blocked b (position p) Hlen (shape p) 0)
    as [ok [E Hok]].
  rewrite E in Hv. injection Hv as ->.
  assert (Hnot : ~ blocked b (px (position p) + dx)
                     (py (position p) + (0 + dy))).
  { intro Hb. assert (Hf : true = false) by (apply Hok; eauto).
    discriminate Hf. }
  unfold blocked in Hnot. lia.
Qed.

Lemma mergeRow_throws (id : value) (pos : Position) (y : Z) (row : Row) :
  forall (x : Z) (b : Board),
    py pos + y < 0 \/ len b <= py pos + y ->
    (exists k, truthy (cellAt row k) = true) ->
    mergeRow id pos y row x b = TypeError.
Proof.
  induction row as [|v rest IH]; intros x b Hout [k Hk]; cbn [mergeRow].
  - rewrite cellAt_nil in Hk. discriminate.
  - destruct (truthy v) eqn:Hv.
    + unfold writeCell. rewrite index_outside by exact Hout. reflexivity.
    + apply IH; [exact Hout |].
      pose proof (truthy_cellAt_nonneg _ _ Hk).
      destruct (Z.eq_dec k 0) as [-> | Hne];
        [rewrite cellAt_head in Hk; congruence |].
      exists (k - 1). rewrite cellAt_tail in Hk by lia. exact Hk.
Qed.

Lemma mergeRow_returns (id : value) (pos : Position) (y : Z) (row : Row) :
  forall (x : Z) (b : Board),
    mergeRow id pos y row x b = TypeError
    \/ exists b', mergeRow id pos y row x b = Done b' /\ len b' = len b.
Proof.
  induction row as [|v rest IH]; intros x b; cbn [mergeRow];
    [right; eauto |].
  destruct (truthy v); [| apply IH].
  destruct (writeCell b (py pos + y) (px pos + x) id) as [nb | |] eqn:Hw;
    cbn [obind].
  - destruct (IH (x + 1) nb) as [-> | [b' [-> Hl]]]; [left; reflexivity |].
    right. exists b'. split; [reflexivity |].
    rewrite Hl. exact (Invariant.writeCell_len _ _ _ _ _ Hw).
  - left. reflexivity.
  - unfold writeCell in Hw. destruct (index b (py pos + y)); discriminate.
Qed.

(** A piece with an occupied sub-cell over a row the board does not have
    makes the merge throw. *)
Lemma mergeRows_throws (id : value) (pos : Position) (rows : list Row) :
  forall (y : Z) (b : Board) (dx dy : Z),
    truthy (cellOf rows dx dy) = true ->
    py pos + (y + dy) < 0 \/ len b <= py pos + (y + dy) ->
    mergeRows id pos rows y b = TypeError.
Proof.
  induction rows as [|row rest IH]; intros y b dx dy Hd Hout;
    cbn [mergeRows].
  - rewrite cellOf_nil in Hd. discriminate.
  - rewrite cellOf_cons in Hd.
    destruct (Z.eqb_spec dy 0) as [Hz | Hne].
    + rewrite (mergeRow_throws id pos y row 0 b); [reflexivity | | eauto].
      rewrite Hz, Z.add_0_r in Hout. exact Hout.
    + destruct (mergeRow_returns id pos y row 0 b) as [-> | [nb [-> Hl]]];
        [reflexivity |].
      cbn [obind]. apply (IH (y + 1) nb dx (dy - 1) Hd).
      rewrite Hl. replace (y + 1 + (dy - 1)) with (y + dy) by lia.
      exact Hout.
Qed.

Lemma merge_cellOf {C : Type} (id : Piece C -> value) (p : Piece C)
  (b : Board) :
  fullSize b -> isValidMove p b = Done true -> 0 <= py (position p) ->
  exists newBoard,
    mergePieceToBoard id p b = Done newBoard
    /\ fullSize newBoard
    /\ forall x y,
         cellOf newBoard x y
         = if truthy (cellOf (shape p) (x - px (position p))
                        (y - py (position p)))
           then id p else cellOf b x y.
Proof.
  intros Hb Hv Hy. unfold mergePieceToBoard.
  destruct (mergeRows_cellOf (id p) (position p) (shape p) 0 b Hb)
    as [nb [Hm [Hnb Hcell]]].
  { intros dx dy Hd.
    pose proof (valid_inside p b dx dy (proj1 Hb) Hv Hd). lia. }
  exists nb. split; [exact Hm |]. split; [exact Hnb |].
  intros x y. rewrite Hcell, Z.sub_0_r. reflexivity.
Qed.

End Merge.

(** X6. Locking a valid piece that is not above the board does not throw,
    keeps the board at 20 rows of 10 slots, writes the piece's cell value
    into exactly the cells its occupied sub-cells cover, and leaves every
    other cell as it was. *)
Theorem merge_writes_covered_cells {C : Type} (id : Grid.Piece C -> value)
  (p : Grid.Piece C) (b : Grid.Board) :
  Spec.fullSize b ->
  Grid.isValidMove p b = Done true ->
  0 <= Grid.py (Grid.position p) ->
  exists newBoard,
    Grid.mergePieceToBoard id p b = Done newBoard
    /\ Spec.fullSize newBoard
    /\ forall x y,
         Spec.cellOf newBoard x y
         = if truthy (Spec.cellOf (Grid.shape p)
                        (x - Grid.px (Grid.position p))
                        (y - Grid.py (Grid.position p)))
           then id p else Spec.cellOf b x y.
Proof.
  intros Hb Hv Hy. unfold Grid.mergePieceToBoard.
  destruct (Merge.mergeRows_cellOf (id p) (Grid.position p) (Grid.shape p)
              0 b Hb) as [nb [Hm [Hnb Hcell]]].
  { intros dx dy Hd.
    pose proof (Merge.valid_inside p b dx dy (proj1 Hb) Hv Hd). lia. }
  exists nb. split; [exact Hm |]. split; [exact Hnb |].
  intros x y. rewrite Hcell, Z.sub_0_r. reflexivity.
Qed.

(** X7. In the canvas build, when the active piece cannot go down and has an
    occupied sub-cell above row 0 (where an upward wall kick can put it), the
    soft drop throws a TypeError inside [mergePieceToBoard] and queues
    nothing: the state stays as it was, with the game not over. *)
Theorem Hold_lock_above_board_throws (r1 r2 : Z) (s : Hold.State)
  (p : Grid.Piece string) (dx dy : Z) :
  Hold.piece s = Some p ->
  Grid.isValidMove (Grid.withY p (Grid.py (Grid.position p) + 1))
    (Hold.board s) = Done false ->
  Spec.subCell (Grid.shape p) dx dy ->
  Grid.py (Grid.position p) + dy < 0 ->
  Grid.mergePieceToBoard Hold.cellId p (Hold.board s) = TypeError
  /\ result (Hold.moveDown r1 r2) s = TypeError
  /\ run (Hold.moveDown r1 r2) s = s.
Proof.
  intros Hp Hv Hsub Hdy.
  assert (Hm : Grid.mergePieceToBoard Hold.cellId p (Hold.board s)
               = TypeError).
  { unfold Grid.mergePieceToBoard.
    apply (Merge.mergeRows_throws _ _ _ 0 _ dx dy);
      [apply Merge.subCell_cellOf; exact Hsub | left; lia]. }
  split; [exact Hm |].
  unfold result, run, Hold.moveDown, bind, lift. rewrite Hp, Hv, Hm.
  split; reflexivity.
Qed.

(** The play of [Scenario.kickPlay] from mount ends in
    [Scenario.holdKicked]. *)
Lemma holdKicked_is_reached :
  Hold.dispatchAll Scenario.kickPlay (Hold.initialState 0)
  = Scenario.holdKicked.
Proof. vm_compute. reflexivity. Qed.

(** X8. [clearLines] leaves no full row on a board of 20 rows, so clearing
    again changes nothing and counts no line. *)
Theorem clearLines_idempotent (b : Grid.Board) :
  len b = BOARD_HEIGHT ->
  Forall (fun row => ~ Spec.fullRow row) (fst (Grid.clearLines b))
  /\ Grid.clearLines (fst (Grid.clearLines b)) = (fst (Grid.clearLines b), 0).
Proof.
  intro Hlen. rewrite (ClearLines.clearLines_cleared b Hlen). cbn [fst].
  assert (Hnone : Forall (fun row => ~ Spec.fullRow row) (Spec.cleared b)).
  { unfold Spec.cleared. apply Forall_app. split.
    - apply Forall_forall. intros row Hrow. apply repeat_spec in Hrow.
      subst row. intro Hfull. apply ClearLines.isFull_fullRow in Hfull.
      discriminate Hfull.
    - unfold Spec.keptRows. apply Forall_forall. intros row Hrow.
      apply filter_In in Hrow. destruct Hrow as [_ Hrow].
      intro Hfull. apply ClearLines.isFull_fullRow in Hfull.
      rewrite Hfull in Hrow. discriminate Hrow. }
  split; [exact Hnone |].
  rewrite (ClearLines.clearLines_cleared _ (ClearLines.cleared_len b Hlen)).
  destruct (ClearLines.no_full_rows _ Hnone) as [Hk Hc].
  unfold Spec.cleared at 1. rewrite Hk, Hc. reflexivity.
Qed.

(** ** Four quarter turns *)

Module Turns.
Import Grid Spec.

Lemma In_index {A : Type} (l : list A) (a : A) :
  In a l -> exists i, index l i = Some a.
Proof.
  intro Hin. apply In_nth_error in Hin. destruct Hin as [n Hn].
  exists (Z.of_nat n). unfold index.
  destruct (Z.ltb_spec (Z.of_nat n) 0); [lia |].
  rewrite Nat2Z.id. exact Hn.
Qed.

Lemma list_ext {A : Type} :
  forall a b : list A,
    len a = len b ->
    (forall i, 0 <= i < len a -> index a i = index b i) ->
    a = b.
Proof.
  induction a as [|x a IH]; intros [|y b] Hl Hi; unfold len in Hl;
    cbn [List.length] in Hl; try (exfalso; lia); [reflexivity |].
  f_equal.
  - specialize (Hi 0). rewrite !index_head in Hi.
    assert (Some x = Some y)
      by (apply Hi; unfold len; cbn [List.length]; lia).
    congruence.
  - apply IH; [unfold len; lia |]. intros i Hr.
    specialize (Hi (i + 1)). rewrite !index_tail in Hi by lia.
    replace (i + 1 - 1) with i in Hi by lia.
    apply Hi. unfold len in *. cbn [List.length]. lia.
Qed.

(** Two shapes of the same size with the same slots are the same. *)
Lemma rect_ext (a b : list Row) (h w : Z) :
  rectangular a h w -> rectangular b h w ->
  (forall x y, 0 <= x < w -> 0 <= y < h -> cellOf a x y = cellOf b x y) ->
  a = b.
Proof.
  intros [Hal Haw] [Hbl Hbw] Hcell. apply list_ext; [lia |].
  intros y Hy.
  destruct (index_in_range a y Hy) as [ra Hra].
  destruct (index_in_range b y) as [rb Hrb]; [lia |].
  rewrite Hra, Hrb. f_equal.
  assert (Hraw : len ra = w).
  { rewrite Forall_forall in Haw. apply Haw.
    exact (WellFormed.index_In _ _ _ Hra). }
  assert (Hrbw : len rb = w).
  { rewrite Forall_forall in Hbw. apply Hbw.
    exact (WellFormed.index_In _ _ _ Hrb). }
  apply list_ext; [lia |].
  intros x Hx. specialize (Hcell x y). unfold cellOf, cellAt in Hcell.
  rewrite Hra, Hrb in Hcell.
  destruct (index_in_range ra x Hx) as [va Hva].
  destruct (index_in_range rb x) as [vb Hvb]; [lia |].
  rewrite Hva, Hvb in *. f_equal. apply Hcell; lia.
Qed.

(** One quarter turn of a shape of [h] rows of [w] slots: [w] rows of [h]
    slots. *)
Lemma rotate_rect (s : list Row) (h w : Z) :
  rectangular s h w -> 1 <= h -> 1 <= w ->
  exists ns,
    rotateShape s = Done ns
    /\ rectangular ns w h
    /\ forall i j, 0 <= i < h -> 0 <= j < w ->
         cellOf ns i j = cellOf s j (h - 1 - i).
Proof.
  intros [Hlen Hall] Hh Hw.
  destruct (index_in_range s 0) as [first Hfirst]; [lia |].
  assert (Hfw : len first = w).
  { rewrite Forall_forall in Hall. apply Hall.
    exact (WellFormed.index_In _ _ _ Hfirst). }
  destruct (Rotation.rotateShape_quarter_turn s first Hfirst)
    as [ns [Hrot [Hnl Hrows]]].
  exists ns. split; [exact Hrot |]. split; [split |].
  - lia.
  - apply Forall_forall. intros row Hin.
    destruct (In_index _ _ Hin) as [j Hj].
    pose proof (index_some_range _ _ _ Hj) as Hjr.
    destruct (Hrows j) as [row' [Hrow' [Hl _]]];
      [unfold len, Row in *; lia |].
    unfold len, Row in *.
    rewrite Hj in Hrow'. injection Hrow' as <-. lia.
  - intros i j Hi Hj.
    destruct (Hrows j) as [row [Hrow [Hl Hcell]]]; [lia |].
    destruct (index_in_range s (h - 1 - i)) as [source Hsrc]; [lia |].
    unfold cellOf. rewrite Hrow, Hsrc.
    apply Hcell; [rewrite Hlen; exact Hsrc | lia].
Qed.

End Turns.

(** X9. A quarter turn of a shape of h rows of w slots is a shape of w rows
    of h slots, two quarter turns turn it upside down and back to front, and
    four quarter turns give the shape back. *)
Theorem rotateShape_four_times (s : list Row) (h w : Z) :
  Spec.rectangular s h w -> 1 <= h -> 1 <= w ->
  exists s1 s2 s3,
    Grid.rotateShape s = Done s1
    /\ Spec.rectangular s1 w h
    /\ Grid.rotateShape s1 = Done s2
    /\ (forall x y, 0 <= x < w -> 0 <= y < h ->
          Spec.cellOf s2 x y = Spec.cellOf s (w - 1 - x) (h - 1 - y))
    /\ Grid.rotateShape s2 = Done s3
    /\ Grid.rotateShape s3 = Done s.
Proof.
  intros Hs Hh Hw.
  destruct (Turns.rotate_rect s h w Hs Hh Hw) as [s1 [H1 [R1 C1]]].
  destruct (Turns.rotate_rect s1 w h R1 Hw Hh) as [s2 [H2 [R2 C2]]].
  destruct (Turns.rotate_rect s2 h w R2 Hh Hw) as [s3 [H3 [R3 C3]]].
  destruct (Turns.rotate_rect s3 w h R3 Hw Hh) as [s4 [H4 [R4 C4]]].
  exists s1, s2, s3. repeat split; try assumption; try apply R1.
  - intros x y Hx Hy. rewrite C2 by lia. rewrite C1 by lia. reflexivity.
  - rewrite H4. f_equal. apply (Turns.rect_ext s4 s h w R4 Hs).
    intros x y Hx Hy.
    rewrite C4 by lia. rewrite C3 by lia. rewrite C2 by lia.
    rewrite C1 by lia. f_equal; lia.
Qed.

(** X10. In the canvas build a step to the left that is taken is undone by
    a step to the right, and the other way round, when the piece is valid
    where it stands. *)
Theorem Hold_sideways_round_trip (s : Hold.State) (p : Grid.Piece string) :
  Hold.piece s = Some p ->
  Grid.isValidMove p (Hold.board s) = Done true ->
  (Grid.isValidMove (Grid.withX p (Grid.px (Grid.position p) - 1))
     (Hold.board s) = Done true ->
   run (Hold.moveSideways Hold.right) (run (Hold.moveSideways Hold.left) s)
   = s)
  /\ (Grid.isValidMove (Grid.withX p (Grid.px (Grid.position p) + 1))
        (Hold.board s) = Done true ->
      run (Hold.moveSideways Hold.left) (run (Hold.moveSideways Hold.right) s)
      = s).
Proof.
  intros Hp Hv.
  destruct s as [b pc np sc lv go sp st cs hs].
  destruct p as [sh [x y] c].
  cbn [Hold.piece Hold.board] in Hp, Hv. subst pc.
  split; intro Hmove;
    unfold run, Hold.moveSideways, bind, lift, Hold.setPiece, queue,
      Grid.withX, Grid.withPosition in *;
    cbn [Hold.piece Hold.board Grid.position Grid.px Grid.py Grid.shape
         Grid.color] in *;
    try change (x - 1) with (x + -1) in Hmove;
    rewrite Hmove;
    cbn [snd fst Hold.piece Hold.board Grid.position Grid.px Grid.py
         Grid.shape Grid.color
         Hold.nextPiece Hold.score Hold.level Hold.gameOver Hold.speed
         Hold.storedPiece Hold.canStore Hold.highScore].
  - replace (x + -1 + 1) with x by lia. rewrite Hv. reflexivity.
  - replace (x + 1 + -1) with x by lia. rewrite Hv. reflexivity.
Qed.

(** X11. The drop preview of the canvas build.  For a valid piece with at
    least one cell on a board of 20 rows, [getDropPosition] (given fuel for
    every row down to the floor) returns a position in the same column, at
    or below the piece, where the piece is valid and cannot go one row
    further down; asked again from there it returns the same position. *)
Theorem Hold_drop_preview_is_valid (fuel : nat) (p : Grid.Piece string)
  (b : Grid.Board) :
  len b = BOARD_HEIGHT ->
  Grid.isValidMove p b = Done true ->
  (exists dx dy, Spec.subCell (Grid.shape p) dx dy) ->
  (Z.to_nat (BOARD_HEIGHT - Grid.py (Grid.position p)) < fuel)%nat ->
  exists pos,
    Hold.getDropPosition fuel p b = Done pos
    /\ Grid.px pos = Grid.px (Grid.position p)
    /\ Grid.py (Grid.position p) <= Grid.py pos
    /\ Grid.isValidMove (Grid.withPosition p pos) b = Done true
    /\ Grid.isValidMove (Grid.withY p (Grid.py pos + 1)) b = Done false
    /\ Hold.getDropPosition fuel (Grid.withPosition p pos) b = Done pos.
Proof.
  intros Hlen Hv Hcell Hfuel.
  destruct (HardDrop.dropLoop_finds_row p b Hlen Hcell fuel
              (Grid.py (Grid.position p)) Hfuel)
    as [y' [Hloop [Hge [Hvalid Hstop]]]].
  exists (Grid.mkPosition (Grid.px (Grid.position p)) y').
  unfold Hold.getDropPosition. rewrite Hloop. cbn [obind Grid.px Grid.py].
  split; [reflexivity |]. split; [reflexivity |]. split; [exact Hge |].
  split; [| split; [exact Hstop |]].
  - destruct (Z.eq_dec y' (Grid.py (Grid.position p))) as [-> | Hne].
    + destruct p as [sh [x y] c]. exact Hv.
    + apply (Hvalid y'). lia.
  - set (q := Grid.withPosition p
                 (Grid.mkPosition (Grid.px (Grid.position p)) y')).
    assert (Hstop' : Grid.isValidMove
                       (Grid.withY q (Grid.py (Grid.position q) + 1)) b
                     = Done false) by exact Hstop.
    destruct fuel as [|fuel]; [lia |].
    cbn [Grid.dropLoop]. rewrite Hstop'. reflexivity.
Qed.

(** ** The DOM build: running for ever, and what it draws *)

Module DomRun.
Import Grid Spec.

Lemma dom_createNewPiece_returns (r : Z) :
  drawn r -> exists p, Dom.createNewPiece r = Done p.
Proof.
  intro Hr. apply Store.drawn_cases in Hr.
  repeat (destruct Hr as [-> | Hr]; [eexists; reflexivity |]).
  subst r. eexists. reflexivity.
Qed.

(** While the game runs and an active piece has a next piece behind it, an
    event with proper draws keeps it so. *)
Lemma dispatch_running (e : Dom.event) (s : Dom.State) :
  domDrawn e ->
  Dom.gameOver s = false ->
  (Dom.piece s <> None -> Dom.nextPiece s <> None) ->
  Dom.gameOver (Dom.dispatch e s) = false
  /\ (Dom.piece (Dom.dispatch e s) <> None ->
      Dom.nextPiece (Dom.dispatch e s) <> None).
Proof.
  intros Hd Hg Hn.
  assert (Hdraws : exists r1 r2 f1 f2,
            Dom.createNewPiece r1 = Done f1
            /\ Dom.createNewPiece r2 = Done f2
            /\ match e with
               | Dom.KeyDown _ a b | Dom.Tick a b | Dom.Effect a b =>
                   a = r1 /\ b = r2
               end).
  { destruct e as [k a b | a b | a b]; destruct Hd as [Ha Hb];
      destruct (dom_createNewPiece_returns a Ha) as [f1 E1];
      destruct (dom_createNewPiece_returns b Hb) as [f2 E2];
      exists a, b, f1, f2; auto. }
  destruct Hdraws as (r1 & r2 & f1 & f2 & E1 & E2 & He).
  destruct e as [k a b | a b | a b]; destruct He as [-> ->];
    unfold Dom.dispatch, run; unfold_dom; rewrite ?E1, ?E2, ?Hg;
    repeat (branch; simp_dom);
    try (split; [first [assumption | reflexivity] |];
         first [ assumption
               | intros _; discriminate
               | intros _; apply Hn; discriminate
               | intros; congruence ]);
    exfalso; apply Hn; first [discriminate | reflexivity].
Qed.

(** [renderBoard]'s test against the shape's slot, for a rectangular
    shape. *)
Lemma isActivePiece_truthy (p : Piece Z) (h w x y : Z) :
  rectangular (shape p) h w ->
  Dom.isActivePiece (Some p) x y
  = truthy (cellOf (shape p) (x - px (position p)) (y - py (position p))).
Proof.
  intros [Hlen Hall]. unfold Dom.isActivePiece, cellOf.
  destruct (index (shape p) (y - py (position p))) as [row |] eqn:Hrow;
    [| rewrite !andb_false_r; reflexivity].
  pose proof (index_some_range _ _ _ Hrow) as Hy.
  destruct (index_in_range (shape p) 0) as [first Hfirst]; [lia |].
  rewrite Hfirst.
  assert (Hfw : len first = w).
  { rewrite Forall_forall in Hall. apply Hall.
    exact (WellFormed.index_In _ _ _ Hfirst). }
  assert (Hrw : len row = w).
  { rewrite Forall_forall in Hall. apply Hall.
    exact (WellFormed.index_In _ _ _ Hrow). }
  destruct (truthy (cellAt row (x - px (position p)))) eqn:Ht;
    [| rewrite !andb_false_r; reflexivity].
  assert (Hx : 0 <= x - px (position p) < len row).
  { unfold cellAt in Ht.
    destruct (index row (x - px (position p))) eqn:Hi; [| discriminate].
    exact (index_some_range _ _ _ Hi). }
  unfold Row in *.
  destruct (Z.geb_spec y (py (position p)));
    destruct (Z.ltb_spec y (py (position p) + len (shape p)));
    destruct (Z.geb_spec x (px (position p)));
    destruct (Z.ltb_spec x (px (position p) + len first));
    try lia; reflexivity.
Qed.

End DomRun.

(** X14. The DOM build never ends the game: from mount, whatever keys,
    ticks and effect runs arrive with draws that are catalogue indices, the
    game-over flag stays false. *)
Theorem Dom_game_never_ends (es : list Dom.event) :
  Forall Spec.domDrawn es ->
  Dom.gameOver (Dom.dispatchAll es Dom.initialState) = false.
Proof.
  assert (Hgen : forall es s,
            Forall Spec.domDrawn es ->
            Dom.gameOver s = false ->
            (Dom.piece s <> None -> Dom.nextPiece s <> None) ->
            Dom.gameOver (Dom.dispatchAll es s) = false).
  { clear es. induction es as [|e es IH]; intros s Hes Hg Hn;
      cbn [Dom.dispatchAll]; [exact Hg |].
    inversion Hes as [|e' es' He Hrest]; subst.
    destruct (DomRun.dispatch_running e s He Hg Hn) as [Hg' Hn'].
    apply IH; assumption. }
  intro Hes. apply Hgen; [exact Hes | reflexivity |].
  intro H. exfalso. apply H. reflexivity.
Qed.

(** X15. What the DOM build draws is what a lock would write: for a valid
    active piece with a rectangular shape, not above the board, the grid of
    colour indices [renderBoard] hands to [renderCell] is the board
    [mergePieceToBoard] returns for that piece. *)
Theorem Dom_renderBoard_shows_lock (s : Dom.State) (p : Grid.Piece Z)
  (h w : Z) :
  Dom.piece s = Some p ->
  Spec.fullSize (Dom.board s) ->
  Spec.rectangular (Grid.shape p) h w ->
  Grid.isValidMove p (Dom.board s) = Done true ->
  0 <= Grid.py (Grid.position p) ->
  Grid.mergePieceToBoard Dom.cellId p (Dom.board s)
  = Done (Dom.renderBoard s).
Proof.
  intros Hp Hb Hrect Hv Hy.
  destruct (Merge.merge_cellOf Dom.cellId p (Dom.board s) Hb Hv Hy)
    as [nb [Hm [Hnb Hcell]]].
  rewrite Hm. f_equal.
  apply (Turns.rect_ext nb (Dom.renderBoard s) BOARD_HEIGHT BOARD_WIDTH Hnb).
  - destruct Hb as [Hlen Hall]. split.
    + unfold Dom.renderBoard. rewrite Rotation.len_mapIndexed. exact Hlen.
    + apply Forall_forall. intros row Hin.
      destruct (Turns.In_index _ _ Hin) as [j Hj].
      pose proof (index_some_range _ _ _ Hj) as Hjr.
      unfold Dom.renderBoard in Hj.
      rewrite Rotation.index_mapIndexed in Hj by lia.
      destruct (index (Dom.board s) j) as [r |] eqn:Hr;
        unfold Grid.Board, Row in *; rewrite ?Hr in Hj;
        cbn [option_map] in Hj;
        [| discriminate Hj].
      injection Hj as <-.
      rewrite Rotation.len_mapIndexed.
      rewrite Forall_forall in Hall. apply Hall.
      exact (WellFormed.index_In _ _ _ Hr).
  - intros x y Hx Hy'. rewrite Hcell.
    rewrite <- (DomRun.isActivePiece_truthy p h w x y Hrect).
    destruct Hb as [Hlen Hall].
    destruct (index_in_range (Dom.board s) y) as [row Hrow]; [lia |].
    assert (Hw : len row = BOARD_WIDTH).
    { rewrite Forall_forall in Hall. apply Hall.
      exact (WellFormed.index_In _ _ _ Hrow). }
    destruct (index_in_range row x) as [v Hcellv]; [lia |].
    unfold Dom.renderBoard, Spec.cellOf.
    rewrite Rotation.index_mapIndexed by lia.
    unfold Row in *. rewrite !Hrow.
    cbn [option_map]. unfold cellAt.
    rewrite Rotation.index_mapIndexed by lia. rewrite Hcellv.
    cbn [option_map]. rewrite Hp, !Z.add_0_l.
    destruct (Dom.isActivePiece (Some p) x y); reflexivity.
Qed.

(** ** The flat and the volumetric build *)

Ltac simp_vol :=
  cbn [fst snd negb Volumetric.board Volumetric.piece Volumetric.nextPiece
       Volumetric.score Volumetric.level Volumetric.gameOver
       Volumetric.speed] in *.

Ltac unfold_vol_setters :=
  unfold Volumetric.setBoard, Volumetric.setPiece, Volumetric.setNextPiece,
    Volumetric.setScore, Volumetric.setLevel, Volumetric.setGameOver,
    Volumetric.setSpeed in *;
  unfold_update.

(** X13. In the flat build the space key does what the down arrow does: on
    a board of 20 rows, for a piece with at least one cell and fuel for the
    loop of the hard drop, both keys leave the same state. *)
Theorem Flat3D_space_is_arrow_down (fuel : nat) (r1 r2 : Z)
  (s : Flat3D.State) :
  len (Flat3D.board s) = BOARD_HEIGHT ->
  (forall p, Flat3D.piece s = Some p ->
     (exists dx dy, Spec.subCell (Grid.shape p) dx dy)
     /\ (Z.to_nat (BOARD_HEIGHT - Grid.py (Grid.position p)) < fuel)%nat) ->
  run (Flat3D.handleKeyPress Flat3D.Space fuel r1 r2) s
  = run (Flat3D.handleKeyPress Flat3D.ArrowDown fuel r1 r2) s.
Proof.
  intros Hlen Hpiece. unfold run, Flat3D.handleKeyPress.
  destruct (Flat3D.gameOver s); [reflexivity |].
  destruct (Flat3D.piece s) as [p |] eqn:Hp;
    [| unfold Flat3D.hardDrop, Flat3D.moveDown; rewrite Hp; reflexivity].
  destruct (Hpiece p eq_refl) as [Hcell Hfuel].
  destruct (HardDrop.dropLoop_finds_row p (Flat3D.board s) Hlen Hcell fuel
              (Grid.py (Grid.position p)) Hfuel) as [newY [Hloop _]].
  exact (Flat3D_hardDrop_is_moveDown fuel r1 r2 s p newY Hp Hloop).
Qed.

(** X16. In the flat build a lock checks the piece it promotes: with a next
    piece waiting, the board becomes the cleared board and the game-over flag
    is set exactly when the next piece is not valid on it; then the locked
    piece and the next piece stay where they are, otherwise the next piece
    becomes the active one. *)
Theorem Flat3D_lock_checks_promoted (r1 r2 : Z) (s : Flat3D.State)
  (p np : Grid.Piece string) (newBoard clearedBoard : Grid.Board) (k : Z)
  (ok : bool) :
  Flat3D.piece s = Some p ->
  Flat3D.nextPiece s = Some np ->
  Flat3D.gameOver s = false ->
  Grid.isValidMove (Grid.withY p (Grid.py (Grid.position p) + 1))
    (Flat3D.board s) = Done false ->
  Grid.mergePieceToBoard Flat3D.cellId p (Flat3D.board s) = Done newBoard ->
  Grid.clearLines newBoard = (clearedBoard, k) ->
  Grid.isValidMove np clearedBoard = Done ok ->
  Flat3D.board (run (Flat3D.moveDown r1 r2) s) = clearedBoard
  /\ Flat3D.gameOver (run (Flat3D.moveDown r1 r2) s) = negb ok
  /\ (ok = false ->
      Flat3D.piece (run (Flat3D.moveDown r1 r2) s) = Some p
      /\ Flat3D.nextPiece (run (Flat3D.moveDown r1 r2) s) = Some np)
  /\ (ok = true ->
      Flat3D.piece (run (Flat3D.moveDown r1 r2) s) = Some np).
Proof.
  intros Hp Hnp Hg Hv Hm Hc Hok.
  unfold run, Flat3D.moveDown. unfold_flat_setters.
  rewrite Hp, Hv, Hm, Hc, Hnp, Hok.
  destruct ok; simp_flat; repeat (branch; simp_flat);
    repeat split; try assumption; try reflexivity; congruence.
Qed.

(** X17. The volumetric build does the same: a lock sets the game-over flag
    exactly when the waiting next piece is not valid in the cleared volume,
    and promotes it otherwise. *)
Theorem Volumetric_lock_checks_promoted (r1 r2 : Z) (s : Volumetric.State)
  (p np : Volumetric.Piece) (newBoard clearedBoard : Volumetric.Board)
  (k : Z) (ok : bool) :
  Volumetric.piece s = Some p ->
  Volumetric.nextPiece s = Some np ->
  Volumetric.gameOver s = false ->
  Volumetric.isValidMove
    (Volumetric.withPosition p
       (Volumetric.mkPosition (Volumetric.px (Volumetric.position p))
          (Volumetric.py (Volumetric.position p) + 1)
          (Volumetric.pz (Volumetric.position p))))
    (Volumetric.board s) = Done false ->
  Volumetric.mergePieceToBoard p (Volumetric.board s) = Done newBoard ->
  Volumetric.clearLines newBoard = (clearedBoard, k) ->
  Volumetric.isValidMove np clearedBoard = Done ok ->
  Volumetric.board (run (Volumetric.moveDown r1 r2) s) = clearedBoard
  /\ Volumetric.score (run (Volumetric.moveDown r1 r2) s)
     = Volumetric.score s + k * k * 100 + 10
  /\ Volumetric.gameOver (run (Volumetric.moveDown r1 r2) s) = negb ok
  /\ (ok = false ->
      Volumetric.piece (run (Volumetric.moveDown r1 r2) s) = Some p
      /\ Volumetric.nextPiece (run (Volumetric.moveDown r1 r2) s) = Some np)
  /\ (ok = true ->
      Volumetric.piece (run (Volumetric.moveDown r1 r2) s) = Some np).
Proof.
  intros Hp Hnp Hg Hv Hm Hc Hok.
  unfold run, Volumetric.moveDown. unfold_vol_setters.
  rewrite Hp, Hv, Hm, Hc, Hnp, Hok.
  destruct ok; simp_vol; repeat (branch; simp_vol);
    repeat split; try assumption; try reflexivity; congruence.
Qed.

(** X18. In the volumetric build a step in depth that is taken is undone by
    the step back, when the piece is valid where it stands. *)
Theorem Volumetric_depth_round_trip (s : Volumetric.State)
  (p : Volumetric.Piece) :
  Volumetric.piece s = Some p ->
  Volumetric.isValidMove p (Volumetric.board s) = Done true ->
  (Volumetric.isValidMove
     (Volumetric.withPosition p
        (Volumetric.mkPosition (Volumetric.px (Volumetric.position p))
           (Volumetric.py (Volumetric.position p))
           (Volumetric.pz (Volumetric.position p) + -1)))
     (Volumetric.board s) = Done true ->
   run (Volumetric.moveDepth Volumetric.backward)
     (run (Volumetric.moveDepth Volumetric.forward) s) = s)
  /\ (Volumetric.isValidMove
        (Volumetric.withPosition p
           (Volumetric.mkPosition (Volumetric.px (Volumetric.position p))
              (Volumetric.py (Volumetric.position p))
              (Volumetric.pz (Volumetric.position p) + 1)))
        (Volumetric.board s) = Done true ->
      run (Volumetric.moveDepth Volumetric.forward)
        (run (Volumetric.moveDepth Volumetric.backward) s) = s).
Proof.
  intros Hp Hv.
  destruct s as [b pc np sc lv go sp].
  destruct p as [sh [x y z] c].
  cbn [Volumetric.piece Volumetric.board] in Hp, Hv. subst pc.
  split; intro Hmove;
    unfold run, Volumetric.moveDepth, bind, lift, Volumetric.setPiece, queue,
      Volumetric.withPosition in *;
    cbn [Volumetric.piece Volumetric.board Volumetric.position
         Volumetric.px Volumetric.py Volumetric.pz Volumetric.shape
         Volumetric.color] in *;
    rewrite Hmove;
    cbn [snd fst Volumetric.piece Volumetric.board Volumetric.position
         Volumetric.px Volumetric.py Volumetric.pz Volumetric.shape
         Volumetric.color Volumetric.nextPiece Volumetric.score
         Volumetric.level Volumetric.gameOver Volumetric.speed].
  - replace (z + -1 + 1) with z by lia. rewrite Hv. reflexivity.
  - replace (z + 1 + -1) with z by lia. rewrite Hv. reflexivity.
Qed.

(** X19. The volumetric build at mount: with draws that are catalogue
    indices the spawning effect installs a piece that is valid in the empty
    volume, in row 0, with a next piece behind it, and the game goes on. *)
Theorem Volumetric_mount_spawns (r1 r2 : Z) :
  Spec.drawn r1 -> Spec.drawn r2 ->
  exists p np,
    Volumetric.createNewPiece r1 = Done p
    /\ Volumetric.createNewPiece r2 = Done np
    /\ Volumetric.py (Volumetric.position p) = 0
    /\ Volumetric.isValidMove p Volumetric.emptyBoard = Done true
    /\ run (Volumetric.spawnEffect r1 r2) Volumetric.initialState
       = Volumetric.mkState Volumetric.emptyBoard (Some p) (Some np) 0 1
           false Volumetric.INITIAL_SPEED.
Proof.
  intros H1 H2.
  apply Store.drawn_cases in H1. apply Store.drawn_cases in H2.
  repeat (destruct H1 as [-> | H1]); subst;
    repeat (destruct H2 as [-> | H2]); subst;
    do 2 eexists; repeat split; reflexivity.
Qed.

(** X20. In the canvas build there is always an active piece once there is
    one: no sequence of events empties the slot. *)
Theorem Hold_piece_stays_active (es : list Hold.event) (s : Hold.State) :
  Hold.piece s <> None -> Hold.piece (Hold.dispatchAll es s) <> None.
Proof.
  revert s. induction es as [|e es IH]; intros s Hp;
    cbn [Hold.dispatchAll]; [exact Hp |].
  apply IH. apply Invariant.dispatch_keeps_piece. exact Hp.
Qed.

(** ** How many lines a lock can clear *)

Module Lines.
Import Grid Spec.

Lemma writeCell_other_rows (b b' : Board) (r c : Z) (v : value) :
  writeCell b r c v = Done b' ->
  forall i, i <> r -> index b' i = index b i.
Proof.
  unfold writeCell. destruct (index b r) as [row |] eqn:Hrow; [| discriminate].
  intro H.
  assert (Hb' : b' = firstn (Z.to_nat r) b
                     ++ writeSlot row c v :: skipn (S (Z.to_nat r)) b)
    by congruence.
  rewrite Hb'. intros i Hi.
  rewrite Merge.index_replaced by exact (index_some_range _ _ _ Hrow).
  destruct (Z.eqb_spec i r); [contradiction | reflexivity].
Qed.

Lemma mergeRow_other_rows (id : value) (pos : Position) (y : Z) (row : Row) :
  forall (x : Z) (b b' : Board),
    mergeRow id pos y row x b = Done b' ->
    forall i, i <> py pos + y -> index b' i = index b i.
Proof.
  induction row as [|v rest IH]; intros x b b' H i Hi; cbn [mergeRow] in H.
  - injection H as <-. reflexivity.
  - destruct (truthy v).
    + destruct (writeCell b (py pos + y) (px pos + x) id) as [nb | |] eqn:Hw;
        cbn [obind] in H; try discriminate.
      rewrite (IH _ _ _ H i Hi).
      exact (writeCell_other_rows _ _ _ _ _ Hw i Hi).
    + exact (IH _ _ _ H i Hi).
Qed.

(** A merge only touches the rows the shape lies over. *)
Lemma mergeRows_other_rows (id : value) (pos : Position) (rows : list Row) :
  forall (y : Z) (b b' : Board),
    mergeRows id pos rows y b = Done b' ->
    forall i, i < py pos + y \/ py pos + y + len rows <= i ->
              index b' i = index b i.
Proof.
  induction rows as [|row rest IH]; intros y b b' H i Hi;
    cbn [mergeRows] in H.
  - injection H as <-. reflexivity.
  - destruct (mergeRow id pos y row 0 b) as [nb | |] eqn:Hr;
      cbn [obind] in H; try discriminate.
    unfold len in Hi. rewrite length_cons in Hi.
    rewrite (IH _ _ _ H i) by (unfold len; lia).
    apply (mergeRow_other_rows _ _ _ _ _ _ _ Hr). lia.
Qed.

(** Full rows that all lie in a window of [n] rows are at most [n]. *)
Lemma full_rows_window (lo n : Z) :
  forall (l : Board) (off : Z),
    (forall i row, index l i = Some row -> isFull row = true ->
                   lo <= off + i < lo + n) ->
    len (filter isFull l)
    <= Z.max 0 (Z.min (lo + n) (off + len l) - Z.max lo off).
Proof.
  induction l as [|row rest IH]; intros off H; cbn [filter].
  - unfold len. cbn [List.length]. lia.
  - assert (Hrest : forall i r, index rest i = Some r -> isFull r = true ->
                      lo <= off + 1 + i < lo + n).
    { intros i r Hi Hf. pose proof (index_some_range _ _ _ Hi).
      specialize (H (i + 1) r). rewrite index_tail in H by lia.
      replace (i + 1 - 1) with i in H by lia.
      specialize (H Hi Hf). lia. }
    specialize (IH (off + 1) Hrest).
    destruct (isFull row) eqn:Hfull.
    + specialize (H 0 row (index_head _ _) Hfull).
      unfold len in *. rewrite !length_cons. lia.
    + unfold len in *. rewrite length_cons. lia.
Qed.

Lemma cleared_no_full (b : Board) :
  Forall (fun row => ~ fullRow row) (cleared b).
Proof.
  unfold cleared. apply Forall_app. split.
  - apply Forall_forall. intros row Hrow. apply repeat_spec in Hrow.
    subst row. intro Hfull. apply ClearLines.isFull_fullRow in Hfull.
    discriminate Hfull.
  - unfold keptRows. apply Forall_forall. intros row Hrow.
    apply filter_In in Hrow. destruct Hrow as [_ Hrow].
    intro Hfull. apply ClearLines.isFull_fullRow in Hfull.
    rewrite Hfull in Hrow. discriminate Hrow.
Qed.

(** On a board without full rows, a lock completes at most as many rows as
    the shape has. *)
Lemma merge_clears_few {C : Type} (id : Piece C -> value) (p : Piece C)
  (b nb : Board) :
  len b = BOARD_HEIGHT ->
  Forall (fun row => ~ fullRow row) b ->
  mergePieceToBoard id p b = Done nb ->
  clearLines nb = (cleared nb, fullCount nb)
  /\ len (cleared nb) = BOARD_HEIGHT
  /\ 0 <= fullCount nb <= len (shape p).
Proof.
  intros Hlen Hnone Hm. unfold mergePieceToBoard in Hm.
  assert (Hl : len nb = BOARD_HEIGHT)
    by (rewrite (Invariant.mergeRows_len _ _ _ _ _ _ Hm); exact Hlen).
  split; [exact (ClearLines.clearLines_cleared nb Hl) |].
  split; [exact (ClearLines.cleared_len nb Hl) |].
  split; [unfold fullCount, len; lia |].
  pose proof (full_rows_window (py (position p)) (len (shape p)) nb 0) as Hw.
  assert (Hh : 0 <= len (shape p)) by (unfold len; lia).
  unfold fullCount.
  enough (Hin : forall i row, index nb i = Some row -> isFull row = true ->
                  py (position p) <= 0 + i
                  < py (position p) + len (shape p)).
  { specialize (Hw Hin). lia. }
  intros i row Hi Hf.
  destruct (Z.lt_ge_cases i (py (position p))) as [Hlo | Hlo];
    [| destruct (Z.lt_ge_cases i (py (position p) + len (shape p)))
         as [Hhi | Hhi]; [lia |]];
    exfalso;
    rewrite (mergeRows_other_rows _ _ _ _ _ _ Hm i) in Hi by lia;
    apply WellFormed.index_In in Hi;
    rewrite Forall_forall in Hnone;
    apply (Hnone row Hi); apply ClearLines.isFull_fullRow; exact Hf.
Qed.

Lemma createNewPiece_small (r : Z) (p : Piece string) :
  Hold.createNewPiece r = Done p -> smallShape (shape p).
Proof.
  unfold Hold.createNewPiece, createNewPieceFrom.
  destruct (index Hold.SHAPES r) as [[sh c] |] eqn:Hidx; [| discriminate].
  assert (Hsmall : smallShape sh).
  { apply WellFormed.index_In in Hidx. cbn in Hidx.
    repeat (destruct Hidx as [Hidx | Hidx];
            [injection Hidx as <- _; split;
             [unfold len; cbn; lia
             | intros first Hf; vm_compute in Hf;
               injection Hf as <-; unfold len; cbn; lia] |]).
    contradiction. }
  destruct (spawnX sh) as [x | |]; cbn [obind]; try discriminate.
  intro H. injection H as <-. exact Hsmall.
Qed.

Lemma rotateShape_small (s newShape : list Row) :
  smallShape s -> rotateShape s = Done newShape -> smallShape newShape.
Proof.
  intros [Hh Hw]. unfold rotateShape.
  destruct (index s 0) as [first |] eqn:Hf; [| discriminate].
  intro H. injection H as <-. split.
  - rewrite Rotation.len_mapIndexed. exact (Hw first eq_refl).
  - intros r Hr. rewrite Rotation.index_mapIndexed in Hr by lia.
    destruct (index first 0); cbn [option_map] in Hr; [| discriminate].
    injection Hr as <-. unfold len in *.
    rewrite length_rev, length_map. exact Hh.
Qed.

(** One conjunct of [tidy] about a piece slot. *)
Ltac small_piece :=
  first
    [ assumption
    | match goal with
      | E : ?o = Some ?p, H : smallPiece (Some ?p) |- smallPiece ?o =>
          rewrite E; exact H
      end
    | let q := fresh "q" in
      let Hq := fresh "Hq" in
      intros q Hq; discriminate Hq
    | let q := fresh "q" in
      let Hq := fresh "Hq" in
      intros q Hq; injection Hq as <-;
      cbn [shape withY withX withPosition withShape Hold.kicked];
      first
        [ eapply createNewPiece_small; eassumption
        | match goal with
          | H : smallPiece (Some ?p) |- smallShape (shape ?p) =>
              exact (H p eq_refl)
          | H : smallPiece ?o, E : ?o = Some ?p |- smallShape (shape ?p) =>
              exact (H p E)
          | H : smallPiece (Some ?p), R : rotateShape (shape ?p) = Done ?ns
            |- smallShape ?ns =>
              exact (rotateShape_small _ _ (H p eq_refl) R)
          | H : smallPiece ?o, E : ?o = Some ?p,
            R : rotateShape (shape ?p) = Done ?ns |- smallShape ?ns =>
              exact (rotateShape_small _ _ (H p E) R)
          end ] ].

Ltac tidy_pieces :=
  split; [small_piece | split; small_piece].

Lemma afterLock_tidy (r1 r2 : Z) (snap st : Hold.State)
  (clearedBoard : Board) (newScore : Z) :
  tidy st -> smallPiece (Hold.nextPiece snap) ->
  tidy (snd (Hold.afterLock r1 r2 snap clearedBoard newScore st)).
Proof.
  intros [Hb [Hf [Hp [Hn Hs]]]] Hsnap. unfold tidy. unfold_hold.
  repeat (branch; simp_hold);
    (split; [exact Hb |]); (split; [exact Hf |]); tidy_pieces.
Qed.

Lemma moveDown_tidy (r1 r2 : Z) (s : Hold.State) :
  tidy s -> tidy (run (Hold.moveDown r1 r2) s).
Proof.
  intros Hinv. pose proof Hinv as [Hb [Hf [Hp [Hn Hs]]]].
  unfold run, Hold.moveDown.
  destruct (Hold.piece s) as [p |] eqn:Ep; [| exact Hinv].
  unfold bind at 1. unfold lift at 1.
  destruct (isValidMove (withY p (py (position p) + 1)) (Hold.board s))
    as [[|] | |]; try exact Hinv.
  - unfold Hold.setPiece, queue. cbn [snd]. unfold tidy. simp_hold.
    split; [exact Hb |]. split; [exact Hf |]. tidy_pieces.
  - unfold bind at 1. unfold lift at 1.
    destruct (mergePieceToBoard Hold.cellId p (Hold.board s))
      as [newBoard | |] eqn:Hm; try exact Hinv.
    destruct (merge_clears_few _ _ _ _ Hb Hf Hm) as [Hc [Hl _]].
    rewrite Hc.
    unfold bind at 1. unfold Hold.setBoard, queue.
    apply afterLock_tidy; [| exact Hn].
    unfold tidy. simp_hold.
    split; [exact Hl |]. split; [exact (cleared_no_full newBoard) |].
    tidy_pieces.
Qed.

Lemma hardDrop_tidy (fuel : nat) (r1 r2 : Z) (s : Hold.State) :
  tidy s -> tidy (run (Hold.hardDrop fuel r1 r2) s).
Proof.
  intros Hinv. pose proof Hinv as [Hb [Hf [Hp [Hn Hs]]]].
  unfold run, Hold.hardDrop.
  destruct (Hold.piece s) as [p |] eqn:Ep; [| exact Hinv].
  unfold bind at 1. unfold lift at 1.
  destruct (Hold.getDropPosition fuel p (Hold.board s))
    as [dropPosition | |]; try exact Hinv.
  unfold bind at 1. unfold Hold.setPiece, queue.
  unfold bind at 1. unfold lift at 1.
  destruct (mergePieceToBoard Hold.cellId (withPosition p dropPosition)
              (Hold.board s)) as [newBoard | |] eqn:Hm; cbn [snd];
    try (unfold tidy; simp_hold; (split; [exact Hb |]);
         (split; [exact Hf |]); tidy_pieces).
  destruct (merge_clears_few _ _ _ _ Hb Hf Hm) as [Hc [Hl _]].
  rewrite Hc.
  unfold bind at 1. unfold Hold.setBoard, queue.
  apply afterLock_tidy; [| exact Hn].
  unfold tidy. simp_hold.
  split; [exact Hl |]. split; [exact (cleared_no_full newBoard) |].
  tidy_pieces.
Qed.

Lemma tryKicks_tidy (newPiece : Piece string) (b : Board)
  (ks : list Position) (st : Hold.State) :
  tidy st -> smallShape (shape newPiece) ->
  tidy (snd (Hold.tryKicks newPiece b ks st)).
Proof.
  intros Hinv Hsmall. induction ks as [|kick rest IH]; cbn [Hold.tryKicks];
    [exact Hinv |].
  unfold bind at 1. unfold lift at 1.
  destruct (isValidMove (Hold.kicked newPiece kick) b) as [[|] | |];
    try exact Hinv; [| exact IH].
  destruct Hinv as [Hb [Hf [Hp [Hn Hs]]]].
  unfold Hold.setPiece, queue, tidy. simp_hold.
  split; [exact Hb |]. split; [exact Hf |].
  split; [| split; assumption].
  intros q Hq. injection Hq as <-. exact Hsmall.
Qed.

Lemma dispatch_tidy (e : Hold.event) (s : Hold.State) :
  tidy s -> tidy (Hold.dispatch e s).
Proof.
  intro Hinv. pose proof Hinv as [Hb [Hf [Hp [Hn Hs]]]].
  destruct e as [k fuel r1 r2 | r1 r2 | r1 r2]; unfold Hold.dispatch.
  - unfold run, Hold.handleKeyPress.
    destruct (Hold.gameOver s); [exact Hinv |].
    destruct k; try exact Hinv.
    + unfold_hold. repeat (branch; simp_hold); try exact Hinv;
        unfold tidy; simp_hold; (split; [exact Hb |]);
        (split; [exact Hf |]); tidy_pieces.
    + unfold_hold. repeat (branch; simp_hold); try exact Hinv;
        unfold tidy; simp_hold; (split; [exact Hb |]);
        (split; [exact Hf |]); tidy_pieces.
    + apply moveDown_tidy. exact Hinv.
    + apply hardDrop_tidy. exact Hinv.
    + unfold Hold.rotate.
      destruct (Hold.piece s) as [p |] eqn:Ep; [| exact Hinv].
      unfold bind at 1. unfold lift at 1.
      destruct (rotateShape (shape p)) as [newShape | |] eqn:Hrot;
        try exact Hinv.
      unfold bind at 1. unfold lift at 1.
      destruct (isValidMove (withShape p newShape) (Hold.board s))
        as [[|] | |]; try exact Hinv.
      * unfold Hold.setPiece, queue, tidy. simp_hold.
        split; [exact Hb |]. split; [exact Hf |]. tidy_pieces.
      * apply tryKicks_tidy; [exact Hinv |].
        exact (rotateShape_small _ _ (Hp p eq_refl) Hrot).
    + unfold_hold. repeat (branch; simp_hold); try exact Hinv;
        unfold tidy; simp_hold; (split; [exact Hb |]);
        (split; [exact Hf |]); tidy_pieces.
  - unfold run, Hold.gravityTick.
    destruct (Hold.gameOver s); [exact Hinv |].
    apply moveDown_tidy. exact Hinv.
  - unfold_hold. repeat (branch; simp_hold); try exact Hinv;
      unfold tidy; simp_hold; (split; [exact Hb |]);
      (split; [exact Hf |]); tidy_pieces.
Qed.

Lemma mount_tidy (stored : Z) (es : list Hold.event) :
  tidy (Hold.dispatchAll es (Hold.initialState stored)).
Proof.
  assert (Hgen : forall es s, tidy s -> tidy (Hold.dispatchAll es s)).
  { clear es. induction es as [|e es IH]; intros s Hs;
      cbn [Hold.dispatchAll]; [exact Hs |].
    apply IH. apply dispatch_tidy. exact Hs. }
  apply Hgen. unfold tidy, Hold.initialState.
  cbn [Hold.board Hold.piece Hold.nextPiece Hold.storedPiece].
  split; [reflexivity |].
  split; [| split; [| split]; intros q Hq; discriminate Hq].
  unfold emptyBoard. apply Forall_forall. intros row Hrow.
  apply repeat_spec in Hrow. subst row. intro Hfull.
  apply ClearLines.isFull_fullRow in Hfull. discriminate Hfull.
Qed.

End Lines.

(** X21. From mount, in every state of the canvas build a lock clears at
    most four lines: a soft drop raises the score by at most 4 * 4 * 100 + 10,
    and a hard drop by at most that plus the rows the piece falls. *)
Theorem Hold_lock_clears_at_most_four (stored : Z) (es : list Hold.event)
  (r1 r2 : Z) :
  Hold.score
    (run (Hold.moveDown r1 r2)
       (Hold.dispatchAll es (Hold.initialState stored)))
  <= Hold.score (Hold.dispatchAll es (Hold.initialState stored)) + 1610
  /\ forall (fuel : nat) (p : Grid.Piece string) (dropPosition : Grid.Position),
       Hold.piece (Hold.dispatchAll es (Hold.initialState stored)) = Some p ->
       Hold.getDropPosition fuel p
         (Hold.board (Hold.dispatchAll es (Hold.initialState stored)))
       = Done dropPosition ->
       Hold.score
         (run (Hold.hardDrop fuel r1 r2)
            (Hold.dispatchAll es (Hold.initialState stored)))
       <= Hold.score (Hold.dispatchAll es (Hold.initialState stored)) + 1610
          + (Grid.py dropPosition - Grid.py (Grid.position p)).
Proof.
  pose proof (Lines.mount_tidy stored es) as Htidy.
  set (s := Hold.dispatchAll es (Hold.initialState stored)) in *.
  destruct Htidy as [Hb [Hf [Hp _]]].
  split.
  - destruct (Hold.piece s) as [p |] eqn:Ep;
      [| unfold run, Hold.moveDown; rewrite Ep; cbn; lia].
    destruct (Grid.isValidMove
                (Grid.withY p (Grid.py (Grid.position p) + 1))
                (Hold.board s)) as [[|] | |] eqn:Hv;
      try (unfold run, Hold.moveDown, bind, lift; rewrite Ep, Hv; cbn; lia).
    destruct (Grid.mergePieceToBoard Hold.cellId p (Hold.board s))
      as [newBoard | |] eqn:Hm;
      try (rewrite (HardDrop.moveDown_throws r1 r2 s p Ep Hv)
             by (intros nb Hnb; congruence); lia).
    destruct (Lines.merge_clears_few _ _ _ _ Hb Hf Hm) as [Hc [_ Hk]].
    rewrite (HardDrop.moveDown_locked r1 r2 s p newBoard _ _ Ep Hv Hm Hc).
    destruct (Tally.afterLock_tally r1 r2 s
                (Hold.mkState (Spec.cleared newBoard) (Hold.piece s)
                   (Hold.nextPiece s) (Hold.score s) (Hold.level s)
                   (Hold.gameOver s) (Hold.speed s) (Hold.storedPiece s)
                   (Hold.canStore s) (Hold.highScore s))
                (Spec.cleared newBoard)
                (Hold.score s + Spec.fullCount newBoard
                                * Spec.fullCount newBoard * 100 + 10)
                eq_refl eq_refl eq_refl) as [Hscore _].
    rewrite Hscore.
    destruct (Hp p eq_refl) as [Hh _]. nia.
  - intros fuel p dropPosition Ep Hd.
    destruct (Grid.mergePieceToBoard Hold.cellId
                (Grid.withPosition p dropPosition) (Hold.board s))
      as [newBoard | |] eqn:Hm;
      try (rewrite (HardDrop.hardDrop_throws fuel r1 r2 s p dropPosition
                      Ep Hd) by (intros nb Hnb; congruence);
           cbn [Hold.score Spec.holdSetPiece];
           assert (Hge : Grid.py (Grid.position p) <= Grid.py dropPosition)
             by (unfold Hold.getDropPosition in Hd;
                 destruct (Grid.dropLoop fuel p (Hold.board s)
                             (Grid.py (Grid.position p))) as [y' | |] eqn:Hl;
                 cbn [obind] in Hd; try discriminate;
                 injection Hd as <-; cbn [Grid.py];
                 exact (Tally.dropLoop_ge _ _ _ _ _ Hl));
           lia).
    destruct (Lines.merge_clears_few _ _ _ _ Hb Hf Hm) as [Hc [_ Hk]].
    rewrite (HardDrop.hardDrop_locked fuel r1 r2 s p dropPosition newBoard
               _ _ Ep Hd Hm Hc).
    destruct (Tally.afterLock_tally r1 r2 s
                (Hold.mkState (Spec.cleared newBoard)
                   (Some (Grid.withPosition p dropPosition))
                   (Hold.nextPiece s) (Hold.score s) (Hold.level s)
                   (Hold.gameOver s) (Hold.speed s) (Hold.storedPiece s)
                   (Hold.canStore s) (Hold.highScore s))
                (Spec.cleared newBoard)
                (Hold.score s + Spec.fullCount newBoard
                                * Spec.fullCount newBoard * 100 + 10
                 + (Grid.py dropPosition - Grid.py (Grid.position p)))
                eq_refl eq_refl eq_refl) as [Hscore _].
    rewrite Hscore.
    destruct (Hp p Ep) as [Hh _].
    cbn [Grid.shape Grid.withPosition] in Hk. nia.
Qed.

(** ** The handlers of the DOM build never throw *)

Module DomSafe.
Import Grid Spec.

Lemma valid_is_inside {C : Type} (p : Piece C) (b : Board) :
  len b = BOARD_HEIGHT -> isValidMove p b = Done true ->
  0 <= py (position p) -> inside p.
Proof.
  intros Hlen Hv Hy dx dy Hsub. apply Merge.subCell_cellOf in Hsub.
  pose proof (Merge.valid_inside p b dx dy Hlen Hv Hsub). lia.
Qed.

Lemma spawned_safe (r : Z) (p : Piece Z) :
  Dom.createNewPiece r = Done p ->
  goodShape (shape p) /\ 0 <= py (position p) /\ inside p.
Proof.
  intro Hr.
  assert (Hcases : goodShape (shape p) /\ py (position p) = 0
                   /\ isValidMove p emptyBoard = Done true).
  { unfold Dom.createNewPiece, createNewPieceFrom in Hr.
    destruct (index Dom.SHAPES r) as [[sh c] |] eqn:Hidx; [| discriminate].
    apply WellFormed.index_In in Hidx. cbn in Hidx.
    repeat (destruct Hidx as [Hidx | Hidx];
            [injection Hidx as <- <-; cbn in Hr; injection Hr as <-;
             split; [repeat eexists | split; reflexivity] |]).
    contradiction. }
  destruct Hcases as [Hg [Hy Hv]]. split; [exact Hg |]. split; [lia |].
  apply (valid_is_inside p emptyBoard); [reflexivity | exact Hv | lia].
Qed.

(** A piece inside the board is merged without a throw. *)
Lemma merge_inside_done {C : Type} (id : Piece C -> value) (p : Piece C)
  (b : Board) :
  fullSize b -> inside p ->
  exists nb, mergePieceToBoard id p b = Done nb /\ fullSize nb.
Proof.
  intros Hb Hin. unfold mergePieceToBoard.
  destruct (Merge.mergeRows_cellOf (id p) (position p) (shape p) 0 b Hb)
    as [nb [Hm [Hnb _]]]; [| eauto].
  intros dx dy Hd. apply Merge.subCell_cellOf in Hd.
  destruct (Hin dx dy Hd). lia.
Qed.

Lemma clearLines_fullSize (b clearedBoard : Board) (k : Z) :
  fullSize b -> clearLines b = (clearedBoard, k) -> fullSize clearedBoard.
Proof.
  intros [Hlen Hall] Hc. rewrite (ClearLines.clearLines_cleared b Hlen) in Hc.
  injection Hc as <- _. split; [exact (ClearLines.cleared_len b Hlen) |].
  unfold cleared. apply Forall_app. split.
  - apply Forall_forall. intros row Hrow. apply repeat_spec in Hrow.
    subst row. reflexivity.
  - unfold keptRows. rewrite Forall_forall in *. intros row Hrow.
    apply filter_In in Hrow. apply Hall. tauto.
Qed.

Lemma rotate_returns (s : list Row) :
  goodShape s -> exists ns, rotateShape s = Done ns /\ goodShape ns.
Proof.
  intro Hg. destruct (rotateShape s) as [ns | |] eqn:Hr.
  - exists ns. split; [reflexivity |].
    exact (Invariant.rotateShape_good s ns Hg Hr).
  - destruct Hg as [v [vs [rest ->]]]. unfold rotateShape in Hr.
    rewrite index_head in Hr. discriminate Hr.
  - destruct Hg as [v [vs [rest ->]]]. unfold rotateShape in Hr.
    rewrite index_head in Hr. discriminate Hr.
Qed.

Lemma domSafe_intro (b : Board) (p np : Piece Z) (sc lv : Z) (go : bool)
  (sp : Z) :
  fullSize b ->
  goodShape (shape p) /\ 0 <= py (position p) /\ inside p ->
  (exists r, Dom.createNewPiece r = Done np) ->
  domSafe (Dom.mkState b (Some p) (Some np) sc lv go sp).
Proof.
  intros Hb Hp Hn. unfold domSafe. simp_dom.
  split; [exact Hb |]. split; [| split].
  - intros q Hq. injection Hq as <-. exact Hp.
  - intros q Hq. injection Hq as <-. exact Hn.
  - intros _. discriminate.
Qed.

(** The facts of [domSafe] for a state with an active piece. *)
Lemma domSafe_piece (s : Dom.State) (p : Piece Z) :
  domSafe s -> Dom.piece s = Some p ->
  fullSize (Dom.board s)
  /\ (goodShape (shape p) /\ 0 <= py (position p) /\ inside p)
  /\ exists np, Dom.nextPiece s = Some np
                /\ exists r, Dom.createNewPiece r = Done np.
Proof.
  intros [Hb [Hp [Hn Hnn]]] Ep. split; [exact Hb |].
  split; [exact (Hp p Ep) |].
  destruct (Dom.nextPiece s) as [np |] eqn:En.
  - exists np. split; [reflexivity |]. exact (Hn np eq_refl).
  - exfalso. apply Hnn; [rewrite Ep; discriminate | reflexivity].
Qed.

Lemma moveDown_safe (r1 r2 : Z) (s : Dom.State) :
  domSafe s -> drawn r1 ->
  domSafe (run (Dom.moveDown r1 r2) s)
  /\ result (Dom.moveDown r1 r2) s = Done tt.
Proof.
  intros Hs H1.
  destruct (Dom.piece s) as [p |] eqn:Ep;
    [| unfold run, result, Dom.moveDown; rewrite Ep;
       split; [exact Hs | reflexivity]].
  destruct (domSafe_piece s p Hs Ep)
    as [Hb [[Hgood [Hy Hin]] [np [En Hnp]]]].
  destruct (Store.isValidMove_returns (withY p (py (position p) + 1))
              (Dom.board s) (proj1 Hb)) as [ok Hv].
  destruct (DomRun.dom_createNewPiece_returns r1 H1) as [fresh E1].
  destruct s as [b pc nx sc lv go sp]. simp_dom. subst pc nx.
  unfold run, result. unfold_dom. simp_dom. rewrite Hv.
  destruct ok; simp_dom.
  - split; [| reflexivity]. apply domSafe_intro; [exact Hb | | exact Hnp].
    split; [exact Hgood |]. split; [cbn; lia |].
    apply (valid_is_inside _ b (proj1 Hb) Hv). cbn. lia.
  - destruct (merge_inside_done Dom.cellId p b Hb Hin) as [nb [Hm Hnb]].
    rewrite Hm.
    destruct (clearLines nb) as [clearedBoard k] eqn:Hc.
    pose proof (clearLines_fullSize nb clearedBoard k Hnb Hc) as Hcb.
    rewrite E1.
    destruct (sc + k * k * 100 + 10 >=? lv * LEVEL_THRESHOLD); simp_dom;
      (split; [| reflexivity]);
      (apply domSafe_intro; [exact Hcb | | eauto]);
      destruct Hnp as [r Hr]; exact (spawned_safe r np Hr).
Qed.

Lemma moveSideways_safe (d : Dom.direction) (s : Dom.State) :
  domSafe s ->
  domSafe (run (Dom.moveSideways d) s)
  /\ result (Dom.moveSideways d) s = Done tt.
Proof.
  intros Hs.
  destruct (Dom.piece s) as [p |] eqn:Ep;
    [| unfold run, result, Dom.moveSideways; rewrite Ep;
       split; [exact Hs | reflexivity]].
  destruct (domSafe_piece s p Hs Ep)
    as [Hb [[Hgood [Hy Hin]] [np [En Hnp]]]].
  destruct (Store.isValidMove_returns
              (withX p (px (position p)
                        + match d with Dom.left => -1 | Dom.right => 1 end))
              (Dom.board s) (proj1 Hb)) as [ok Hv].
  destruct s as [b pc nx sc lv go sp]. simp_dom. subst pc nx.
  unfold run, result. unfold_dom. simp_dom. rewrite Hv.
  destruct ok; simp_dom; (split; [| reflexivity]);
    (apply domSafe_intro; [exact Hb | | exact Hnp]).
  - split; [exact Hgood |]. split; [exact Hy |].
    exact (valid_is_inside _ b (proj1 Hb) Hv Hy).
  - auto.
Qed.

Lemma rotate_safe (s : Dom.State) :
  domSafe s ->
  domSafe (run Dom.rotate s) /\ result Dom.rotate s = Done tt.
Proof.
  intros Hs.
  destruct (Dom.piece s) as [p |] eqn:Ep;
    [| unfold run, result, Dom.rotate; rewrite Ep;
       split; [exact Hs | reflexivity]].
  destruct (domSafe_piece s p Hs Ep)
    as [Hb [[Hgood [Hy Hin]] [np [En Hnp]]]].
  destruct (rotate_returns (shape p) Hgood) as [ns [Hrot Hns]].
  destruct (Store.isValidMove_returns (withShape p ns) (Dom.board s)
              (proj1 Hb)) as [ok Hv].
  destruct s as [b pc nx sc lv go sp]. simp_dom. subst pc nx.
  unfold run, result. unfold_dom. simp_dom. rewrite Hrot. simp_dom.
  rewrite Hv.
  destruct ok; simp_dom; (split; [| reflexivity]);
    (apply domSafe_intro; [exact Hb | | exact Hnp]).
  - split; [exact Hns |]. split; [exact Hy |].
    exact (valid_is_inside _ b (proj1 Hb) Hv Hy).
  - auto.
Qed.

Lemma spawnEffect_safe (r1 r2 : Z) (s : Dom.State) :
  domSafe s -> drawn r1 -> drawn r2 ->
  domSafe (run (Dom.spawnEffect r1 r2) s)
  /\ result (Dom.spawnEffect r1 r2) s = Done tt.
Proof.
  intros Hs H1 H2. pose proof Hs as [Hb _].
  destruct (DomRun.dom_createNewPiece_returns r1 H1) as [f1 E1].
  destruct (DomRun.dom_createNewPiece_returns r2 H2) as [f2 E2].
  destruct s as [b pc nx sc lv go sp]. simp_dom.
  unfold run, result. unfold_dom. simp_dom.
  destruct pc as [p |]; cbn [isNull andb];
    [split; [exact Hs | reflexivity] |].
  destruct go; cbn [negb];
    [split; [exact Hs | reflexivity] |].
  rewrite E1. simp_dom. rewrite E2. simp_dom.
  split; [| reflexivity].
  apply domSafe_intro; [exact Hb | exact (spawned_safe r1 f1 E1) | eauto].
Qed.

(** An event with proper draws keeps the state safe, and its handler runs
    to its end. *)
Lemma handler_safe (e : Dom.event) (s : Dom.State) :
  domSafe s -> domDrawn e ->
  domSafe (Dom.dispatch e s) /\ result (Dom.handler e) s = Done tt.
Proof.
  intros Hs Hd.
  destruct e as [k r1 r2 | r1 r2 | r1 r2]; destruct Hd as [H1 H2];
    unfold Dom.dispatch, Dom.handler.
  - unfold run, result, Dom.handleKeyPress.
    destruct (Dom.gameOver s); [split; [exact Hs | reflexivity] |].
    destruct k.
    + exact (moveSideways_safe Dom.left s Hs).
    + exact (moveSideways_safe Dom.right s Hs).
    + exact (moveDown_safe r1 r2 s Hs H1).
    + exact (rotate_safe s Hs).
    + split; [exact Hs | reflexivity].
  - unfold run, result, Dom.gravityTick.
    destruct (Dom.gameOver s); [split; [exact Hs | reflexivity] |].
    exact (moveDown_safe r1 r2 s Hs H1).
  - exact (spawnEffect_safe r1 r2 s Hs H1 H2).
Qed.

End DomSafe.

(** X22. The handlers of the DOM build never throw: from mount, along any
    sequence of events whose draws are catalogue indices, every key press,
    gravity tick and effect run ends normally - no subscript is taken on an
    undefined row when a piece is checked, turned or locked. *)
Theorem Dom_handlers_never_throw (es : list Dom.event) (e : Dom.event) :
  Forall Spec.domDrawn es -> Spec.domDrawn e ->
  result (Dom.handler e) (Dom.dispatchAll es Dom.initialState) = Done tt.
Proof.
  assert (Hgen : forall es s,
            Spec.domSafe s -> Forall Spec.domDrawn es ->
            Spec.domSafe (Dom.dispatchAll es s)).
  { clear es. induction es as [|e' es IH]; intros s Hs Hes;
      cbn [Dom.dispatchAll]; [exact Hs |].
    inversion Hes as [|e'' es' He Hrest]; subst.
    apply IH; [| exact Hrest].
    exact (proj1 (DomSafe.handler_safe e' s Hs He)). }
  intros Hes He.
  apply DomSafe.handler_safe; [| exact He].
  apply Hgen; [| exact Hes].
  unfold Spec.domSafe, Dom.initialState. simp_dom.
  split; [split; [reflexivity | repeat constructor] |].
  split; [intros q Hq; discriminate Hq |].
  split; [intros q Hq; discriminate Hq |].
  intro H. exfalso. apply H. reflexivity.
Qed.

(** ** The further properties at concrete inputs *)

Lemma Hold_gameOver_is_final_witness :
  Hold.gameOver (run (Hold.gravityTick 0 0) Scenario.holdTower) = true
  /\ Hold.dispatchAll
       [Hold.Tick 0 0; Hold.KeyDown Hold.ArrowLeft 30 0 0; Hold.Effect 0 0]
       (run (Hold.gravityTick 0 0) Scenario.holdTower)
     = run (Hold.gravityTick 0 0) Scenario.holdTower.
Proof.
  assert (H : Hold.gameOver (run (Hold.gravityTick 0 0) Scenario.holdTower)
              = true) by reflexivity.
  split; [exact H |].
  apply Hold_gameOver_is_final. exact H.
Defined.

Lemma merge_writes_covered_cells_witness :
  Spec.fullSize Grid.emptyBoard
  /\ exists newBoard,
       Grid.mergePieceToBoard Hold.cellId Scenario.holdI Grid.emptyBoard
       = Done newBoard
       /\ Spec.fullSize newBoard
       /\ forall x y,
            Spec.cellOf newBoard x y
            = if truthy (Spec.cellOf (Grid.shape Scenario.holdI)
                           (x - Grid.px (Grid.position Scenario.holdI))
                           (y - Grid.py (Grid.position Scenario.holdI)))
              then Hold.cellId Scenario.holdI
              else Spec.cellOf Grid.emptyBoard x y.
Proof.
  assert (H : Spec.fullSize Grid.emptyBoard)
    by (split; [reflexivity | repeat constructor]).
  split; [exact H |].
  apply (merge_writes_covered_cells Hold.cellId Scenario.holdI
           Grid.emptyBoard H); [reflexivity | cbn; lia].
Defined.

Lemma Hold_lock_above_board_throws_witness :
  Hold.dispatchAll Scenario.kickPlay (Hold.initialState 0)
  = Scenario.holdKicked
  /\ Grid.mergePieceToBoard Hold.cellId Scenario.kickedI
       (Hold.board Scenario.holdKicked) = TypeError
  /\ result (Hold.moveDown 0 0) Scenario.holdKicked = TypeError
  /\ run (Hold.moveDown 0 0) Scenario.holdKicked = Scenario.holdKicked.
Proof.
  split; [exact holdKicked_is_reached |].
  apply (Hold_lock_above_board_throws 0 0 Scenario.holdKicked
           Scenario.kickedI 0 0).
  - reflexivity.
  - reflexivity.
  - exists [Num 1]. split; reflexivity.
  - cbn. lia.
Defined.

Lemma clearLines_idempotent_witness :
  Forall (fun row => ~ Spec.fullRow row)
    (fst (Grid.clearLines Scenario.fullBottom))
  /\ Grid.clearLines (fst (Grid.clearLines Scenario.fullBottom))
     = (fst (Grid.clearLines Scenario.fullBottom), 0).
Proof. apply clearLines_idempotent. reflexivity. Defined.

Lemma rotateShape_four_times_witness :
  exists s1 s2 s3,
    Grid.rotateShape Grid.shapeT = Done s1
    /\ Spec.rectangular s1 3 2
    /\ Grid.rotateShape s1 = Done s2
    /\ (forall x y, 0 <= x < 3 -> 0 <= y < 2 ->
          Spec.cellOf s2 x y = Spec.cellOf Grid.shapeT (3 - 1 - x) (2 - 1 - y))
    /\ Grid.rotateShape s2 = Done s3
    /\ Grid.rotateShape s3 = Done Grid.shapeT.
Proof.
  apply (rotateShape_four_times Grid.shapeT 2 3); [| lia | lia].
  split; [reflexivity | repeat constructor].
Defined.

Lemma Hold_sideways_round_trip_witness :
  run (Hold.moveSideways Hold.right)
    (run (Hold.moveSideways Hold.left) Scenario.holdSpawned)
  = Scenario.holdSpawned
  /\ run (Hold.moveSideways Hold.left)
       (run (Hold.moveSideways Hold.right) Scenario.holdSpawned)
     = Scenario.holdSpawned.
Proof.
  destruct (Hold_sideways_round_trip Scenario.holdSpawned Scenario.holdI
              eq_refl eq_refl) as [Hleft Hright].
  split; [apply Hleft | apply Hright]; reflexivity.
Defined.

Lemma Hold_drop_preview_is_valid_witness :
  exists pos,
    Hold.getDropPosition 30 Scenario.holdI Grid.emptyBoard = Done pos
    /\ Grid.px pos = Grid.px (Grid.position Scenario.holdI)
    /\ Grid.py (Grid.position Scenario.holdI) <= Grid.py pos
    /\ Grid.isValidMove (Grid.withPosition Scenario.holdI pos)
         Grid.emptyBoard = Done true
    /\ Grid.isValidMove (Grid.withY Scenario.holdI (Grid.py pos + 1))
         Grid.emptyBoard = Done false
    /\ Hold.getDropPosition 30 (Grid.withPosition Scenario.holdI pos)
         Grid.emptyBoard = Done pos.
Proof.
  apply (Hold_drop_preview_is_valid 30 Scenario.holdI Grid.emptyBoard).
  - reflexivity.
  - reflexivity.
  - exists 0, 0, [Num 1; Num 1; Num 1; Num 1]. split; reflexivity.
  - vm_compute. lia.
Defined.

Lemma hardDrop_matches_softDrops_witness :
  exists y',
    Hold.getDropPosition 30 Scenario.holdI (Hold.board Scenario.holdSpawned)
      = Done (Grid.mkPosition (Grid.px (Grid.position Scenario.holdI)) y')
    /\ Spec.dropRow Scenario.holdI (Hold.board Scenario.holdSpawned) y'
    /\ Spec.sameButScore
         (run (Hold.hardDrop 30 0 0) Scenario.holdSpawned)
         (Spec.iterate
            (S (Z.to_nat (y' - Grid.py (Grid.position Scenario.holdI))))
            (run (Hold.moveDown 0 0)) Scenario.holdSpawned).
Proof.
  destruct (HardDrop.hardDrop_matches_softDrops 30 0 0 Scenario.holdSpawned
              Scenario.holdI) as [y' [Hd [Hrow [Hsame _]]]].
  - reflexivity.
  - reflexivity.
  - exists 0, 0, [Num 1; Num 1; Num 1; Num 1]. split; reflexivity.
  - vm_compute. lia.
  - exists y'. auto.
Defined.

Lemma Flat3D_space_is_arrow_down_witness :
  run (Flat3D.handleKeyPress Flat3D.Space 30 0 0) Scenario.flatSpawned
  = run (Flat3D.handleKeyPress Flat3D.ArrowDown 30 0 0) Scenario.flatSpawned.
Proof.
  apply Flat3D_space_is_arrow_down; [reflexivity |].
  intros p Hp. injection Hp as <-. split.
  - exists 0, 0, [Num 1; Num 1; Num 1; Num 1]. split; reflexivity.
  - vm_compute. lia.
Defined.

Lemma Dom_game_never_ends_witness :
  Dom.gameOver
    (Dom.dispatchAll
       [Dom.Effect 0 1; Dom.Tick 1 1; Dom.KeyDown Dom.ArrowDown 1 1]
       Dom.initialState) = false.
Proof.
  apply Dom_game_never_ends.
  repeat (constructor; [cbn; unfold Spec.drawn; lia |]). constructor.
Defined.

Lemma Dom_renderBoard_shows_lock_witness :
  Grid.mergePieceToBoard Dom.cellId Scenario.domI
    (Dom.board (Scenario.domSpawned (Some Scenario.domO)))
  = Done (Dom.renderBoard (Scenario.domSpawned (Some Scenario.domO))).
Proof.
  apply (Dom_renderBoard_shows_lock (Scenario.domSpawned (Some Scenario.domO))
           Scenario.domI 1 4).
  - reflexivity.
  - split; [reflexivity | repeat constructor].
  - split; [reflexivity | repeat constructor].
  - reflexivity.
  - cbn. lia.
Defined.

Lemma Flat3D_lock_checks_promoted_witness :
  Flat3D.board
    (run (Flat3D.moveDown 0 0)
       (Flat3D.mkState Scenario.towerBoard (Some Scenario.holdO)
          (Some Scenario.holdI) 90 1 false 500)) = Scenario.fullTower
  /\ Flat3D.gameOver
       (run (Flat3D.moveDown 0 0)
          (Flat3D.mkState Scenario.towerBoard (Some Scenario.holdO)
             (Some Scenario.holdI) 90 1 false 500)) = negb false.
Proof.
  destruct (Flat3D_lock_checks_promoted 0 0
              (Flat3D.mkState Scenario.towerBoard (Some Scenario.holdO)
                 (Some Scenario.holdI) 90 1 false 500)
              Scenario.holdO Scenario.holdI Scenario.fullTower
              Scenario.fullTower 0 false)
    as [Hb [Hg _]]; try reflexivity.
  split; [exact Hb | exact Hg].
Defined.

Lemma Volumetric_lock_checks_promoted_witness :
  Volumetric.gameOver
    (run (Volumetric.moveDown 0 0)
       (Volumetric.mkState Scenario.emptyVolume
          (Some (Volumetric.withPosition Scenario.volumeI
                   (Volumetric.mkPosition 3 19 5)))
          (Some Scenario.volumeI) 0 1 false Volumetric.INITIAL_SPEED))
  = negb true
  /\ Volumetric.piece
       (run (Volumetric.moveDown 0 0)
          (Volumetric.mkState Scenario.emptyVolume
             (Some (Volumetric.withPosition Scenario.volumeI
                      (Volumetric.mkPosition 3 19 5)))
             (Some Scenario.volumeI) 0 1 false Volumetric.INITIAL_SPEED))
     = Some Scenario.volumeI.
Proof.
  destruct (Volumetric_lock_checks_promoted 0 0
              (Volumetric.mkState Scenario.emptyVolume
                 (Some (Volumetric.withPosition Scenario.volumeI
                          (Volumetric.mkPosition 3 19 5)))
                 (Some Scenario.volumeI) 0 1 false Volumetric.INITIAL_SPEED)
              (Volumetric.withPosition Scenario.volumeI
                 (Volumetric.mkPosition 3 19 5))
              Scenario.volumeI
              (repeat Grid.emptyBoard 5 ++ [Scenario.boardWithI (Num 1)]
               ++ repeat Grid.emptyBoard 4)
              (repeat Grid.emptyBoard 5 ++ [Scenario.boardWithI (Num 1)]
               ++ repeat Grid.emptyBoard 4)
              0 true)
    as [_ [_ [Hg [_ Hp]]]]; try reflexivity.
  split; [exact Hg | exact (Hp eq_refl)].
Defined.

Lemma Volumetric_depth_round_trip_witness :
  run (Volumetric.moveDepth Volumetric.backward)
    (run (Volumetric.moveDepth Volumetric.forward)
       (Volumetric.mkState Scenario.emptyVolume (Some Scenario.volumeI) None
          0 1 false Volumetric.INITIAL_SPEED))
  = Volumetric.mkState Scenario.emptyVolume (Some Scenario.volumeI) None
      0 1 false Volumetric.INITIAL_SPEED.
Proof.
  apply (proj1 (Volumetric_depth_round_trip
                  (Volumetric.mkState Scenario.emptyVolume
                     (Some Scenario.volumeI) None 0 1 false
                     Volumetric.INITIAL_SPEED)
                  Scenario.volumeI eq_refl eq_refl)).
  reflexivity.
Defined.

Lemma Volumetric_mount_spawns_witness :
  exists p np,
    Volumetric.createNewPiece 0 = Done p
    /\ Volumetric.createNewPiece 1 = Done np
    /\ Volumetric.py (Volumetric.position p) = 0
    /\ Volumetric.isValidMove p Volumetric.emptyBoard = Done true
    /\ run (Volumetric.spawnEffect 0 1) Volumetric.initialState
       = Volumetric.mkState Volumetric.emptyBoard (Some p) (Some np) 0 1
           false Volumetric.INITIAL_SPEED.
Proof.
  apply (Volumetric_mount_spawns 0 1); unfold Spec.drawn; lia.
Defined.

Lemma Hold_piece_stays_active_witness :
  Hold.piece
    (Hold.dispatchAll
       [Hold.KeyDown Hold.ArrowUp 30 0 0; Hold.KeyDown Hold.KeyX 30 1 1;
        Hold.Tick 2 2]
       Scenario.holdSpawned) <> None.
Proof. apply Hold_piece_stays_active. discriminate. Defined.

Lemma Hold_lock_clears_at_most_four_witness :
  Hold.score
    (run (Hold.hardDrop 30 0 0)
       (Hold.dispatchAll [Hold.Effect 0 1] (Hold.initialState 0)))
  <= Hold.score (Hold.dispatchAll [Hold.Effect 0 1] (Hold.initialState 0))
     + 1610 + (Grid.py (Grid.mkPosition 3 19)
               - Grid.py (Grid.position Scenario.holdI)).
Proof.
  apply (proj2 (Hold_lock_clears_at_most_four 0 [Hold.Effect 0 1] 0 0)
           30%nat Scenario.holdI (Grid.mkPosition 3 19));
    reflexivity.
Defined.

Lemma Dom_handlers_never_throw_witness :
  result (Dom.handler (Dom.KeyDown Dom.ArrowUp 1 1))
    (Dom.dispatchAll [Dom.Effect 0 1; Dom.Tick 1 1] Dom.initialState)
  = Done tt.
Proof.
  apply Dom_handlers_never_throw.
  - repeat (constructor; [cbn; unfold Spec.drawn; lia |]). constructor.
  - cbn. unfold Spec.drawn. lia.
Defined.
